(** * Tag-driven struct marshaling: a shallow embedding of the struct helpers
    of package [helper]

    The Go package walks the fields of a struct by reflection and converts
    between the struct and three flat text encodings (query string, flat JSON
    object, one CSV line), driven by struct tags.

    Layout of this file:
    - Go strings and the small string helpers;
    - the reflected data model (kinds, values, fields, structs, errors);
    - [Env], the external collaborators of the package (parsers, formatters,
      reflective calls, escaping, JSON decoding), none of which is part of the
      translated source file;
    - the translated functions;
    - a reference environment [go_env] used to run the functions on examples;
    - the theorems. *)

From Stdlib Require Import ZArith QArith Qabs String Ascii List Bool Lia DecimalString.
From stdpp Require Import base gmap strings list.
Import ListNotations.

Close Scope Q_scope.
Open Scope string_scope.
Open Scope list_scope.
Open Scope Z_scope.

(** ** Go strings *)

(** A Go [string] is a byte sequence; [len] counts bytes. *)
Abbreviation len := String.length.

Definition is_space (c : ascii) : bool :=
  match nat_of_ascii c with
  | 9%nat | 10%nat | 11%nat | 12%nat | 13%nat | 32%nat => true
  | _ => false
  end.

Fixpoint trim_left (s : string) : string :=
  match s with
  | EmptyString => EmptyString
  | String c s' => if is_space c then trim_left s' else s
  end.

Fixpoint trim_right (s : string) : string :=
  match s with
  | EmptyString => EmptyString
  | String c s' =>
      match trim_right s' with
      | EmptyString => if is_space c then EmptyString else String c EmptyString
      | r => String c r
      end
  end.

(** [strings.TrimSpace], on the ASCII white space characters. *)
Definition TrimSpace (s : string) : string := trim_right (trim_left s).

Definition lower_ascii (c : ascii) : ascii :=
  let n := nat_of_ascii c in
  if ((65 <=? n) && (n <=? 90))%nat then ascii_of_nat (n + 32) else c.

(** [strings.ToLower], on the ASCII letters. *)
Fixpoint ToLower (s : string) : string :=
  match s with
  | EmptyString => EmptyString
  | String c s' => String (lower_ascii c) (ToLower s')
  end.

(** [strings.Split s sep] for a non-empty separator: [skip] counts the bytes
    of a separator that was just matched and is still to be passed over. *)
Fixpoint split_from (sep : string) (skip : nat) (cur : string) (s : string)
  : list string :=
  match s with
  | EmptyString => [cur]
  | String c s' =>
      match skip with
      | S k => split_from sep k cur s'
      | O =>
          if String.prefix sep s
          then cur :: split_from sep (len sep - 1) EmptyString s'
          else split_from sep 0 (cur +:+ String c EmptyString) s'
      end
  end.

(** With an empty separator Go explodes the string into its characters; no
    caller in this package passes one. *)
Definition Split (s sep : string) : list string :=
  match sep with
  | EmptyString => (fun c => String c EmptyString) <$> list_ascii_of_string s
  | _ => split_from sep 0 EmptyString s
  end.

(** Modelled from the spec: the package's string utilities [Trim], [LenTrim],
    [Left], [Right] and [StringSliceContains] live in a source file that is not
    part of the translated one; the spec lists them as low-level string
    utilities (trim, ...) the engine calls into.  [Trim] removes surrounding
    white space, [LenTrim] is the length of the trimmed text, [Left]/[Right]
    keep the first/last [n] bytes (the whole text when it is not longer). *)
Definition Trim (s : string) : string := TrimSpace s.

Definition LenTrim (s : string) : nat := len (Trim s).

Definition Left (s : string) (n : nat) : string :=
  if (len s <=? n)%nat then s else String.substring 0 n s.

Definition Right (s : string) (n : nat) : string :=
  if (len s <=? n)%nat then s else String.substring (len s - n) n s.

Definition StringSliceContains (l : list string) (v : string) : bool :=
  existsb (String.eqb v) l.

(** ** The reflected data model *)

Inductive IntW := W8 | W16 | W0 | W32 | W64.
Inductive FloatW := F32 | F64.
Inductive OpaqueKind := OStruct | OMap | OArray | OFunc | OChan | OComplex.

(** [reflect.Kind]. *)
Inductive Kind :=
| KString | KBool
| KInt8 | KInt16 | KInt | KInt32 | KInt64
| KUint8 | KUint16 | KUint | KUint32 | KUint64
| KFloat32 | KFloat64
| KPtr | KSlice | KStruct | KInterface
| KMap | KArray | KFunc | KChan | KComplex.

(** A [time.Time] is modelled by its distance from the zero time. *)
Definition Time := Z.
Definition IsZero (t : Time) : bool := (t =? 0)%Z.

#[local] Set Warnings "-register-all".

(** A reflected value.  Floats are modelled by rationals: the package only
    tests them against zero, compares their renderings and parses them.
    [VOpaque] stands for a value of a type the package does not look into
    (a user struct, a map, ...); its payload [None] is the zero value.
    [VError] is a dynamic value that implements [error]. *)
Inductive Value : Type :=
| VString (s : string)
| VBool (b : bool)
| VInt (w : IntW) (n : Z)
| VUint (w : IntW) (n : Z)
| VFloat (w : FloatW) (q : Q)
| VPtr (elem : string) (target : option Value)
| VSlice (elem : string) (items : list Value)
| VIface (ty : string) (dyn : option Value)
| VNullString (s : string) (valid : bool)
| VNullBool (b : bool) (valid : bool)
| VNullFloat64 (q : Q) (valid : bool)
| VNullInt32 (n : Z) (valid : bool)
| VNullInt64 (n : Z) (valid : bool)
| VNullTime (t : Time) (valid : bool)
| VTime (t : Time)
| VError (msg : string)
| VOpaque (k : OpaqueKind) (ty : string) (data : option string).

Definition kindOf (o : Value) : Kind :=
  match o with
  | VString _ => KString
  | VBool _ => KBool
  | VInt W8 _ => KInt8 | VInt W16 _ => KInt16 | VInt W0 _ => KInt
  | VInt W32 _ => KInt32 | VInt W64 _ => KInt64
  | VUint W8 _ => KUint8 | VUint W16 _ => KUint16 | VUint W0 _ => KUint
  | VUint W32 _ => KUint32 | VUint W64 _ => KUint64
  | VFloat F32 _ => KFloat32 | VFloat F64 _ => KFloat64
  | VPtr _ _ => KPtr
  | VSlice _ _ => KSlice
  | VIface _ _ => KInterface
  | VNullString _ _ | VNullBool _ _ | VNullFloat64 _ _ | VNullInt32 _ _
  | VNullInt64 _ _ | VNullTime _ _ | VTime _ | VError _ => KStruct
  | VOpaque OStruct _ _ => KStruct
  | VOpaque OMap _ _ => KMap
  | VOpaque OArray _ _ => KArray
  | VOpaque OFunc _ _ => KFunc
  | VOpaque OChan _ _ => KChan
  | VOpaque OComplex _ _ => KComplex
  end.

Definition Kind_eqb (a b : Kind) : bool :=
  match a, b with
  | KString, KString | KBool, KBool | KInt8, KInt8 | KInt16, KInt16
  | KInt, KInt | KInt32, KInt32 | KInt64, KInt64 | KUint8, KUint8
  | KUint16, KUint16 | KUint, KUint | KUint32, KUint32 | KUint64, KUint64
  | KFloat32, KFloat32 | KFloat64, KFloat64 | KPtr, KPtr | KSlice, KSlice
  | KStruct, KStruct | KInterface, KInterface | KMap, KMap | KArray, KArray
  | KFunc, KFunc | KChan, KChan | KComplex, KComplex => true
  | _, _ => false
  end.

Definition intSuffix (w : IntW) : string :=
  match w with W8 => "8" | W16 => "16" | W0 => "" | W32 => "32" | W64 => "64" end.

(** [o.Type().String()]. *)
Definition typeString (o : Value) : string :=
  match o with
  | VString _ => "string"
  | VBool _ => "bool"
  | VInt w _ => "int" +:+ intSuffix w
  | VUint w _ => "uint" +:+ intSuffix w
  | VFloat F32 _ => "float32"
  | VFloat F64 _ => "float64"
  | VPtr e _ => "*" +:+ e
  | VSlice e _ => "[]" +:+ e
  | VIface ty _ => ty
  | VNullString _ _ => "sql.NullString"
  | VNullBool _ _ => "sql.NullBool"
  | VNullFloat64 _ _ => "sql.NullFloat64"
  | VNullInt32 _ _ => "sql.NullInt32"
  | VNullInt64 _ _ => "sql.NullInt64"
  | VNullTime _ _ => "sql.NullTime"
  | VTime _ => "time.Time"
  | VError _ => "*errors.errorString"
  | VOpaque _ ty _ => ty
  end.

(** [reflect.Zero(o.Type())]. *)
Definition Zero (o : Value) : Value :=
  match o with
  | VString _ => VString ""
  | VBool _ => VBool false
  | VInt w _ => VInt w 0
  | VUint w _ => VUint w 0
  | VFloat w _ => VFloat w 0%Q
  | VPtr e _ => VPtr e None
  | VSlice e _ => VSlice e []
  | VIface ty _ => VIface ty None
  | VNullString _ _ => VNullString "" false
  | VNullBool _ _ => VNullBool false false
  | VNullFloat64 _ _ => VNullFloat64 0%Q false
  | VNullInt32 _ _ => VNullInt32 0 false
  | VNullInt64 _ _ => VNullInt64 0 false
  | VNullTime _ _ => VNullTime 0 false
  | VTime _ => VTime 0
  | VError _ => VError ""
  | VOpaque k ty _ => VOpaque k ty None
  end.

(** [o.Interface()]: the value itself, or the dynamic value an
    interface-typed field holds ([None] for a nil interface). *)
Definition Interface (o : Value) : option Value :=
  match o with
  | VIface _ d => d
  | _ => Some o
  end.

(** [o.Set(x)]: an interface-typed field keeps its static type and stores [x]
    as its dynamic value. *)
Definition SetValue (o x : Value) : Value :=
  match o, x with
  | VIface ty _, VIface _ d => VIface ty d
  | VIface ty _, _ => VIface ty (Some x)
  | _, _ => x
  end.

(** [reflect.New(t)] for the type of [base]: a pointer to a fresh zero value. *)
Definition New (base : Value) : Value :=
  VPtr (typeString base) (Some (Zero base)).

(** The type assertion [v.Interface().(error)]: succeeds exactly when the
    dynamic value implements [error] (and is then not nil). *)
Definition asError (v : Value) : option string :=
  match Interface v with
  | Some (VError m) => Some m
  | _ => None
  end.

(** [reflect.StructField] together with the addressable field value. *)
Record Field := mkField {
  Name : string;
  Tag : list (string * string);
  CanSet : bool;
  Val : Value
}.

(** [field.Tag.Get(key)]: the value of the first entry for [key], else "". *)
Fixpoint TagGet (tag : list (string * string)) (key : string) : string :=
  match tag with
  | [] => ""
  | (k, v) :: rest => if String.eqb k key then v else TagGet rest key
  end.

Definition Get (f : Field) (key : string) : string := TagGet (Tag f) key.

Definition withVal (f : Field) (v : Value) : Field :=
  {| Name := Name f; Tag := Tag f; CanSet := CanSet f; Val := v |}.

Record Struct := mkStruct {
  TypeName : string;
  Fields : list Field
}.

Definition withFields (s : Struct) (fs : list Field) : Struct :=
  {| TypeName := TypeName s; Fields := fs |}.

(** The [interface{}] argument every entry point receives. *)
Inductive Input :=
| InNil
| InNotPtr (v : Value)
| InPtrOther (v : Value)
| InPtr (s : Struct).

(** Arguments of [fmt.Errorf]. *)
Inductive ErrArg := AStr (s : string) | AInt (n : Z).

(** An [error]: the format string of a [fmt.Errorf] call of the translated
    file with its arguments, or an error handed back by a collaborator (known
    by its message only). *)
Inductive Error :=
| Errorf (format : string) (args : list ErrArg)
| Foreign (msg : string).

(** ** External collaborators *)

Inductive Receiver := RBase (s : Struct) | RField (o : Value).
Inductive CallArg := CStr (s : string) | CSlice (items : list Value).

Inductive JsonResult :=
| JsonError (msg : string)
| JsonNil
| JsonMap (m : gmap string string).

(** Everything the translated file calls but does not define: the package's
    parsing, formatting, extraction and reflection helpers, and the standard
    library's URL escaping and JSON decoding.  Reflective method calls are
    taken to be pure: a getter, setter or validator computes its results from
    the receiver and does not write to the struct.  A collaborator that can
    fail hands back the message of its error. *)
Record Env := mkEnv {
  ParseBool : string -> bool * bool;
  ParseInt32 : string -> Z * bool;
  ParseInt64 : string -> Z * bool;
  ParseFloat64 : string -> Q * bool;
  StrToUint64 : string -> Z;
  Itoa : Z -> string;
  Int64ToString : Z -> string;
  UInt64ToString : Z -> string;
  Float64ToString : Q -> string;
  DateTimeFormatString : string;
  ParseDateTimeCustom : string -> string -> Time;
  ExtractAlpha : string -> string;
  ExtractNumeric : string -> string;
  ExtractAlphaNumeric : string -> string;
  ExtractAlphaNumericPrintableSymbols : string -> string;
  ExtractHex : string -> string;
  ExtractByRegex : string -> string -> string;
  GetStructTagsValueSlice : Field -> list string -> list string;
  ReflectValueToString :
    Value -> string -> string -> bool -> bool -> string -> bool ->
    string * bool * option string;
  ReflectStringToField : Value -> string -> string -> Value * option string;
  ReflectCall : Receiver -> string -> list CallArg -> list Value * bool;
  DerefError : Value -> option string;
  DerefPointersZero : Value -> Value * bool * bool;
  ReflectTypeRegistryGet : string -> option Value;
  PathEscape : string -> string;
  JsonToEscaped : string -> string;
  JsonFromEscaped : string -> string;
  json_Unmarshal : string -> JsonResult
}.

(** ** The translated functions *)

Section Engine.

Variable E : Env.

(** *** Structural mutators *)

(** The body of the field loop of [StructClearFields]. *)
Definition clearValue (o : Value) : Value :=
  match o with
  | VString _ => VString ""
  | VBool _ => VBool false
  | VInt w _ => VInt w 0
  | VFloat w _ => VFloat w 0%Q
  | VUint w _ => VUint w 0
  | VPtr _ _ => SetValue o (Zero o)
  | VSlice _ _ => SetValue o (Zero o)
  | _ =>
      match Interface o with
      | Some (VNullString _ _) => SetValue o (VNullString "" false)
      | Some (VNullBool _ _) => SetValue o (VNullBool false false)
      | Some (VNullFloat64 _ _) => SetValue o (VNullFloat64 0%Q false)
      | Some (VNullInt32 _ _) => SetValue o (VNullInt32 0 false)
      | Some (VNullInt64 _ _) => SetValue o (VNullInt64 0 false)
      | Some (VNullTime _ _) => SetValue o (VNullTime 0 false)
      | Some (VTime _) => SetValue o (VTime 0)
      | _ => SetValue o (Zero o)
      end
  end.

Definition clearField (f : Field) : Field :=
  if CanSet f then withVal f (clearValue (Val f)) else f.

Definition clearFields (s : Struct) : Struct :=
  withFields s (clearField <$> Fields s).

(** [StructClearFields]: the input after the call. *)
Definition StructClearFields (inp : Input) : Input :=
  match inp with
  | InPtr s => InPtr (clearFields s)
  | _ => inp
  end.

Definition StructNonDefaultRequiredFieldsCount (inp : Input) : Z :=
  match inp with
  | InPtr s =>
      fold_left
        (fun count f =>
           if CanSet f
           then
             let tagDef := Get f "def" in
             let tagReq := Get f "req" in
             if (len tagDef =? 0)%nat && String.eqb (ToLower tagReq) "true"
             then count + 1 else count
           else count)
        (Fields s) 0
  | _ => 0
  end.

(** The time format a field compares or parses its default with. *)
Definition tagTimeFormatOf (f : Field) : string :=
  let tagTimeFormat := Trim (Get f "timeformat") in
  if (LenTrim tagTimeFormat =? 0)%nat then DateTimeFormatString E else tagTimeFormat.

(** The body of the field loop of [IsStructFieldSet]: [true] when the loop
    returns [true] at this field. *)
Definition isFieldSet (f : Field) : bool :=
  let o := Val f in
  let tagDef := Get f "def" in
  match o with
  | VString s => (0 <? LenTrim s)%nat && negb (String.eqb s tagDef)
  | VBool b => b
  | VInt _ n => negb (n =? 0) && negb (String.eqb (Int64ToString E n) tagDef)
  | VFloat _ q => negb (Qeq_bool q 0) && negb (String.eqb (Float64ToString E q) tagDef)
  | VUint _ n => (0 <? n) && negb (String.eqb (UInt64ToString E n) tagDef)
  | VPtr _ target => match target with Some _ => true | None => false end
  | VSlice _ items => (0 <? length items)%nat
  | _ =>
      match Interface o with
      | Some (VNullString s valid) =>
          valid && ((len tagDef =? 0)%nat || negb (String.eqb s tagDef))
      | Some (VNullBool _ valid) =>
          valid && ((len tagDef =? 0)%nat || fst (ParseBool E tagDef))
      | Some (VNullFloat64 q valid) =>
          valid && ((len tagDef =? 0)%nat
                    || negb (String.eqb (Float64ToString E q) tagDef))
      | Some (VNullInt32 n valid) =>
          valid && ((len tagDef =? 0)%nat || negb (String.eqb (Itoa E n) tagDef))
      | Some (VNullInt64 n valid) =>
          valid && ((len tagDef =? 0)%nat
                    || negb (String.eqb (Int64ToString E n) tagDef))
      | Some (VNullTime t valid) =>
          valid && ((len tagDef =? 0)%nat
                    || negb (t =? ParseDateTimeCustom E tagDef (tagTimeFormatOf f)))
      | Some (VTime t) =>
          negb (IsZero t)
          && ((len tagDef =? 0)%nat
              || negb (t =? ParseDateTimeCustom E tagDef (tagTimeFormatOf f)))
      | Some _ => Kind_eqb (kindOf o) KInterface
      | None => false
      end
  end.

Fixpoint IsStructFieldSet_loop (fs : list Field) : bool :=
  match fs with
  | [] => false
  | f :: rest =>
      if CanSet f && isFieldSet f then true else IsStructFieldSet_loop rest
  end.

Definition IsStructFieldSet (inp : Input) : bool :=
  match inp with
  | InPtr s => IsStructFieldSet_loop (Fields s)
  | _ => false
  end.

(** [o.OverflowInt], [o.OverflowUint], [o.OverflowFloat]. *)
Definition intBits (w : IntW) : Z :=
  match w with W8 => 8 | W16 => 16 | W0 => 64 | W32 => 32 | W64 => 64 end.

Definition OverflowInt (w : IntW) (x : Z) : bool :=
  negb ((- 2 ^ (intBits w - 1) <=? x) && (x <? 2 ^ (intBits w - 1))).

Definition OverflowUint (w : IntW) (x : Z) : bool :=
  negb ((0 <=? x) && (x <? 2 ^ intBits w)).

Definition MaxFloat32 : Q := inject_Z ((2 ^ 24 - 1) * 2 ^ 104).

Definition OverflowFloat (w : FloatW) (x : Q) : bool :=
  match w with
  | F32 => negb (Qle_bool (Qabs x) MaxFloat32)
  | F64 => false
  end.

(** The integer branch of [SetStructFieldDefaultValues]: parse the default and
    store it unless it is zero or does not fit. *)
Definition setIntDefault (w : IntW) (n : Z) (tagDef : string) : Value :=
  let '(i64, ok) := ParseInt64 E tagDef in
  if ok && negb (i64 =? 0)
  then if negb (OverflowInt w i64) then VInt w i64 else VInt w n
  else VInt w n.

(** The body of the field loop of [SetStructFieldDefaultValues], for a
    settable field with a non-empty [def] tag. *)
Definition defaultValue (f : Field) : Value :=
  let o := Val f in
  let tagDef := Get f "def" in
  match o with
  | VString s => if (LenTrim s =? 0)%nat then VString tagDef else o
  | VInt w n =>
      if n =? 0
      then
        let tagSetter := Trim (Get f "setter") in
        if (LenTrim tagSetter =? 0)%nat
        then setIntDefault w n tagDef
        else
          let '(res, notFound) := ReflectCall E (RField o) tagSetter [CStr tagDef] in
          if negb notFound
          then
            let rendered (r : Value) : option string :=
              let '(val, skip, err) := ReflectValueToString E r "" "" false false "" false in
              match err with
              | None => if negb skip then Some val else None
              | Some _ => None
              end in
            match res with
            | [] => setIntDefault w n tagDef
            | [r] =>
                match rendered r with
                | Some val => setIntDefault w n val
                | None => o
                end
            | r :: _ =>
                match DerefError E (List.last res r) with
                | None =>
                    match rendered r with
                    | Some val => setIntDefault w n val
                    | None => o
                    end
                | Some _ => setIntDefault w n tagDef
                end
            end
          else o
      else o
  | VFloat w q =>
      if Qeq_bool q 0
      then
        let '(f64, ok) := ParseFloat64 E tagDef in
        if ok && negb (Qeq_bool f64 0)
        then if negb (OverflowFloat w f64) then VFloat w f64 else o
        else o
      else o
  | VUint w n =>
      if n =? 0
      then
        let u64 := StrToUint64 E tagDef in
        if negb (u64 =? 0)
        then if negb (OverflowUint w u64) then VUint w u64 else o
        else o
      else o
  | VBool _ | VPtr _ _ | VSlice _ _ => o
  | _ =>
      match Interface o with
      | Some (VNullString _ valid) =>
          if negb valid then SetValue o (VNullString tagDef true) else o
      | Some (VNullBool _ valid) =>
          if negb valid
          then SetValue o (VNullBool (fst (ParseBool E tagDef)) true)
          else o
      | Some (VNullFloat64 _ valid) =>
          if negb valid
          then
            let '(f64, ok) := ParseFloat64 E tagDef in
            if ok && negb (Qeq_bool f64 0)
            then SetValue o (VNullFloat64 f64 true) else o
          else o
      | Some (VNullInt32 _ valid) =>
          if negb valid
          then
            let '(i32, ok) := ParseInt32 E tagDef in
            if ok && negb (i32 =? 0)
            then SetValue o (VNullInt32 i32 true) else o
          else o
      | Some (VNullInt64 _ valid) =>
          if negb valid
          then
            let '(i64, ok) := ParseInt64 E tagDef in
            if ok && negb (i64 =? 0)
            then SetValue o (VNullInt64 i64 true) else o
          else o
      | Some (VNullTime _ valid) =>
          if negb valid
          then
            let t := ParseDateTimeCustom E tagDef (tagTimeFormatOf f) in
            if negb (IsZero t) then SetValue o (VNullTime t true) else o
          else o
      | Some (VTime t0) =>
          if IsZero t0
          then
            let t := ParseDateTimeCustom E tagDef (tagTimeFormatOf f) in
            if negb (IsZero t) then SetValue o (VTime t) else o
          else o
      | _ => o
      end
  end.

Definition defaultField (f : Field) : Field :=
  if CanSet f
  then if (len (Get f "def") =? 0)%nat then f else withVal f (defaultValue f)
  else f.

Definition applyDefaults (s : Struct) : Struct :=
  withFields s (defaultField <$> Fields s).

(** [SetStructFieldDefaultValues]: the returned flag and the input after the
    call. *)
Definition SetStructFieldDefaultValues (inp : Input) : bool * Input :=
  match inp with
  | InPtr s => (true, InPtr (applyDefaults s))
  | _ => (false, inp)
  end.

(** *** Pieces shared by the three marshal functions *)

Definition isSome {A} (x : option A) : bool :=
  match x with Some _ => true | None => false end.

(** The [uniqueid] claim at the head of a field visit: [None] when the group
    is already claimed (the field is passed over), else the map with the
    claim of this field recorded. *)
Definition claimUniqueId (field : Field) (uniqueMap : gmap string string)
  : option (gmap string string) :=
  let tagUniqueId := Trim (Get field "uniqueid") in
  if (0 <? len tagUniqueId)%nat
  then
    match uniqueMap !! ToLower tagUniqueId with
    | Some _ => None
    | None => Some (<[ToLower tagUniqueId := Name field]> uniqueMap)
    end
  else Some uniqueMap.

(** The release of the claim when the field turns out to be skipped. *)
Definition releaseUniqueId (field : Field) (uniqueMap : gmap string string)
  : gmap string string :=
  let tagUniqueId := Trim (Get field "uniqueid") in
  if (0 <? len tagUniqueId)%nat
  then
    match uniqueMap !! ToLower tagUniqueId with
    | Some _ => delete (ToLower tagUniqueId) uniqueMap
    | None => uniqueMap
    end
  else uniqueMap.

(** The tag values read through [GetStructTagsValueSlice]. *)
Record TagOptions := mkTagOptions {
  boolTrue : string;
  boolFalse : string;
  skipBlank : bool;
  skipZero : bool;
  timeFormat : string;
  outPrefix : string;
  zeroBlank : bool
}.

Definition noOptions : TagOptions :=
  mkTagOptions "" "" false false "" "" false.

(** The seven-tag read of [MarshalStructToQueryParams] and
    [MarshalStructToCSV]. *)
Definition readOptions7 (field : Field) : TagOptions :=
  match GetStructTagsValueSlice E field
          ["booltrue"; "boolfalse"; "skipblank"; "skipzero"; "timeformat";
           "outprefix"; "zeroblank"] with
  | [v0; v1; v2; v3; v4; v5; v6] =>
      mkTagOptions v0 v1 (fst (ParseBool E v2)) (fst (ParseBool E v3)) v4 v5
        (fst (ParseBool E v6))
  | _ => noOptions
  end.

(** The six-tag read of [MarshalStructToJson] (no [outprefix]). *)
Definition readOptions6 (field : Field) : TagOptions :=
  match GetStructTagsValueSlice E field
          ["booltrue"; "boolfalse"; "skipblank"; "skipzero"; "timeformat";
           "zeroblank"] with
  | [v0; v1; v2; v3; v4; v5] =>
      mkTagOptions v0 v1 (fst (ParseBool E v2)) (fst (ParseBool E v3)) v4 ""
        (fst (ParseBool E v5))
  | _ => noOptions
  end.

Definition render (o : Value) (t : TagOptions) : string * bool * option string :=
  ReflectValueToString E o (boolTrue t) (boolFalse t) (skipBlank t) (skipZero t)
    (timeFormat t) (zeroBlank t).

(** The [getter] block: the value the field is rendered from, and whether a
    getter is declared. *)
Definition applyGetter (s : Struct) (field : Field) (t : TagOptions)
  : Value * bool :=
  let o := Val field in
  let tagGetter := Trim (Get field "getter") in
  if (0 <? len tagGetter)%nat
  then
    let isBase := String.eqb (ToLower (Left tagGetter 5)) "base." in
    let tagGetter := if isBase then Right tagGetter (len tagGetter - 5) else tagGetter in
    let useParam := String.eqb (ToLower (Right tagGetter 3)) "(x)" in
    let paramVal :=
      if useParam
      then if negb (Kind_eqb (kindOf o) KSlice) then fst (fst (render o t)) else ""
      else "" in
    let paramSlice : option (list Value) :=
      if useParam
      then match o with
           | VSlice _ items => if (0 <? length items)%nat then Some items else None
           | _ => None
           end
      else None in
    let tagGetter := if useParam then Left tagGetter (len tagGetter - 3) else tagGetter in
    let receiver := if isBase then RBase s else RField o in
    let args :=
      if useParam
      then match paramSlice with
           | None => [CStr paramVal]
           | Some items => [CSlice items]
           end
      else [] in
    let '(ov, notFound) := ReflectCall E receiver tagGetter args in
    if negb notFound
    then match ov with
         | v :: _ => (v, true)
         | [] => (o, true)
         end
    else (o, true)
  else (o, false).

(** The "unknown enum" block: an [int] field whose value is 0 and whose text
    is "unknown" is blanked, takes the default when there is one, and
    otherwise gives up its [uniqueid] claim and is passed over.  The result is
    the text to go on with ([None]: the loop continues with the next field)
    and the claim map. *)
Definition unknownEnum (field : Field) (oldVal : Value) (buf defVal : string)
    (uniqueMap : gmap string string)
  : option string * gmap string string :=
  let isUnknown :=
    match oldVal with
    | VInt W0 n => (n =? 0) && String.eqb (ToLower buf) "unknown"
    | _ => false
    end in
  if isUnknown
  then
    if (0 <? len defVal)%nat
    then (Some defVal, uniqueMap)
    else
      let tagUniqueId := Trim (Get field "uniqueid") in
      if (0 <? len tagUniqueId)%nat
      then
        match uniqueMap !! ToLower tagUniqueId with
        | Some _ => (None, delete (ToLower tagUniqueId) uniqueMap)
        | None => (Some "", uniqueMap)
        end
      else (Some "", uniqueMap)
  else (Some buf, uniqueMap).

(** The output key of a field in the query-string and JSON marshalers. *)
Definition outputKey (field : Field) (tagName : string) : string :=
  let tag := Get field tagName in
  if (LenTrim tag =? 0)%nat then Name field else tag.

Definition excludedBy (field : Field) (excludeTagName : string) : bool :=
  (0 <? LenTrim excludeTagName)%nat
  && String.eqb (Trim (Get field excludeTagName)) "-".

(** *** MarshalStructToQueryParams *)

(** One turn of the field loop; the state is [output] and [uniqueMap]. *)
Definition queryParamsField (s : Struct) (tagName excludeTagName : string)
    (st : string * gmap string string) (field : Field)
  : string * gmap string string :=
  let '(output, uniqueMap) := st in
  let tag := outputKey field tagName in
  if negb (String.eqb tag "-")
  then
    if excludedBy field excludeTagName then st
    else
      match claimUniqueId field uniqueMap with
      | None => st
      | Some uniqueMap =>
          let t := readOptions7 field in
          let oldVal := Val field in
          let o := fst (applyGetter s field t) in
          let '(buf, skip, err) := render o t in
          if isSome err || skip
          then (output, releaseUniqueId field uniqueMap)
          else
            let defVal := Get field "def" in
            match unknownEnum field oldVal buf defVal uniqueMap with
            | (None, uniqueMap) => (output, uniqueMap)
            | (Some buf, uniqueMap) =>
                let buf :=
                  if String.eqb (boolFalse t) " " && (0 <? len (outPrefix t))%nat
                     && String.eqb buf "false"
                  then ""
                  else
                    let buf :=
                      if (len buf =? 0)%nat && (0 <? len defVal)%nat
                      then defVal else buf in
                    if skipBlank t && (LenTrim buf =? 0)%nat then ""
                    else if skipZero t && String.eqb buf "0" then ""
                    else outPrefix t +:+ buf in
                let output :=
                  if (0 <? LenTrim output)%nat then output +:+ "&" else output in
                (output +:+ tag +:+ "=" +:+ PathEscape E buf, uniqueMap)
            end
      end
  else st.

Definition MarshalStructToQueryParams (inp : Input)
    (tagName excludeTagName : string) : string * option Error :=
  match inp with
  | InNil =>
      ("", Some (Errorf "MarshalStructToQueryParams Requires Input Struct Variable Pointer" []))
  | _ =>
      if (LenTrim tagName =? 0)%nat
      then ("", Some (Errorf "MarshalStructToQueryParams Requires TagName (Tag Name defines query parameter name)" []))
      else
        match inp with
        | InNil | InNotPtr _ =>
            ("", Some (Errorf "MarshalStructToQueryParams Expects inputStructPtr To Be a Pointer" []))
        | InPtrOther _ =>
            ("", Some (Errorf "MarshalStructToQueryParams Requires Struct Object" []))
        | InPtr s =>
            let '(output, _) :=
              fold_left (queryParamsField s tagName excludeTagName) (Fields s) ("", ∅) in
            if (LenTrim output =? 0)%nat
            then ("", Some (Errorf "MarshalStructToQueryParams Yielded Blank Output" []))
            else (output, None)
        end
  end.

(** *** MarshalStructToJson *)

(** [strings.Replace(s, old, new, -1)] for a one-byte [old]. *)
Fixpoint replaceChar (old : ascii) (new : string) (s : string) : string :=
  match s with
  | EmptyString => EmptyString
  | String c s' =>
      if Ascii.eqb c old then new +:+ replaceChar old new s'
      else String c (replaceChar old new s')
  end.

Definition dquote : string := String (ascii_of_nat 34) EmptyString.
Definition backslash : string := String (ascii_of_nat 92) EmptyString.

(** The value text of a field in the JSON output, before [JsonToEscaped]:
    the prefix-only and default substitutions, then the quote escaping. *)
Definition jsonFieldValue (field : Field) (t : TagOptions) (buf defVal : string)
  : string :=
  let outPrefix := Get field "outprefix" in
  let buf :=
    if String.eqb (boolTrue t) " " && (len buf =? 0)%nat
       && (0 <? len outPrefix)%nat
    then outPrefix +:+ defVal
    else if String.eqb (boolFalse t) " " && String.eqb buf "false"
            && (0 <? len outPrefix)%nat
    then ""
    else if (0 <? len defVal)%nat && (len buf =? 0)%nat
    then outPrefix +:+ defVal
    else buf in
  let buf := replaceChar (ascii_of_nat 34) (backslash +:+ dquote) buf in
  replaceChar "'"%char (backslash +:+ "'") buf.

(** One turn of the field loop; the state is [output] and [uniqueMap]. *)
Definition jsonField (s : Struct) (tagName excludeTagName : string)
    (st : string * gmap string string) (field : Field)
  : string * gmap string string :=
  let '(output, uniqueMap) := st in
  let tag := outputKey field tagName in
  if negb (String.eqb tag "-")
  then
    if excludedBy field excludeTagName then st
    else
      match claimUniqueId field uniqueMap with
      | None => st
      | Some uniqueMap =>
          let t := readOptions6 field in
          let oldVal := Val field in
          let o := fst (applyGetter s field t) in
          let '(buf, skip, err) := render o t in
          if isSome err || skip
          then (output, releaseUniqueId field uniqueMap)
          else
            let defVal := Get field "def" in
            match unknownEnum field oldVal buf defVal uniqueMap with
            | (None, uniqueMap) => (output, uniqueMap)
            | (Some buf, uniqueMap) =>
                let buf := jsonFieldValue field t buf defVal in
                let output :=
                  if (0 <? LenTrim output)%nat then output +:+ ", " else output in
                (output +:+ dquote +:+ tag +:+ dquote +:+ ":" +:+ dquote
                   +:+ JsonToEscaped E buf +:+ dquote, uniqueMap)
            end
      end
  else st.

Definition MarshalStructToJson (inp : Input)
    (tagName excludeTagName : string) : string * option Error :=
  match inp with
  | InNil =>
      ("", Some (Errorf "MarshalStructToJson Requires Input Struct Variable Pointer" []))
  | _ =>
      if (LenTrim tagName =? 0)%nat
      then ("", Some (Errorf "MarshalStructToJson Requires TagName (Tag Name defines Json name)" []))
      else
        match inp with
        | InNil | InNotPtr _ =>
            ("", Some (Errorf "MarshalStructToJson Expects inputStructPtr To Be a Pointer" []))
        | InPtrOther _ =>
            ("", Some (Errorf "MarshalStructToJson Requires Struct Object" []))
        | InPtr s =>
            let '(output, _) :=
              fold_left (jsonField s tagName excludeTagName) (Fields s) ("", ∅) in
            if (LenTrim output =? 0)%nat
            then ("", Some (Errorf "MarshalStructToJson Yielded Blank Output" []))
            else ("{" +:+ output +:+ "}", None)
        end
  end.

(** *** Pieces shared by the two unmarshal functions *)

(** The result of one turn of a field loop that may leave the function:
    go on with the next field, or return. *)
Inductive Outcome (A : Type) :=
| Next (a : A) (s : Struct)
| Return (e : option Error) (s : Struct).
Arguments Next {A} a s.
Arguments Return {A} e s.

(** [for i := 0; i < s.NumField(); i++]: [n] turns are left, the next one
    visits field [i] of the struct as it is now. *)
Fixpoint fieldLoop {A} (step : A -> Struct -> nat -> Field -> Outcome A)
    (n i : nat) (a : A) (s : Struct) : option Error * Struct :=
  match n with
  | O => (None, s)
  | S n' =>
      match Fields s !! i with
      | None => (None, s)
      | Some field =>
          match step a s i field with
          | Next a' s' => fieldLoop step n' (S i) a' s'
          | Return e s' => (e, s')
          end
      end
  end.

(** Writing through [o], the value of field [i]. *)
Definition setField (s : Struct) (i : nat) (field : Field) (v : Value) : Struct :=
  withFields s (<[i := withVal field v]> (Fields s)).

Definition isReferenceKind (o : Value) : bool :=
  match kindOf o with
  | KPtr | KInterface | KStruct | KSlice => true
  | _ => false
  end.

(** The [setter] name with its [base.] prefix split off. *)
Definition splitSetter (tagSetter : string) : bool * string :=
  if String.eqb (ToLower (Left tagSetter 5)) "base."
  then (true, Right tagSetter (len tagSetter - 5))
  else (false, tagSetter).

(** The setter call on a field of a primitive kind: the text the field is
    then parsed from. *)
Definition setterText (s : Struct) (o : Value) (isBase : bool)
    (tagSetter value timeFormat : string) (strict : bool) : string :=
  let receiver := if isBase then RBase s else RField o in
  let '(results, notFound) := ReflectCall E receiver tagSetter [CStr value] in
  let adopt (r : Value) : string :=
    let '(jv, _, err) := ReflectValueToString E r "" "" false false timeFormat false in
    if strict then match err with None => jv | Some _ => value end else jv in
  if negb notFound
  then
    match results with
    | [] => value
    | [r] => adopt r
    | r :: _ =>
        match asError (List.last results r) with
        | Some _ => value
        | None => adopt r
        end
    end
  else value.

(** The setter call on a field of pointer, interface, struct or slice kind:
    a nil pointer or nil interface is first given a fresh object, then the
    setter's first result replaces the field when it is a pointer or a slice.
    [inr] is the early error return. *)
Definition setterOnReference (s : Struct) (i : nat) (field : Field) (o : Value)
    (isBase : bool) (tagSetter value : string) : Struct + Error :=
  let prepared : Value + Error :=
    if negb (Kind_eqb (kindOf o) KSlice)
    then
      let '(baseType, _, isNilPtr) := DerefPointersZero E o in
      if isNilPtr then inl (SetValue o (New baseType))
      else
        if Kind_eqb (kindOf o) KInterface && negb (isSome (Interface o))
        then
          match ReflectTypeRegistryGet E (typeString o) with
          | None =>
              inr (Errorf "%s Struct Field %s is Interface Without Actual Object Assignment"
                     [AStr (TypeName s); AStr (typeString o)])
          | Some customType => inl (SetValue o (New customType))
          end
        else inl o
    else inl o in
  match prepared with
  | inr e => inr e
  | inl o =>
      let s := setField s i field o in
      let receiver := if isBase then RBase s else RField o in
      let '(ov, notFound) := ReflectCall E receiver tagSetter [CStr value] in
      let store (r : Value) : Struct :=
        match kindOf r with
        | KPtr | KSlice => setField s i field (SetValue o r)
        | _ => s
        end in
      if negb notFound
      then
        match ov with
        | [] => inl s
        | [r] => inl (store r)
        | r :: _ =>
            match DerefError E (List.last ov r) with
            | Some _ => inl s
            | None => inl (store r)
            end
        end
      else inl s
  end.

(** *** UnmarshalJsonToStruct *)

(** The literal normalisation of the JSON reader: with a blank [booltrue]
    and an output prefix, the prefix alone means "true"; otherwise a text
    equal to the [booltrue] ([boolfalse]) literal becomes "true" ("false"). *)
Definition jsonBoolLiteral (field : Field) (jValue : string) : string :=
  let outPrefix := Get field "outprefix" in
  let boolTrue := Get field "booltrue" in
  let boolFalse := Get field "boolfalse" in
  if String.eqb boolTrue " " && (0 <? len outPrefix)%nat
     && String.eqb jValue outPrefix
  then "true"
  else
    if (0 <? LenTrim boolTrue)%nat && (0 <? len jValue)%nat
       && String.eqb boolTrue jValue
    then "true"
    else
      if (0 <? LenTrim boolFalse)%nat && (0 <? len jValue)%nat
         && String.eqb boolFalse jValue
      then "false"
      else jValue.

(** One turn of the field loop. *)
Definition jsonUnmarshalField (jsonMap : gmap string string)
    (tagName excludeTagName : string)
    (_ : unit) (s : Struct) (i : nat) (field : Field) : Outcome unit :=
  if CanSet field
  then
    let o := Val field in
    let jName := Trim (Get field tagName) in
    if String.eqb jName "-" then Next tt s
    else if excludedBy field excludeTagName then Next tt s
    else
      let jName := if (LenTrim jName =? 0)%nat then Name field else jName in
      let timeFormat := Trim (Get field "timeformat") in
      match jsonMap !! jName with
      | None => Next tt s
      | Some jRaw =>
          let jValue := JsonFromEscaped E jRaw in
          let tagSetter := Trim (Get field "setter") in
          let parse (jValue : string) : Outcome unit :=
            let jValue := jsonBoolLiteral field jValue in
            let '(o', err) := ReflectStringToField E o jValue timeFormat in
            match err with
            | Some e => Return (Some (Foreign e)) (setField s i field o')
            | None => Next tt (setField s i field o')
            end in
          if (0 <? len jValue)%nat && (0 <? len tagSetter)%nat
          then
            let '(isBase, tagSetter) := splitSetter tagSetter in
            if negb (isReferenceKind o)
            then parse (setterText s o isBase tagSetter jValue timeFormat true)
            else
              match setterOnReference s i field o isBase tagSetter jValue with
              | inr e => Return (Some e) s
              | inl s' => Next tt s'
              end
          else parse jValue
      end
  else Next tt s.

Definition UnmarshalJsonToStruct (inp : Input)
    (jsonPayload tagName excludeTagName : string) : option Error * Input :=
  match inp with
  | InNil => (Some (Errorf "InputStructPtr is Required" []), inp)
  | _ =>
      if (LenTrim jsonPayload =? 0)%nat
      then (Some (Errorf "JsonPayload is Required" []), inp)
      else if (LenTrim tagName =? 0)%nat
      then (Some (Errorf "TagName is Required" []), inp)
      else
        match inp with
        | InNil | InNotPtr _ =>
            (Some (Errorf "InputStructPtr Must Be Pointer" []), inp)
        | InPtrOther _ =>
            (Some (Errorf "InputStructPtr Must Be Struct" []), inp)
        | InPtr s =>
            match json_Unmarshal E jsonPayload with
            | JsonError err =>
                (Some (Errorf "Unmarshal Json Failed: %s" [AStr err]), inp)
            | JsonNil => (Some (Errorf "Unmarshaled Json Map is Nil" []), inp)
            | JsonMap jsonMap =>
                if (size jsonMap =? 0)%nat
                then (Some (Errorf "Unmarshaled Json Map Has No Elements" []), inp)
                else
                  let s := applyDefaults (clearFields s) in
                  let '(e, s') :=
                    fieldLoop (jsonUnmarshalField jsonMap tagName excludeTagName)
                      (length (Fields s)) 0 tt s in
                  (e, InPtr s')
            end
        end
  end.

(** *** Pieces shared by the two CSV functions *)

(** The [type] tag, reduced to the recognised kinds ("" otherwise); a [regex]
    kind without a pattern counts as no kind. *)
Definition tagTypeOf (field : Field) : string :=
  let tagType := Trim (ToLower (Get field "type")) in
  let tagType :=
    if StringSliceContains ["a"; "n"; "an"; "ans"; "b"; "b64"; "regex"; "h"] tagType
    then tagType else "" in
  if String.eqb tagType "regex"
  then if (LenTrim (Trim (Get field "regex")) =? 0)%nat then "" else tagType
  else tagType.

Definition tagRegExOf (field : Field) : string :=
  let tagType := Trim (ToLower (Get field "type")) in
  if String.eqb tagType "regex" then Trim (Get field "regex") else "".

(** The [size] tag: minimum, maximum and modulo. *)
Definition parseSize (field : Field) : Z * Z * Z :=
  let tagSize := Trim (ToLower (Get field "size")) in
  let arModulo := Split tagSize "+%" in
  let '(tagSize, tagModulo) :=
    match arModulo with
    | [a0; a1] =>
        let m := fst (ParseInt32 E a1) in
        (a0, if m <? 0 then 0 else m)
    | _ => (tagSize, 0)
    end in
  let arSize := Split tagSize ".." in
  match arSize with
  | [a0; a1] => (fst (ParseInt32 E a0), fst (ParseInt32 E a1), tagModulo)
  | _ => (fst (ParseInt32 E tagSize), fst (ParseInt32 E tagSize), tagModulo)
  end.

(** The [range] tag: minimum and maximum. *)
Definition parseRange (field : Field) : Z * Z :=
  let tagRange := Trim (ToLower (Get field "range")) in
  let arRange := Split tagRange ".." in
  match arRange with
  | [a0; a1] => (fst (ParseInt32 E a0), fst (ParseInt32 E a1))
  | _ => (fst (ParseInt32 E tagRange), fst (ParseInt32 E tagRange))
  end.

Definition tagReqOf (field : Field) : string :=
  let tagReq := Trim (ToLower (Get field "req")) in
  if negb (String.eqb tagReq "true") && negb (String.eqb tagReq "false")
  then "" else tagReq.

Definition trueList : list string := ["true"; "yes"; "on"; "1"; "enabled"].

(** The kinds whose text is subject to the size rules. *)
Definition isSizedType (tagType : string) : bool :=
  StringSliceContains ["a"; "an"; "ans"; "n"; "regex"; "h"; "b64"] tagType.

Definition Qlt_bool (a b : Q) : bool := negb (Qle_bool b a).

(** The comparison validations [==], [!=], [<=], [<<], [>=], [>>] on a text:
    [None] when the text passes, else the error and whether the single-value
    form produced it. *)
Definition compareValidation (field : Field) (valComp valData text tagReq : string)
  : option (Error * bool) :=
  let enforced := (0 <? len text)%nat || String.eqb tagReq "true" in
  let name := AStr (Name field) in
  let numeric (violated : Q -> Q -> bool) (format : string) :=
    let '(valNum, valOk) := ParseFloat64 E valData in
    if valOk
    then
      let srcNum := fst (ParseFloat64 E text) in
      if violated srcNum valNum && enforced
      then Some (Errorf format [name; AStr valData; AStr text], true)
      else None
    else None in
  if String.eqb valComp "=="
  then
    let valAr := Split valData "||" in
    if (length valAr <=? 1)%nat
    then
      if negb (String.eqb (ToLower text) (ToLower valData)) && enforced
      then Some (Errorf "%s Validation Failed: Expected To Match '%s', But Received '%s'"
                   [name; AStr valData; AStr text], true)
      else None
    else
      let found := existsb (fun va => String.eqb (ToLower text) (ToLower va)) valAr in
      if negb found && enforced
      then Some (Errorf "%s Validation Failed: Expected To Match '%s', But Received '%s'"
                   [name; AStr (String.concat " or " valAr); AStr text], false)
      else None
  else if String.eqb valComp "!="
  then
    let valAr := Split valData "&&" in
    if (length valAr <=? 1)%nat
    then
      if String.eqb (ToLower text) (ToLower valData) && enforced
      then Some (Errorf "%s Validation Failed: Expected To Not Match '%s', But Received '%s'"
                   [name; AStr valData; AStr text], true)
      else None
    else
      let found := existsb (fun va => String.eqb (ToLower text) (ToLower va)) valAr in
      if found && enforced
      then Some (Errorf "%s Validation Failed: Expected To Not Match '%s', But Received '%s'"
                   [name; AStr (String.concat " and " valAr); AStr text], false)
      else None
  else if String.eqb valComp "<="
  then numeric (fun src val => Qlt_bool val src)
         "%s Validation Failed: Expected To Be Less or Equal To '%s', But Received '%s'"
  else if String.eqb valComp "<<"
  then numeric (fun src val => Qle_bool val src)
         "%s Validation Failed: Expected To Be Less Than '%s', But Received '%s'"
  else if String.eqb valComp ">="
  then numeric (fun src val => Qlt_bool src val)
         "%s Validation Failed: Expected To Be Greater or Equal To '%s', But Received '%s'"
  else if String.eqb valComp ">>"
  then numeric (fun src val => Qle_bool src val)
         "%s Validation Failed: Expected To Be Greater Than '%s', But Received '%s'"
  else None.

(** The [:=] validation: the named validator is called on the struct; a
    [false] or an error in its first result fails the validation. *)
Definition validatorCall (s : Struct) (field : Field) (valData : string)
  : option Error :=
  let '(retV, nf) := ReflectCall E (RBase s) valData [] in
  if negb nf
  then
    match retV with
    | r :: _ =>
        match r with
        | VBool false =>
            Some (Errorf "%s Validation Failed: %s() Returned Result is False"
                    [AStr (Name field); AStr valData])
        | _ =>
            match DerefError E r with
            | Some retErr =>
                Some (Errorf "%s Validation On %s() Failed: %s"
                        [AStr (Name field); AStr valData; AStr retErr])
            | None => None
            end
        end
    | [] => None
    end
  else None.

(** The literal normalisation of the CSV reader: a token equal to the trimmed
    [booltrue] ([boolfalse]) literal becomes "true" ("false"). *)
Definition csvBoolLiteral (field : Field) (csvValue : string) : string :=
  let boolTrue := Trim (Get field "booltrue") in
  if (0 <? len boolTrue)%nat && String.eqb boolTrue csvValue then "true"
  else
    let boolFalse := Trim (Get field "boolfalse") in
    if (0 <? len boolFalse)%nat && String.eqb boolFalse csvValue then "false"
    else csvValue.

(** *** UnmarshalCSVToStruct *)

(** The scan of the tokens for the one carrying the field's prefix. *)
Fixpoint prefixScan (field : Field) (outPrefix : string) (tagPos : Z)
    (csvElements : list string) (prefixProcessedMap : gmap string string)
  : option (string * gmap string string) :=
  match csvElements with
  | [] => None
  | v :: rest =>
      if String.eqb (ToLower (Left v (len outPrefix))) (ToLower outPrefix)
      then
        match prefixProcessedMap !! ToLower outPrefix with
        | None =>
            let m := <[ToLower outPrefix := Itoa E tagPos]> prefixProcessedMap in
            if (len v - len outPrefix =? 0)%nat
            then (if String.eqb (Get field "booltrue") " "
                  then Some ("true", m) else Some ("", m))
            else Some (csvBoolLiteral field (Right v (len v - len outPrefix)), m)
        | Some _ => prefixScan field outPrefix tagPos rest prefixProcessedMap
        end
      else prefixScan field outPrefix tagPos rest prefixProcessedMap
  end.

(** The kind filter of the reader. *)
Definition csvReadFilter (tagType tagRegEx : string) (hasSetter : bool)
    (csvValue : string) : string :=
  if String.eqb tagType "a" then ExtractAlpha E csvValue
  else if String.eqb tagType "n" then ExtractNumeric E csvValue
  else if String.eqb tagType "an" then ExtractAlphaNumeric E csvValue
  else if String.eqb tagType "ans"
  then if negb hasSetter then ExtractAlphaNumericPrintableSymbols E csvValue
       else csvValue
  else if String.eqb tagType "b"
  then if StringSliceContains trueList (ToLower csvValue) then "true" else "false"
  else if String.eqb tagType "regex" then ExtractByRegex E csvValue tagRegEx
  else if String.eqb tagType "h" then ExtractHex E csvValue
  else if String.eqb tagType "b64" then ExtractAlphaNumericPrintableSymbols E csvValue
  else csvValue.

(** The size rules of the reader: cut to the maximum, then the modulo. *)
Definition csvReadSize (field : Field) (tagType : string) (sizeMax tagModulo : Z)
    (csvValue : string) : string + Error :=
  if isSizedType tagType
  then
    let csvValue :=
      if (0 <? sizeMax) && (sizeMax <? Z.of_nat (len csvValue))
      then Left csvValue (Z.to_nat sizeMax) else csvValue in
    if (0 <? tagModulo) && negb (Z.of_nat (len csvValue) mod tagModulo =? 0)
    then inr (Errorf "Struct Field %s Expects Value In Blocks of %d Characters"
                [AStr (Name field); AInt tagModulo])
    else inl csvValue
  else inl csvValue.

(** One turn of the field loop; the loop state is [prefixProcessedMap]. *)
Definition csvUnmarshalField (csvElements : list string)
    (prefixProcessedMap : gmap string string) (s : Struct) (i : nat)
    (field : Field) : Outcome (gmap string string) :=
  let continue := Next prefixProcessedMap s in
  if CanSet field
  then
    let o := Val field in
    let csvLen := Z.of_nat (length csvElements) in
    let tagPosBuf := Get field "pos" in
    let '(tagPos, ok) := ParseInt32 E tagPosBuf in
    if (if negb ok
        then negb (String.eqb tagPosBuf "-") || (LenTrim (Get field "setter") =? 0)%nat
        else tagPos <? 0)
    then continue
    else
      let tagType := tagTypeOf field in
      let tagRegEx := tagRegExOf field in
      let '(_, sizeMax, tagModulo) := parseSize field in
      let tagReq := tagReqOf field in
      let outPrefix := Trim (Get field "outprefix") in
      (* the token of the field: [inl] the text and the prefix map, [inr] the
         way the turn ends without one *)
      let token : (string * gmap string string) + Outcome (gmap string string) :=
        if negb (String.eqb tagPosBuf "-")
        then
          if (LenTrim outPrefix =? 0)%nat
          then
            if csvLen - 1 <? tagPos
            then inr (Return None s)
            else
              match csvElements !! Z.to_nat tagPos with
              | Some v => inl (csvBoolLiteral field v, prefixProcessedMap)
              | None => inr (Return None s)
              end
          else
            match prefixScan field outPrefix tagPos csvElements prefixProcessedMap with
            | Some found => inl found
            | None => inr continue
            end
        else inl ("", prefixProcessedMap) in
      match token with
      | inr out => out
      | inl (csvValue, prefixProcessedMap) =>
          let tagSetter := Trim (Get field "setter") in
          let hasSetter := (0 <? LenTrim tagSetter)%nat in
          let '(isBase, tagSetter) :=
            if hasSetter then splitSetter tagSetter else (false, tagSetter) in
          let timeFormat := Trim (Get field "timeformat") in
          let store (s : Struct) (o : Value) (csvValue : string)
            : Outcome (gmap string string) :=
            let '(o', err) := ReflectStringToField E o csvValue timeFormat in
            match err with
            | Some e => Return (Some (Foreign e)) (setField s i field o')
            | None => Next prefixProcessedMap (setField s i field o')
            end in
          if negb (isReferenceKind o)
          then
            let sized : string + Error :=
              if negb (String.eqb tagPosBuf "-")
              then csvReadSize field tagType sizeMax tagModulo
                     (csvReadFilter tagType tagRegEx hasSetter csvValue)
              else inl csvValue in
            match sized with
            | inr e => Return (Some e) s
            | inl csvValue =>
                let csvValue :=
                  if (0 <? LenTrim tagSetter)%nat
                  then setterText s o isBase tagSetter csvValue timeFormat false
                  else csvValue in
                let valData := Trim (Get field "validate") in
                if (3 <=? len valData)%nat
                then
                  let valComp := Left valData 2 in
                  let valData := Right valData (len valData - 2) in
                  if String.eqb valComp ":="
                  then
                    if (0 <? len valData)%nat
                    then
                      let '(o', err) := ReflectStringToField E o csvValue timeFormat in
                      match err with
                      | Some e => Return (Some (Foreign e)) (setField s i field o')
                      | None =>
                          let s := setField s i field o' in
                          match validatorCall s field valData with
                          | Some e => Return (Some e) (clearFields s)
                          | None => Next prefixProcessedMap s
                          end
                      end
                    else store s o csvValue
                  else
                    match compareValidation field valComp valData csvValue tagReq with
                    | Some (e, true) => Return (Some e) (clearFields s)
                    | Some (e, false) => Return (Some e) s
                    | None => store s o csvValue
                    end
                else store s o csvValue
            end
          else
            if (0 <? LenTrim tagSetter)%nat
            then
              match setterOnReference s i field o isBase tagSetter csvValue with
              | inr e => Return (Some e) s
              | inl s' => Next prefixProcessedMap s'
              end
            else store s o csvValue
      end
  else continue.

(** The tokens of the payload: split at the delimiter when there is one,
    else by the caller's parser. *)
Definition splitPayload (csvPayload csvDelimiter : string)
    (customDelimiterParserFunc : option (string -> list string)) : list string :=
  if (0 <? len csvDelimiter)%nat then Split csvPayload csvDelimiter
  else match customDelimiterParserFunc with
       | Some f => f csvPayload
       | None => []
       end.

Definition UnmarshalCSVToStruct (inp : Input) (csvPayload csvDelimiter : string)
    (customDelimiterParserFunc : option (string -> list string))
  : option Error * Input :=
  match inp with
  | InNil => (Some (Errorf "InputStructPtr is Required" []), inp)
  | _ =>
      if (LenTrim csvPayload =? 0)%nat
      then (Some (Errorf "CSV Payload is Required" []), inp)
      else if (len csvDelimiter =? 0)%nat && negb (isSome customDelimiterParserFunc)
      then (Some (Errorf "CSV Delimiter or Custom Delimiter Func is Required" []), inp)
      else
        match inp with
        | InNil | InNotPtr _ =>
            (Some (Errorf "InputStructPtr Must Be Pointer" []), inp)
        | InPtrOther _ =>
            (Some (Errorf "InputStructPtr Must Be Struct" []), inp)
        | InPtr s =>
            let csvElements :=
              splitPayload csvPayload csvDelimiter customDelimiterParserFunc in
            if (length csvElements =? 0)%nat
            then (Some (Errorf "CSV Payload Contains Zero Elements" []), inp)
            else
              let s := applyDefaults (clearFields s) in
              let '(e, s') :=
                fieldLoop (csvUnmarshalField csvElements)
                  (length (Fields s)) 0 ∅ s in
              (e, InPtr s')
        end
  end.

(** *** MarshalStructToCSV *)

(** What one turn of the marshal loop does: leave the slots alone, write
    one slot, or return; the first two go on with a claim map. *)
Inductive CsvTurn :=
| CsvSkip (uniqueMap : gmap string string)
| CsvWrite (tagPos : Z) (v : string) (uniqueMap : gmap string string)
| CsvReturn (csvPayload : string) (err : option Error).

(** The kind filter of the writer: [inl] the filtered text, [inr tt] when a
    [b] field with equal literals holds "false" and its slot is blanked. *)
Definition csvWriteFilter (tagType tagRegEx : string) (hasGetter : bool)
    (t : TagOptions) (fv : string) : string + unit :=
  if String.eqb tagType "a" then inl (ExtractAlpha E fv)
  else if String.eqb tagType "n" then inl (ExtractNumeric E fv)
  else if String.eqb tagType "an" then inl (ExtractAlphaNumeric E fv)
  else if String.eqb tagType "ans"
  then if negb hasGetter then inl (ExtractAlphaNumericPrintableSymbols E fv)
       else inl fv
  else if String.eqb tagType "b"
  then
    if (len (boolTrue t) =? 0)%nat && (len (boolFalse t) =? 0)%nat
    then if StringSliceContains trueList (ToLower fv) then inl "true" else inl "false"
    else
      if String.eqb (Trim (boolTrue t)) (Trim (boolFalse t)) && String.eqb fv "false"
      then inr tt
      else inl fv
  else if String.eqb tagType "regex" then inl (ExtractByRegex E fv tagRegEx)
  else if String.eqb tagType "h" then inl (ExtractHex E fv)
  else if String.eqb tagType "b64" then inl (ExtractAlphaNumericPrintableSymbols E fv)
  else inl fv.

(** The size rules of the writer: the minimum, the cut to the maximum, the
    modulo. *)
Definition csvWriteSize (field : Field) (tagType : string)
    (sizeMin sizeMax tagModulo : Z) (fv : string) : string + Error :=
  if isSizedType tagType
  then
    if (0 <? sizeMin) && (0 <? len fv)%nat && (Z.of_nat (len fv) <? sizeMin)
    then inr (Errorf "%s Min Length is %d" [AStr (Name field); AInt sizeMin])
    else
      let fv :=
        if (0 <? sizeMax) && (sizeMax <? Z.of_nat (len fv))
        then Left fv (Z.to_nat sizeMax) else fv in
      if (0 <? tagModulo) && negb (Z.of_nat (len fv) mod tagModulo =? 0)
      then inr (Errorf "Struct Field %s Expects Value In Blocks of %d Characters"
                  [AStr (Name field); AInt tagModulo])
      else inl fv
  else inl fv.

(** The range rule of the writer, for the numeric kind. *)
Definition csvWriteRange (field : Field) (tagType tagReq : string)
    (rangeMin rangeMax : Z) (fv : string) : option Error :=
  if String.eqb tagType "n"
  then
    let '(n, ok) := ParseInt32 E fv in
    if ok
    then
      if (0 <? rangeMin) && (n <? rangeMin)
         && negb ((n =? 0) && negb (String.eqb tagReq "true"))
      then Some (Errorf "%s Range Minimum is %d" [AStr (Name field); AInt rangeMin])
      else
        if (0 <? rangeMax) && (rangeMax <? n)
        then Some (Errorf "%s Range Maximum is %d" [AStr (Name field); AInt rangeMax])
        else None
    else None
  else None.

(** One turn of the field loop, as a function of [uniqueMap]; the only
    effect on [csvList] is the write of the field's slot. *)
Definition csvMarshalField (s : Struct) (csvLen : Z)
    (uniqueMap : gmap string string) (field : Field)
  : CsvTurn :=
  if CanSet field
  then
    let '(tagPos, ok) := ParseInt32 E (Get field "pos") in
    if negb ok || (tagPos <? 0) || (csvLen - 1 <? tagPos)
    then CsvSkip uniqueMap
    else
      match claimUniqueId field uniqueMap with
      | None => CsvSkip uniqueMap
      | Some uniqueMap =>
          let tagType := tagTypeOf field in
          let tagRegEx := tagRegExOf field in
          let '(sizeMin, sizeMax, tagModulo) := parseSize field in
          let '(rangeMin, rangeMax) := parseRange field in
          let tagReq := tagReqOf field in
          let t := readOptions7 field in
          let oldVal := Val field in
          let '(o, hasGetter) := applyGetter s field t in
          let '(fv, skip, e) := render o t in
          match e with
          | Some e => CsvReturn "" (Some (Foreign e))
          | None =>
              if skip then CsvSkip (releaseUniqueId field uniqueMap)
              else
                let defVal := Get field "def" in
                match unknownEnum field oldVal fv defVal uniqueMap with
                | (None, uniqueMap) => CsvSkip uniqueMap
                | (Some fv, uniqueMap) =>
                    (* the checks on the text: [inl] the text to store,
                       [inr] the way the turn ends *)
                    let checked : string + CsvTurn :=
                      if negb (Kind_eqb (kindOf oldVal) KSlice)
                      then
                        let origFv := fv in
                        match csvWriteFilter tagType tagRegEx hasGetter t fv with
                        | inr _ => inr (CsvWrite tagPos "" uniqueMap)
                        | inl fv =>
                            if String.eqb (boolFalse t) " " && String.eqb origFv "false"
                               && (0 <? len (outPrefix t))%nat
                            then inr (CsvWrite tagPos "" uniqueMap)
                            else
                              let fv :=
                                if (len fv =? 0)%nat && (0 <? len defVal)%nat
                                then defVal else fv in
                              match csvWriteSize field tagType sizeMin sizeMax tagModulo fv with
                              | inr e => inr (CsvReturn "" (Some e))
                              | inl fv =>
                                  match csvWriteRange field tagType tagReq rangeMin rangeMax fv with
                                  | Some e => inr (CsvReturn "" (Some e))
                                  | None =>
                                      if String.eqb tagReq "true" && (len fv =? 0)%nat
                                      then inr (CsvReturn ""
                                                  (Some (Errorf "%s is a Required Field"
                                                           [AStr (Name field)])))
                                      else inl fv
                                  end
                              end
                        end
                      else inl fv in
                    match checked with
                    | inr out => out
                    | inl fv =>
                        let valData := Trim (Get field "validate") in
                        let failure : option Error :=
                          if (3 <=? len valData)%nat
                          then
                            let valComp := Left valData 2 in
                            let valData := Right valData (len valData - 2) in
                            if String.eqb valComp ":="
                            then
                              if (0 <? len valData)%nat
                              then validatorCall s field valData else None
                            else fst <$> compareValidation field valComp valData fv tagReq
                          else None in
                        match failure with
                        | Some e => CsvReturn "" (Some e)
                        | None =>
                            let v :=
                              if skipBlank t && (LenTrim fv =? 0)%nat then ""
                              else if skipZero t && String.eqb fv "0" then ""
                              else outPrefix t +:+ fv in
                            CsvWrite tagPos v uniqueMap
                        end
                    end
                end
          end
      end
  else CsvSkip uniqueMap.

Fixpoint csvMarshalLoop (s : Struct) (csvLen : Z) (fields : list Field)
    (csvList : list string) (uniqueMap : gmap string string)
  : list string + (string * option Error) :=
  match fields with
  | [] => inl csvList
  | field :: rest =>
      match csvMarshalField s csvLen uniqueMap field with
      | CsvSkip uniqueMap => csvMarshalLoop s csvLen rest csvList uniqueMap
      | CsvWrite tagPos v uniqueMap =>
          csvMarshalLoop s csvLen rest (<[Z.to_nat tagPos := v]> csvList) uniqueMap
      | CsvReturn p e => inr (p, e)
      end
  end.

(** The final join: slots still holding the marker are left out, and the
    delimiter is written only once the payload is no longer blank. *)
Definition csvJoin (csvDelimiter : string) (csvList : list string) : string :=
  fold_left
    (fun csvPayload v =>
       if negb (String.eqb v "{?}")
       then
         (if (0 <? LenTrim csvPayload)%nat then csvPayload +:+ csvDelimiter
          else csvPayload) +:+ v
       else csvPayload)
    csvList "".

Definition MarshalStructToCSV (inp : Input) (csvDelimiter : string)
  : string * option Error :=
  match inp with
  | InNil => ("", Some (Errorf "InputStructPtr is Required" []))
  | InNotPtr _ => ("", Some (Errorf "InputStructPtr Must Be Pointer" []))
  | InPtrOther _ => ("", Some (Errorf "InputStructPtr Must Be Struct" []))
  | InPtr s =>
      if negb (IsStructFieldSet inp) && (0 <? StructNonDefaultRequiredFieldsCount inp)
      then ("", None)
      else
        let csvList := replicate (length (Fields s)) "{?}" in
        let csvLen := Z.of_nat (length csvList) in
        match csvMarshalLoop s csvLen (Fields s) csvList ∅ with
        | inr r => r
        | inl csvList => (csvJoin csvDelimiter csvList, None)
        end
  end.

End Engine.

Arguments Next {A} a s.
Arguments Return {A} e s.

(** ** Further functions of the package *)

(** *** MarshalSliceStructToJson *)

(** The errors of the slice marshalers: a [fmt.Errorf] of a fixed text, or
    one whose [%s] argument is the error of an element. *)
Inductive SliceError :=
| Fixed (format : string)
| Wrapped (format : string) (cause : Error).

Section Slices.

Variable E : Env.

(** [for _, v := range inputSliceStructPtr]: [inr] is the error of the first
    element that fails to marshal. *)
Fixpoint marshalSliceLoop (items : list Input) (tagName excludeTagName : string)
    (jsonArrayOutput : string) : string + Error :=
  match items with
  | [] => inl jsonArrayOutput
  | v :: rest =>
      match MarshalStructToJson E v tagName excludeTagName with
      | (_, Some e) => inr e
      | (s, None) =>
          let jsonArrayOutput :=
            if (0 <? LenTrim jsonArrayOutput)%nat
            then jsonArrayOutput +:+ ", " else jsonArrayOutput in
          marshalSliceLoop rest tagName excludeTagName (jsonArrayOutput +:+ s)
      end
  end.

Definition MarshalSliceStructToJson (inputSliceStructPtr : list Input)
    (tagName excludeTagName : string) : string * option SliceError :=
  if (length inputSliceStructPtr =? 0)%nat
  then ("", Some (Fixed "Input Slice Struct Pointer Nil"))
  else
    match marshalSliceLoop inputSliceStructPtr tagName excludeTagName "" with
    | inr e => ("", Some (Wrapped "MarshalSliceStructToJson Failed: %s" e))
    | inl jsonArrayOutput =>
        if (0 <? LenTrim jsonArrayOutput)%nat
        then ("[" +:+ jsonArrayOutput +:+ "]", None)
        else ("", Some (Fixed "MarshalSliceStructToJson Yielded Blank String"))
    end.

End Slices.

(** *** Fill *)

(** A call returns, or panics. *)
Inductive Run (A : Type) :=
| Panics
| Returns (a : A).
Arguments Panics {A}.
Arguments Returns {A} a.


Section Copy.

(** [dstField.Set(x)] on a field that can be set: [None] when the type of
    [x] is not assignable to the type of the field (the call panics), else
    the value the field holds afterwards.  A field of [dst] that can be set
    is exported, and so is the field of [src] of the same name, so the value
    read from it may be stored. *)
Variable Assign : Value -> Value -> option Value.

(** Whether the field of [dst] with this name is an embedded one
    ([reflect.StructField.Anonymous]).  This belongs to the type of [dst],
    which no step of [Fill] changes; the record [Field] does not carry it. *)
Variable Embedded : string -> bool.

(** What [reflect] does with a name that no top-level field of [dst] bears
    when [dst] has embedded fields: the breadth-first search of the embedded
    structs for a promoted field of that name, the walk to it (which panics
    on a nil embedded pointer) and, when the field found can be set, the
    [Set] of the value of the field of [src] (which panics when the value is
    not assignable).  The result is [dst] after the step.  None of this is
    code of the package. *)
Variable Promoted : Struct -> Field -> Run Struct.





End Copy.

(** *** The helpers of [helper-net.go] *)

(** [strings.ReplaceAll s old new] for a non-empty [old]: [skip] counts the
    bytes of an occurrence just replaced that are still to be passed over. *)
Fixpoint replace_from (old new : string) (skip : nat) (s : string) : string :=
  match s with
  | EmptyString => EmptyString
  | String c s' =>
      match skip with
      | S k => replace_from old new k s'
      | O =>
          if String.prefix old s
          then new +:+ replace_from old new (len old - 1) s'
          else String c (replace_from old new 0 s')
      end
  end.

(** With an empty [old] Go puts [new] before every character and at the end;
    no caller in this package passes one. *)
Definition ReplaceAll (s old new : string) : string :=
  match old with
  | EmptyString =>
      String.concat "" ((fun c => new +:+ String c EmptyString) <$> list_ascii_of_string s)
      +:+ new
  | _ => replace_from old new 0 s
  end.

(** [ParseHostFromURL].  The test [len(parts) >= 0] always holds; indexing an
    empty [parts] would panic. *)
Definition ParseHostFromURL (url : string) : Run string :=
  let parts :=
    Split (ReplaceAll (ReplaceAll (ToLower url) "https://" "") "http://" "") "/" in
  if (0 <=? length parts)%nat
  then match parts with
       | p :: _ => Returns p
       | [] => Panics
       end
  else Returns "".

(** What [helper-net.go] calls but does not define: the package's
    conversions of floats and of the [sql.Null...] types, [time.Time.String],
    [ParseDateTime], the decoding of a JSON array of strings ([inr] is the
    message of the error), and [rest.POST] with no header and an empty body,
    which answers with a status code, a body and possibly an error. *)
Record NetEnv := mkNetEnv {
  FloatToString : Q -> string;
  FromNullString : string -> bool -> string;
  FromNullBool : bool -> bool -> bool;
  FromNullFloat64 : Q -> bool -> Q;
  FromNullInt : Z -> bool -> Z;
  FromNullInt64 : Z -> bool -> Z;
  FromNullTime : Time -> bool -> Time;
  TimeString : Time -> string;
  ParseDateTime : string -> Time;
  json_UnmarshalStrings : string -> list string + string;
  POST : string -> Z * string * option string
}.

Section Net.

Variable E : Env.
Variable N : NetEnv.

(** The loop over the error codes of [VerifyGoogleReCAPTCHAv2]. *)
Definition joinErrorCodes (s : list string) : string :=
  fold_left
    (fun buf v =>
       if (0 <? LenTrim v)%nat
       then (if (0 <? LenTrim buf)%nat then buf +:+ ", " else buf) +:+ v
       else buf)
    s "".

(** [VerifyGoogleReCAPTCHAv2]: [success], [challengeTs], [hostName], [err]. *)
Definition VerifyGoogleReCAPTCHAv2 (response secret : string)
  : bool * Time * string * option Error :=
  if (LenTrim response =? 0)%nat
  then (false, 0, "", Some (Errorf "ReCAPTCHA Response From CLient is Required" []))
  else if (LenTrim secret =? 0)%nat
  then (false, 0, "", Some (Errorf "ReCAPTCHA Secret Key is Required" []))
  else
    let u := "https://www.google.com/recaptcha/api/siteverify?secret="
             +:+ PathEscape E secret +:+ "&response=" +:+ PathEscape E response in
    let '(statusCode, responseBody, e) := POST N u in
    match e with
    | Some e => (false, 0, "", Some (Errorf "ReCAPTCHA Service Failed: %s" [AStr e]))
    | None =>
        if negb (statusCode =? 200)
        then (false, 0, "",
              Some (Errorf "ReCAPTCHA Service Failed: Status Code %d" [AInt statusCode]))
        else
          match json_Unmarshal E responseBody with
          | JsonError err =>
              (false, 0, "",
               Some (Errorf "ReCAPTCHA Service Response Failed: (Parse Json Response Error) %s"
                       [AStr err]))
          | JsonNil =>
              (false, 0, "",
               Some (Errorf "ReCAPTCHA Service Response Failed: %s"
                       [AStr "Json Response Map Nil"]))
          | JsonMap m =>
              let raw (key : string) : string := default "" (m !! key) in
              let success := String.eqb (ToLower (raw "success")) "true" in
              let challengeTs := ParseDateTime N (raw "challenge_ts") in
              let hostName := raw "hostname" in
              let err :=
                if negb success
                then
                  match json_UnmarshalStrings N (raw "error-codes") with
                  | inr err =>
                      Some (Errorf "Parse ReCAPTCHA Verify Errors Failed: %s" [AStr err])
                  | inl s =>
                      Some (Errorf "ReCAPTCHA Verify Errors: %s" [AStr (joinErrorCodes s)])
                  end
                else None in
              (success, challengeTs, hostName, err)
          end
    end.

(** The switch of [StructToQueryParams] and [StructToJson] on the kind of the
    field (the two functions run the same one): [Returns None] when the loop
    goes on with the next field, [Panics] when [o.Interface()] is asked of a
    field that is not exported. *)
Definition netFieldText (field : Field) : Run (option string) :=
  match Val field with
  | VString s => Returns (Some s)
  | VBool b => Returns (Some (if b then "true" else "false"))
  | VInt _ n => Returns (Some (Int64ToString E n))
  | VFloat _ q => Returns (Some (FloatToString N q))
  | VUint _ n => Returns (Some (UInt64ToString E n))
  | o =>
      if CanSet field
      then
        match Interface o with
        | Some (VNullString s valid) => Returns (Some (FromNullString N s valid))
        | Some (VNullBool b valid) =>
            Returns (Some (if FromNullBool N b valid then "true" else "false"))
        | Some (VNullFloat64 q valid) =>
            Returns (Some (FloatToString N (FromNullFloat64 N q valid)))
        | Some (VNullInt32 n valid) => Returns (Some (Itoa E (FromNullInt N n valid)))
        | Some (VNullInt64 n valid) =>
            Returns (Some (Int64ToString E (FromNullInt64 N n valid)))
        | Some (VNullTime t valid) => Returns (Some (TimeString N (FromNullTime N t valid)))
        | Some (VTime t) => Returns (Some (TimeString N t))
        | _ => Returns None
        end
      else Panics
  end.

(** The exclusion test of the two functions (the tag value is not trimmed). *)
Definition netExcluded (field : Field) (excludeTagName : string) : bool :=
  (0 <? LenTrim excludeTagName)%nat && String.eqb (Get field excludeTagName) "-".

Fixpoint structToQueryParamsLoop (fields : list Field)
    (tagName excludeTagName output : string) : Run string :=
  match fields with
  | [] => Returns output
  | field :: rest =>
      let tag := Get field tagName in
      if (0 <? LenTrim tag)%nat
      then
        if netExcluded field excludeTagName
        then structToQueryParamsLoop rest tagName excludeTagName output
        else
          match netFieldText field with
          | Panics => Panics
          | Returns None => structToQueryParamsLoop rest tagName excludeTagName output
          | Returns (Some buf) =>
              let output :=
                if (0 <? LenTrim output)%nat then output +:+ "&" else output in
              structToQueryParamsLoop rest tagName excludeTagName
                (output +:+ tag +:+ "=" +:+ PathEscape E buf)
          end
      else structToQueryParamsLoop rest tagName excludeTagName output
  end.

(** [StructToQueryParams].  [reflect.ValueOf(inputStructPtr).Elem()] panics
    when the input is not a pointer. *)
Definition StructToQueryParams (inp : Input) (tagName excludeTagName : string)
  : Run (string * option Error) :=
  match inp with
  | InNil =>
      Returns ("", Some (Errorf "StructToQueryParams Require Input Struct Variable Pointer" []))
  | _ =>
      if (LenTrim tagName =? 0)%nat
      then Returns ("", Some (Errorf "StructToQueryParams Require TagName (Tag Name defines query parameter name)" []))
      else
        match inp with
        | InNil | InNotPtr _ => Panics
        | InPtrOther _ =>
            Returns ("", Some (Errorf "StructToQueryParams Require Struct Object" []))
        | InPtr s =>
            match structToQueryParamsLoop (Fields s) tagName excludeTagName "" with
            | Panics => Panics
            | Returns output =>
                if (LenTrim output =? 0)%nat
                then Returns ("", Some (Errorf "StructToQueryParameters Yielded Blank Output" []))
                else Returns (output, None)
            end
        end
  end.

Fixpoint structToJsonLoop (fields : list Field)
    (tagName excludeTagName output : string) : Run string :=
  match fields with
  | [] => Returns output
  | field :: rest =>
      let tag := Get field tagName in
      if (0 <? LenTrim tag)%nat
      then
        if netExcluded field excludeTagName
        then structToJsonLoop rest tagName excludeTagName output
        else
          match netFieldText field with
          | Panics => Panics
          | Returns None => structToJsonLoop rest tagName excludeTagName output
          | Returns (Some buf) =>
              let buf := replaceChar (ascii_of_nat 34) (backslash +:+ dquote) buf in
              let buf := replaceChar "'"%char (backslash +:+ "'") buf in
              let output :=
                if (0 <? LenTrim output)%nat then output +:+ ", " else output in
              structToJsonLoop rest tagName excludeTagName
                (output +:+ dquote +:+ tag +:+ dquote +:+ ":" +:+ dquote
                   +:+ JsonToEscaped E buf +:+ dquote)
          end
      else structToJsonLoop rest tagName excludeTagName output
  end.

Definition StructToJson (inp : Input) (tagName excludeTagName : string)
  : Run (string * option Error) :=
  match inp with
  | InNil =>
      Returns ("", Some (Errorf "StructToJson Require Input Struct Variable Pointer" []))
  | _ =>
      if (LenTrim tagName =? 0)%nat
      then Returns ("", Some (Errorf "StructToJson Require TagName (Tag Name defines Json name)" []))
      else
        match inp with
        | InNil | InNotPtr _ => Panics
        | InPtrOther _ =>
            Returns ("", Some (Errorf "StructToJson Require Struct Object" []))
        | InPtr s =>
            match structToJsonLoop (Fields s) tagName excludeTagName "" with
            | Panics => Panics
            | Returns output =>
                if (LenTrim output =? 0)%nat
                then Returns ("", Some (Errorf "StructToJson Yielded Blank Output" []))
                else Returns ("{" +:+ output +:+ "}", None)
            end
        end
  end.

(** [for _, v := range inputSliceStructPtr] of [SliceStructToJson]: [inr]
    is the error of the first element that fails. *)
Fixpoint sliceStructLoop (items : list Input) (tagName excludeTagName : string)
    (jsonArrayOutput : string) : Run (string + Error) :=
  match items with
  | [] => Returns (inl jsonArrayOutput)
  | v :: rest =>
      match StructToJson v tagName excludeTagName with
      | Panics => Panics
      | Returns (_, Some e) => Returns (inr e)
      | Returns (s, None) =>
          let jsonArrayOutput :=
            if (0 <? LenTrim jsonArrayOutput)%nat
            then jsonArrayOutput +:+ ", " else jsonArrayOutput in
          sliceStructLoop rest tagName excludeTagName (jsonArrayOutput +:+ s)
      end
  end.

Definition SliceStructToJson (inputSliceStructPtr : list Input)
    (tagName excludeTagName : string) : Run (string * option SliceError) :=
  if (length inputSliceStructPtr =? 0)%nat
  then Returns ("", Some (Fixed "Input Slice Struct Pointer Nil"))
  else
    match sliceStructLoop inputSliceStructPtr tagName excludeTagName "" with
    | Panics => Panics
    | Returns (inr e) => Returns ("", Some (Wrapped "StructToJson Failed: %s" e))
    | Returns (inl jsonArrayOutput) =>
        if (0 <? LenTrim jsonArrayOutput)%nat
        then Returns ("[" +:+ jsonArrayOutput +:+ "]", None)
        else Returns ("", Some (Fixed "SliceStructToJson Yielded Blank String"))
    end.

End Net.

(** ** A reference environment

    The collaborators are not part of the translated file.  To run the
    translated functions on examples they are given the behaviour the spec
    describes for them (section 4.2: strings pass through, booleans render
    through the override literals if present else "true"/"false", integers
    and floats render in decimal, nullable wrappers render their value when
    valid and are skipped otherwise; text is parsed back into the field's
    primitive type).  The general theorems below do not depend on it. *)

Module Ref.

(** Modelled from the spec: [ParseInt32], [ParseInt64] and [StrToUint64] are
    not part of the translated file; the spec lists them as primitive parsing
    (int parsing).  A decimal numeral with an optional sign parses to its
    value; any other text does not parse and gives 0. *)
Definition parseInt (s : string) : Z * bool :=
  let body := if String.prefix "+" s then String.substring 1 (len s - 1) s else s in
  match NilZero.int_of_string body with
  | Some d => (Z.of_int d, true)
  | None => (0, false)
  end.

(** Modelled from the spec: [Itoa], [Int64ToString] and [UInt64ToString] are
    not part of the translated file; section 4.2: integers render decimal. *)
Definition formatInt (n : Z) : string := NilZero.string_of_int (Z.to_int n).

Definition parseUint (s : string) : option Z :=
  match s with
  | EmptyString => Some 0
  | _ => option_map Z.of_uint (NilEmpty.uint_of_string s)
  end.

(** Modelled from the spec: [ParseFloat64] is not part of the translated
    file; the spec lists it as primitive parsing (float parsing).  Decimal
    notation [-ddd.ddd]. *)
Definition parseFloat (s : string) : Q * bool :=
  let neg := String.prefix "-" s in
  let body :=
    if neg || String.prefix "+" s then String.substring 1 (len s - 1) s else s in
  let signed (q : Q) : Q := if neg then Qopp q else q in
  match Split body "." with
  | [i] =>
      match i, parseUint i with
      | String _ _, Some n => (signed (inject_Z n), true)
      | _, _ => (0%Q, false)
      end
  | [i; f] =>
      match parseUint i, parseUint f with
      | Some n, Some m =>
          if ((len i + len f)%nat =? 0)%nat then (0%Q, false)
          else
            let scale := 10 ^ Z.of_nat (len f) in
            (signed (Qred (Qmake (n * scale + m) (Z.to_pos scale))), true)
      | _, _ => (0%Q, false)
      end
  | _ => (0%Q, false)
  end.

Fixpoint fracDigits (fuel : nat) (r d : Z) : string :=
  match fuel with
  | O => ""
  | S k =>
      if r =? 0 then ""
      else formatInt (r * 10 / d) +:+ fracDigits k (r * 10 mod d) d
  end.

(** Modelled from the spec: [Float64ToString] is not part of the translated
    file; section 4.2: floats render decimal (here with at most 17 fraction
    digits). *)
Definition formatFloat (q : Q) : string :=
  let n := Qnum q in
  let d := Zpos (Qden q) in
  let a := Z.abs n in
  let whole := formatInt (a / d) in
  let frac := fracDigits 17 (a mod d) d in
  (if n <? 0 then "-" else "") +:+ whole
    +:+ (match frac with EmptyString => "" | _ => "." +:+ frac end).

(** Modelled from the spec: [ParseBool] is not part of the translated file;
    the spec lists it as primitive parsing (bool parsing).  The literals of
    Go's [strconv.ParseBool]. *)
Definition parseBool (s : string) : bool * bool :=
  if StringSliceContains ["1"; "t"; "T"; "TRUE"; "true"; "True"] s then (true, true)
  else if StringSliceContains ["0"; "f"; "F"; "FALSE"; "false"; "False"] s
  then (false, true)
  else (false, false).

(** Modelled from the spec: the [Extract...] helpers are not part of the
    translated file; section 4.2: kind-based filtering strips the disallowed
    characters from the text. *)
Definition filterChars (keep : nat -> bool) (s : string) : string :=
  string_of_list_ascii
    (List.filter (fun c => keep (nat_of_ascii c)) (list_ascii_of_string s)).

Definition isDigit (n : nat) : bool := ((48 <=? n) && (n <=? 57))%nat.
Definition isAlpha (n : nat) : bool :=
  (((65 <=? n) && (n <=? 90)) || ((97 <=? n) && (n <=? 122)))%nat.
Definition isHexDigit (n : nat) : bool :=
  (isDigit n || ((65 <=? n) && (n <=? 70)) || ((97 <=? n) && (n <=? 102)))%nat.
Definition isPrintable (n : nat) : bool := ((32 <=? n) && (n <=? 126))%nat.

(** Modelled from the spec: [ParseDateTimeCustom] and the time rendering are
    not part of the translated file.  Here an instant is written as its
    decimal distance from the zero time, whatever the format. *)
Definition parseTime (s _format : string) : Time := fst (parseInt s).
Definition formatTime (t : Time) (_format : string) : string := formatInt t.

(** The text of a value, before the skip rules. *)
Fixpoint valueText (fuel : nat) (o : Value) (boolTrue boolFalse timeFormat : string)
  : option string :=
  match o with
  | VString s => Some s
  | VBool b =>
      if b then Some (if (0 <? len boolTrue)%nat then boolTrue else "true")
      else Some (if (0 <? len boolFalse)%nat then boolFalse else "false")
  | VInt _ n | VUint _ n => Some (formatInt n)
  | VFloat _ q => Some (formatFloat q)
  | VNullString s valid => if valid then Some s else Some ""
  | VNullBool b valid =>
      if valid
      then if b then Some (if (0 <? len boolTrue)%nat then boolTrue else "true")
           else Some (if (0 <? len boolFalse)%nat then boolFalse else "false")
      else Some ""
  | VNullFloat64 q valid => if valid then Some (formatFloat q) else Some ""
  | VNullInt32 n valid | VNullInt64 n valid =>
      if valid then Some (formatInt n) else Some ""
  | VNullTime t valid => if valid then Some (formatTime t timeFormat) else Some ""
  | VTime t => Some (if IsZero t then "" else formatTime t timeFormat)
  | VError m => Some m
  | VPtr _ (Some v) | VIface _ (Some v) =>
      match fuel with
      | O => None
      | S k => valueText k v boolTrue boolFalse timeFormat
      end
  | VPtr _ None | VIface _ None => Some ""
  | VSlice _ _ | VOpaque _ _ _ => None
  end.

(** Whether a value is its zero value, for [skipzero] and [zeroblank]. *)
Definition isZeroValue (o : Value) : bool :=
  match o with
  | VBool b => negb b
  | VInt _ n | VUint _ n => n =? 0
  | VFloat _ q => Qeq_bool q 0
  | VTime t => IsZero t
  | VPtr _ None | VIface _ None => true
  | VNullBool b valid => negb valid || negb b
  | VNullFloat64 q valid => negb valid || Qeq_bool q 0
  | VNullInt32 n valid | VNullInt64 n valid => negb valid || (n =? 0)
  | VNullTime t valid => negb valid || IsZero t
  | _ => false
  end.

Definition isBlankValue (o : Value) : bool :=
  match o with
  | VString s => (LenTrim s =? 0)%nat
  | VNullString s valid => negb valid || (LenTrim s =? 0)%nat
  | _ => false
  end.

(** Modelled from the spec: [ReflectValueToString] is not part of the
    translated file.  Section 4.2: canonical text (above); a blank string is
    skipped under [skipblank], a zero number, [false], zero time or nil under
    [skipzero]; [zeroblank] turns a zero into blank text; a value of a type
    with no text form is an error. *)
Definition reflectValueToString (o : Value) (boolTrue boolFalse : string)
    (skipBlank skipZero : bool) (timeFormat : string) (zeroBlank : bool)
  : string * bool * option string :=
  match valueText 8 o boolTrue boolFalse timeFormat with
  | None => ("", false, Some (typeString o +:+ " Unhandled"))
  | Some text =>
      if skipBlank && isBlankValue o then ("", true, None)
      else if skipZero && isZeroValue o then ("", true, None)
      else if zeroBlank && isZeroValue o then ("", false, None)
      else (text, false, None)
  end.

(** Modelled from the spec: [ReflectStringToField] is not part of the
    translated file.  Section 4.2: the text is parsed into the field's
    primitive type (a text that does not parse leaves the zero value; a
    number that does not fit is not stored); a field of a type with no text
    form is an error and is left as it is. *)
Definition reflectStringToField (o : Value) (v timeFormat : string)
  : Value * option string :=
  match o with
  | VString _ => (VString v, None)
  | VBool _ => (VBool (fst (parseBool v)), None)
  | VInt w n =>
      let i := fst (parseInt v) in
      (if OverflowInt w i then o else VInt w i, None)
  | VUint w n =>
      let u := fst (parseInt v) in
      (if OverflowUint w u then o else VUint w u, None)
  | VFloat w q =>
      let f := fst (parseFloat v) in
      (if OverflowFloat w f then o else VFloat w f, None)
  | VNullString _ _ => (VNullString v true, None)
  | VNullBool _ _ => (VNullBool (fst (parseBool v)) true, None)
  | VNullFloat64 _ _ => (VNullFloat64 (fst (parseFloat v)) true, None)
  | VNullInt32 _ _ => (VNullInt32 (fst (parseInt v)) true, None)
  | VNullInt64 _ _ => (VNullInt64 (fst (parseInt v)) true, None)
  | VNullTime _ _ => (VNullTime (parseTime v timeFormat) true, None)
  | VTime _ => (VTime (parseTime v timeFormat), None)
  | _ => (o, Some (typeString o +:+ " Unhandled"))
  end.

Definition hexDigit (n : nat) : ascii :=
  ascii_of_nat (if (n <? 10)%nat then 48 + n else 55 + n).

(** Go's [url.PathEscape]: every byte outside the unreserved set and the
    sub-delimiters a path segment may hold is written [%XX]. *)
Definition pathEscape (s : string) : string :=
  String.concat ""
    ((fun c =>
        let n := nat_of_ascii c in
        if isDigit n || isAlpha n
           || StringSliceContains ["-"; "_"; "."; "~"; "$"; "&"; "+"; "="; ":"; "@"]
                (String c EmptyString)
        then String c EmptyString
        else String "%" (String (hexDigit (n / 16)) (String (hexDigit (n mod 16)) EmptyString)))
       <$> list_ascii_of_string s).

(** Modelled from the spec: [JsonToEscaped] and [JsonFromEscaped] are not part
    of the translated file; the spec only says that the JSON adapter escapes
    values.  Here the writer adds nothing to the quote escaping the marshaler
    has already done, and the reader drops the surrounding quotes of the raw
    message and undoes a backslash escape. *)
Definition jsonToEscaped (s : string) : string := s.

Fixpoint unescape (s : string) : string :=
  match s with
  | EmptyString => EmptyString
  | String c s' =>
      if Ascii.eqb c (ascii_of_nat 92)
      then match s' with
           | String d s'' => String d (unescape s'')
           | EmptyString => EmptyString
           end
      else String c (unescape s')
  end.

Definition jsonFromEscaped (raw : string) : string :=
  let body :=
    if (2 <=? len raw)%nat && String.prefix dquote raw
       && String.eqb (Right raw 1) dquote
    then String.substring 1 (len raw - 2) raw else raw in
  unescape body.

(** Go's [json.Unmarshal] into a map of raw messages, for flat JSON objects:
    string keys, and values that are string literals (kept raw, with their
    quotes) or bare scalars; a later key overrides an earlier one. *)
Inductive JState :=
| JStart
| JKeyOrEnd (allowEnd : bool)
| JKey (acc : string)
| JKeyEsc (acc : string)
| JColon (key : string)
| JValue (key : string)
| JStr (key raw : string)
| JStrEsc (key raw : string)
| JBare (key acc : string)
| JCommaOrEnd
| JAfter
| JFail.

Definition isBareScalar (tok : string) : bool :=
  StringSliceContains ["true"; "false"; "null"] tok
  || ((0 <? len tok)%nat
      && forallb (fun c => isDigit (nat_of_ascii c)
                           || StringSliceContains ["-"; "+"; "."; "e"; "E"]
                                (String c EmptyString))
           (list_ascii_of_string tok)).

Definition jstep (st : JState * gmap string string) (c : ascii)
  : JState * gmap string string :=
  let '(q, m) := st in
  let one := String c EmptyString in
  let isQuote := Ascii.eqb c (ascii_of_nat 34) in
  let isBack := Ascii.eqb c (ascii_of_nat 92) in
  let commit key tok next :=
    if isBareScalar tok then (next, <[key := tok]> m) else (JFail, m) in
  match q with
  | JStart =>
      if is_space c then st else if String.eqb one "{" then (JKeyOrEnd true, m) else (JFail, m)
  | JKeyOrEnd allowEnd =>
      if is_space c then st
      else if isQuote then (JKey "", m)
      else if allowEnd && String.eqb one "}" then (JAfter, m)
      else (JFail, m)
  | JKey acc =>
      if isQuote then (JColon acc, m)
      else if isBack then (JKeyEsc acc, m)
      else (JKey (acc +:+ one), m)
  | JKeyEsc acc => (JKey (acc +:+ one), m)
  | JColon key =>
      if is_space c then st else if String.eqb one ":" then (JValue key, m) else (JFail, m)
  | JValue key =>
      if is_space c then st
      else if isQuote then (JStr key dquote, m)
      else if StringSliceContains ["{"; "["; "}"; "]"; ","; ":"] one then (JFail, m)
      else (JBare key one, m)
  | JStr key raw =>
      if isQuote then (JCommaOrEnd, <[key := raw +:+ dquote]> m)
      else if isBack then (JStrEsc key (raw +:+ one), m)
      else (JStr key (raw +:+ one), m)
  | JStrEsc key raw =>
      if isQuote || isBack
         || StringSliceContains ["/"; "b"; "f"; "n"; "r"; "t"; "u"] one
      then (JStr key (raw +:+ one), m)
      else (JFail, m)
  | JBare key acc =>
      if is_space c then commit key acc JCommaOrEnd
      else if String.eqb one "," then commit key acc (JKeyOrEnd false)
      else if String.eqb one "}" then commit key acc JAfter
      else (JBare key (acc +:+ one), m)
  | JCommaOrEnd =>
      if is_space c then st
      else if String.eqb one "," then (JKeyOrEnd false, m)
      else if String.eqb one "}" then (JAfter, m)
      else (JFail, m)
  | JAfter => if is_space c then st else (JFail, m)
  | JFail => st
  end.

Definition jsonUnmarshal (payload : string) : JsonResult :=
  if String.eqb (Trim payload) "null" then JsonNil
  else
    match fold_left jstep (list_ascii_of_string payload) (JStart, ∅) with
    | (JAfter, m) => JsonMap m
    | _ => JsonError "invalid character in JSON input"
    end.

(** Modelled from the spec: [ReflectCall], [DerefError] and
    [DerefPointersZero] are not part of the translated file; the spec lists
    the invocation of a named method as an external service.  Here no method
    is registered: every reflective call reports "not found". *)
Definition reflectCall (_ : Receiver) (_ : string) (_ : list CallArg)
  : list Value * bool := ([], true).

Definition derefError (v : Value) : option string := asError v.

Definition derefPointersZero (o : Value) : Value * bool * bool :=
  match o with
  | VPtr e None => (VOpaque OStruct e None, false, true)
  | _ => (o, false, false)
  end.

End Ref.

(** Modelled from the spec: the environment of the examples, made of the
    models above; [GetStructTagsValueSlice], which is not part of the
    translated file either, hands back the values of the named tags in
    order. *)
Definition go_env : Env := {|
  ParseBool := Ref.parseBool;
  ParseInt32 := Ref.parseInt;
  ParseInt64 := Ref.parseInt;
  ParseFloat64 := Ref.parseFloat;
  StrToUint64 := fun s => fst (Ref.parseInt s);
  Itoa := Ref.formatInt;
  Int64ToString := Ref.formatInt;
  UInt64ToString := Ref.formatInt;
  Float64ToString := Ref.formatFloat;
  DateTimeFormatString := "2006-01-02 15:04:05";
  ParseDateTimeCustom := Ref.parseTime;
  ExtractAlpha := Ref.filterChars Ref.isAlpha;
  ExtractNumeric := Ref.filterChars Ref.isDigit;
  ExtractAlphaNumeric := Ref.filterChars (fun n => Ref.isAlpha n || Ref.isDigit n);
  ExtractAlphaNumericPrintableSymbols := Ref.filterChars Ref.isPrintable;
  ExtractHex := Ref.filterChars Ref.isHexDigit;
  ExtractByRegex := fun s _ => s;
  GetStructTagsValueSlice := fun field names => Get field <$> names;
  ReflectValueToString := Ref.reflectValueToString;
  ReflectStringToField := Ref.reflectStringToField;
  ReflectCall := Ref.reflectCall;
  DerefError := Ref.derefError;
  DerefPointersZero := Ref.derefPointersZero;
  ReflectTypeRegistryGet := fun _ => None;
  PathEscape := Ref.pathEscape;
  JsonToEscaped := Ref.jsonToEscaped;
  JsonFromEscaped := Ref.jsonFromEscaped;
  json_Unmarshal := Ref.jsonUnmarshal
|}.

(** Example records. *)
Definition strField (name : string) (tag : list (string * string)) (v : string) : Field :=
  mkField name tag true (VString v).

Definition boolField (name : string) (tag : list (string * string)) (b : bool) : Field :=
  mkField name tag true (VBool b).

Definition intField (name : string) (tag : list (string * string)) (n : Z) : Field :=
  mkField name tag true (VInt W0 n).

(** * Specifications

    Declarative readings of the spec's sentences, to be compared with the
    translated functions. *)

(** The declarative reading of "the field is set", kind by kind.  A default
    is compared as text: the rendering of the value against the [def] tag.
    Fields holding a [sql.NullBool] are left out. *)
Definition deviates (E : Env) (f : Field) : Prop :=
  let def := Get f "def" in
  match Val f with
  | VString s => LenTrim s <> 0%nat /\ s <> def
  | VBool b => b = true
  | VInt _ n => n <> 0 /\ Int64ToString E n <> def
  | VFloat _ q => Qeq_bool q 0 = false /\ Float64ToString E q <> def
  | VUint _ n => 0 < n /\ UInt64ToString E n <> def
  | VPtr _ target => target <> None
  | VSlice _ items => items <> []
  | o =>
      match Interface o with
      | Some (VNullString s valid) => valid = true /\ (def = "" \/ s <> def)
      | Some (VNullBool _ _) => False
      | Some (VNullFloat64 q valid) =>
          valid = true /\ (def = "" \/ Float64ToString E q <> def)
      | Some (VNullInt32 n valid) => valid = true /\ (def = "" \/ Itoa E n <> def)
      | Some (VNullInt64 n valid) =>
          valid = true /\ (def = "" \/ Int64ToString E n <> def)
      | Some (VNullTime t valid) =>
          valid = true
          /\ (def = "" \/ t <> ParseDateTimeCustom E def (tagTimeFormatOf E f))
      | Some (VTime t) =>
          t <> 0
          /\ (def = "" \/ t <> ParseDateTimeCustom E def (tagTimeFormatOf E f))
      | Some _ => kindOf o = KInterface
      | None => False
      end
  end.

Definition holdsNullBool (f : Field) : bool :=
  match Interface (Val f) with
  | Some (VNullBool _ _) => true
  | _ => false
  end.

(** The reading of the spec for the flag of [SetStructFieldDefaultValues]:
    some field declares a default. *)
Definition declaresDefault (s : Struct) : bool :=
  existsb (fun f => (0 <? len (Get f "def"))%nat) (Fields s).

Definition person : Struct :=
  mkStruct "Person"
    [strField "Name" [("json", "name")] "Ann";
     intField "Age" [("json", "age"); ("def", "18")] 41].

(** *** Unique groups *)

(** The group a field belongs to: its trimmed [uniqueid] tag, compared
    without regard to case; [None] when the field declares none. *)
Definition groupOf (f : Field) : option string :=
  let tagUniqueId := Trim (Get f "uniqueid") in
  if (0 <? len tagUniqueId)%nat then Some (ToLower tagUniqueId) else None.

Definition sameGroup (g f : Field) : bool :=
  match groupOf g, groupOf f with
  | Some a, Some b => String.eqb a b
  | _, _ => false
  end.

(** The group of the field is claimed in the map. *)
Definition blocked (uniqueMap : gmap string string) (f : Field) : bool :=
  match groupOf f with
  | Some k => isSome (uniqueMap !! k)
  | None => false
  end.

Definition claimMap (uniqueMap : gmap string string) (f : Field)
  : gmap string string :=
  match groupOf f with
  | Some k => <[k := Name f]> uniqueMap
  | None => uniqueMap
  end.

(** What a field does when its group is free: it is skipped, it puts a piece
    into the output, or it makes the call return. *)
Inductive Verdict (P R : Type) :=
| Skips
| Emits (p : P)
| Aborts (r : R).
Arguments Skips {P R}.
Arguments Emits {P R} p.
Arguments Aborts {P R} r.

Definition emits {P R} (v : Verdict P R) : bool :=
  match v with Emits _ => true | _ => false end.

(** "Only one field of a group appears, and it is the first, in declaration
    order, that actually produces a value": the fields of [fs] are visited in
    order, [before] being the fields already visited; a field puts its piece
    exactly when it produces one and no earlier field of its group did.  The
    result lists the fields that put a piece, with the piece; a field that
    makes the call return ends the visit. *)
Fixpoint firstProducers {P R} (verdict : Field -> Verdict P R)
    (before fs : list Field) : list (Field * P) + R :=
  match fs with
  | [] => inl []
  | f :: rest =>
      if existsb (fun g => sameGroup g f && emits (verdict g)) before
      then firstProducers verdict (before ++ [f]) rest
      else
        match verdict f with
        | Skips => firstProducers verdict (before ++ [f]) rest
        | Emits p =>
            match firstProducers verdict (before ++ [f]) rest with
            | inl ps => inl ((f, p) :: ps)
            | inr r => inr r
            end
        | Aborts r => inr r
        end
  end.

(** The text a field adds to a fresh output: "" when it adds nothing. *)
Definition qpPiece (E : Env) (s : Struct) (tagName excludeTagName : string)
    (f : Field) : string :=
  fst (queryParamsField E s tagName excludeTagName ("", ∅) f).

Definition jsonPiece (E : Env) (s : Struct) (tagName excludeTagName : string)
    (f : Field) : string :=
  fst (jsonField E s tagName excludeTagName ("", ∅) f).

Definition pieceVerdict (piece : string) : Verdict string Empty_set :=
  if String.eqb piece "" then Skips else Emits piece.

(** What a field does to the CSV slots when its group is free. *)
Definition csvVerdict (E : Env) (s : Struct) (csvLen : Z) (f : Field)
  : Verdict (Z * string) (string * option Error) :=
  match csvMarshalField E s csvLen ∅ f with
  | CsvSkip _ => Skips
  | CsvWrite tagPos v _ => Emits (tagPos, v)
  | CsvReturn p e => Aborts (p, e)
  end.

(** The way the two text marshalers add a piece to the output. *)
Definition appendPiece (sep out piece : string) : string :=
  (if (0 <? LenTrim out)%nat then out +:+ sep else out) +:+ piece.

Definition joinPieces (sep : string) (pieces : list string) : string :=
  fold_left (appendPiece sep) pieces "".

Definition writeSlot (csvList : list string) (w : Z * string) : list string :=
  <[Z.to_nat (fst w) := snd w]> csvList.

(** No turn of a marshal loop changes the output. *)
Fixpoint neverEmits {S} (step : string * S -> Field -> string * S)
    (fs : list Field) (st : string * S) : Prop :=
  match fs with
  | [] => True
  | f :: rest => fst (step st f) = fst st /\ neverEmits step rest (step st f)
  end.

(** No turn of the CSV marshal loop writes a slot or returns. *)
Fixpoint neverWrites (E : Env) (s : Struct) (csvLen : Z) (fs : list Field)
    (uniqueMap : gmap string string) : Prop :=
  match fs with
  | [] => True
  | f :: rest =>
      match csvMarshalField E s csvLen uniqueMap f with
      | CsvSkip uniqueMap' => neverWrites E s csvLen rest uniqueMap'
      | _ => False
      end
  end.

Definition note : Struct :=
  mkStruct "Note"
    [strField "Text" [("q", "text"); ("pos", "0"); ("skipblank", "true")] ""].

(** A field loop that threads an accumulator and the claim map and may
    return early. *)
Fixpoint walk {A R}
    (turn : A -> gmap string string -> Field -> (A * gmap string string) + R)
    (fs : list Field) (acc : A) (uniqueMap : gmap string string) : A + R :=
  match fs with
  | [] => inl acc
  | f :: rest =>
      match turn acc uniqueMap f with
      | inl (acc', uniqueMap') => walk turn rest acc' uniqueMap'
      | inr r => inr r
      end
  end.

(** The claim map blocks exactly the groups in which an earlier field
    produced. *)
Definition tracks {P R} (verdict : Field -> Verdict P R) (before : list Field)
    (uniqueMap : gmap string string) : Prop :=
  forall x,
    blocked uniqueMap x
    = existsb (fun g => sameGroup g x && emits (verdict g)) before.

(** Two phone numbers in one group: the blank first one is skipped. *)
Definition contact : Struct :=
  mkStruct "Contact"
    [strField "Home" [("q", "home"); ("pos", "0"); ("uniqueid", "phone");
                      ("skipblank", "true")] "";
     strField "Mobile" [("q", "mobile"); ("pos", "0"); ("uniqueid", "Phone")] "555";
     strField "Office" [("q", "office"); ("pos", "0"); ("uniqueid", "phone")] "777"].

(** *** Errors of the CSV reader *)

(** The formats of the errors a failed [validate] rule produces. *)
Definition validationFormats : list string :=
  ["%s Validation Failed: Expected To Match '%s', But Received '%s'";
   "%s Validation Failed: Expected To Not Match '%s', But Received '%s'";
   "%s Validation Failed: Expected To Be Less or Equal To '%s', But Received '%s'";
   "%s Validation Failed: Expected To Be Less Than '%s', But Received '%s'";
   "%s Validation Failed: Expected To Be Greater or Equal To '%s', But Received '%s'";
   "%s Validation Failed: Expected To Be Greater Than '%s', But Received '%s'";
   "%s Validation Failed: %s() Returned Result is False";
   "%s Validation On %s() Failed: %s"].

Definition isValidationError (e : Error) : bool :=
  match e with
  | Errorf format _ => StringSliceContains validationFormats format
  | Foreign _ => false
  end.

(** The formats of the errors the field loop of the CSV reader produces
    itself, besides the validation errors. *)
Definition readerFormats : list string :=
  ["Struct Field %s Expects Value In Blocks of %d Characters";
   "%s Struct Field %s is Interface Without Actual Object Assignment"].



(** The [validate] rule of the field compares against a single value. *)
Definition singleValued (f : Field) : bool :=
  let valData := Trim (Get f "validate") in
  let valData := Right valData (len valData - 2) in
  (length (Split valData "||") <=? 1)%nat && (length (Split valData "&&") <=? 1)%nat.

(** The fields of two structs agree from position [k] on. *)
Definition agreeFrom (k : nat) (s s' : Struct) : Prop :=
  forall j, (k <= j)%nat -> Fields s' !! j = Fields s !! j.

(** The fields of two structs agree except at position [i]. *)
Definition agreeExcept (i : nat) (s s' : Struct) : Prop :=
  forall j, j <> i -> Fields s' !! j = Fields s !! j.

(** Two structs have the same fields up to their values. *)
Definition sameShape (s s' : Struct) : Prop :=
  (fun f => (Name f, Tag f, CanSet f)) <$> Fields s'
  = (fun f => (Name f, Tag f, CanSet f)) <$> Fields s.

(** What one turn of the CSV reader can do to the struct. *)
Definition csvTurnOutcome (s : Struct) (i : nat) (f : Field)
    (out : Outcome (gmap string string)) : Prop :=
  match out with
  | Next _ s' => agreeExcept i s s'
  | Return None s' => s' = s
  | Return (Some e) s' =>
      (exists msg, e = Foreign msg /\ agreeExcept i s s')
      \/ (exists format args,
            e = Errorf format args
            /\ StringSliceContains readerFormats format = true /\ s' = s)
      \/ (isValidationError e = true
          /\ ((exists s'', s' = clearFields s'')
              \/ (singleValued f = false /\ s' = s)))
  end.

(** What one turn of the JSON reader can do to the struct: it never returns
    without an error, and it never touches another field. *)
Definition jsonTurnOutcome (s : Struct) (i : nat) (out : Outcome unit) : Prop :=
  match out with
  | Next _ s' => agreeExcept i s s'
  | Return None _ => False
  | Return (Some _) s' => agreeExcept i s s'
  end.

(** Example records for the CSV reader. *)
Definition row : Struct :=
  mkStruct "Row"
    [strField "A" [("pos", "0"); ("type", "a"); ("size", "2..4")] "";
     intField "B" [("pos", "1"); ("type", "n"); ("range", "1..5"); ("def", "3")] 0;
     boolField "C" [("pos", "2"); ("booltrue", "Y"); ("boolfalse", "N")] false].

Definition guarded : Struct :=
  mkStruct "Guarded"
    [strField "Kind" [("pos", "0"); ("validate", "==x")] "";
     strField "Note" [("pos", "1")] ""].

Definition tagged : Struct :=
  mkStruct "Tagged"
    [strField "A" [("pos", "0"); ("json", "a")] "";
     mkField "B" [("pos", "1"); ("json", "b")] true
       (VOpaque OMap "map[string]string" None)].

Definition blocks : Struct :=
  mkStruct "Blocks"
    [strField "A" [("pos", "0")] "";
     strField "B" [("pos", "1"); ("type", "a"); ("size", "..4+%2")] ""].

Definition sized : Struct :=
  mkStruct "Sized"
    [strField "Code" [("pos", "0"); ("type", "a"); ("size", "3..5")] "ab";
     intField "Level" [("pos", "1"); ("type", "n"); ("range", "1..5")] 9].


(** *** Size and range rules *)




(** *** Bool literals *)

(** A field that declares the literals "Y"/"N" and nothing that interferes
    with them: no getter, setter, output prefix, default, kind, requirement or
    validation, and an output key that is neither blank-trimmed away nor
    excluded. *)
Record DeclaresYN (E : Env) (tagName excludeTagName : string) (field : Field)
  : Prop := {
  yn_settable : CanSet field = true;
  yn_true : Get field "booltrue" = "Y";
  yn_false : Get field "boolfalse" = "N";
  yn_getter : Trim (Get field "getter") = "";
  yn_setter : Trim (Get field "setter") = "";
  yn_prefix : Get field "outprefix" = "";
  yn_def : Get field "def" = "";
  yn_type : Get field "type" = "";
  yn_req : Get field "req" = "";
  yn_validate : Get field "validate" = "";
  yn_key : Trim (Get field tagName) = Get field tagName;
  yn_named : outputKey field tagName <> "-";
  yn_included : excludedBy field excludeTagName = false;
  (* the tag reader hands the literals on *)
  yn_read7 : boolTrue (readOptions7 E field) = "Y"
             /\ boolFalse (readOptions7 E field) = "N"
             /\ outPrefix (readOptions7 E field) = "";
  yn_read6 : boolTrue (readOptions6 E field) = "Y"
             /\ boolFalse (readOptions6 E field) = "N"
}.

(** The two collaborators on booleans: [true] renders as the declared
    literal, and the canonical text "true" parses to [true]. *)
Definition RendersYN (E : Env) : Prop :=
  forall skipBlank skipZero timeFormat zeroBlank,
    ReflectValueToString E (VBool true) "Y" "N" skipBlank skipZero timeFormat zeroBlank
    = ("Y", false, None).

Definition ParsesTrue (E : Env) : Prop :=
  forall b timeFormat,
    ReflectStringToField E (VBool b) "true" timeFormat = (VBool true, None).

Definition flag : Struct :=
  mkStruct "Flag"
    [boolField "Active"
       [("json", "active"); ("pos", "0"); ("booltrue", "Y"); ("boolfalse", "N")]
       true].

(** JSON text for the examples. *)
Definition quoted (s : string) : string := dquote +:+ s +:+ dquote.

Definition jsonObjectOf (pairs : list (string * string)) : string :=
  "{" +:+ String.concat ", " ((fun kv => quoted (fst kv) +:+ ":" +:+ quoted (snd kv)) <$> pairs)
  +:+ "}".

(** *** JSON round trip *)

(** The text holds a character that is not white space. *)
Definition hasText (s : string) : bool :=
  existsb (fun c => negb (is_space c)) (list_ascii_of_string s).

(** What [MarshalStructToJson] emits for a field whose group is free: the
    key and the raw value (the escaped text between quotes). *)
Definition jsonEmitted (E : Env) (s : Struct) (tagName excludeTagName : string)
    (f : Field) : option (string * string) :=
  if String.eqb (jsonPiece E s tagName excludeTagName f) "" then None
  else
    let t := readOptions6 E f in
    let '(buf, _, _) := render E (fst (applyGetter E s f t)) t in
    match fst (unknownEnum f (Val f) buf (Get f "def") (claimMap ∅ f)) with
    | Some buf =>
        Some (outputKey f tagName,
              dquote +:+ JsonToEscaped E (jsonFieldValue f t buf (Get f "def"))
                +:+ dquote)
    | None => None
    end.

Definition pairText (kv : string * string) : string :=
  dquote +:+ fst kv +:+ dquote +:+ ":" +:+ snd kv.




(** The raw value the reader finds for a field, if it looks for one. *)
Definition readerKey (f : Field) (tagName : string) : string :=
  let jName := Trim (Get f tagName) in
  if (LenTrim jName =? 0)%nat then Name f else jName.

Definition readerLookup (tagName excludeTagName : string)
    (jsonMap : gmap string string) (f : Field) : option string :=
  if String.eqb (Trim (Get f tagName)) "-" then None
  else if excludedBy f excludeTagName then None
  else jsonMap !! readerKey f tagName.











(** Two numbers in one group. *)
Definition phones : Struct :=
  mkStruct "Phones"
    [strField "Home" [("json", "home"); ("uniqueid", "phone")] "111";
     strField "Mobile" [("json", "mobile"); ("uniqueid", "phone")] "222"].

(** *** Further example records *)

(** A record with a required field that declares no default. *)
Definition badge : Struct :=
  mkStruct "Badge"
    [strField "Id" [("pos", "0"); ("req", "true")] "A1";
     strField "Note" [("pos", "1")] "spare"].

(** A record whose second field is out of range. *)
Definition ranged : Struct :=
  mkStruct "Ranged"
    [strField "Code" [("pos", "0")] "ab";
     intField "Level" [("pos", "1"); ("type", "n"); ("range", "1..5")] 9].

(** *** What the readers leave alone *)

(** The second struct is the first one up to the values of its settable
    fields: same type, same names, tags and settable flags, and every field
    that is not settable is unchanged. *)
Definition sameFrame (s s' : Struct) : Prop :=
  TypeName s' = TypeName s
  /\ sameShape s s'
  /\ forall j f, Fields s !! j = Some f -> CanSet f = false -> Fields s' !! j = Some f.

(** The CSV reader does not address the field: it is not settable, or its
    [pos] tag is no position (not a number - unless it is "-" and a setter is
    declared - or a negative one), or it reads by prefix and no token carries
    the prefix. *)
Definition csvUnaddressed (E : Env) (csvElements : list string) (f : Field) : bool :=
  negb (CanSet f)
  || (let '(tagPos, ok) := ParseInt32 E (Get f "pos") in
      if negb ok
      then negb (String.eqb (Get f "pos") "-") || (LenTrim (Get f "setter") =? 0)%nat
      else tagPos <? 0)
  || (negb (String.eqb (Get f "pos") "-")
      && negb (LenTrim (Trim (Get f "outprefix")) =? 0)%nat
      && forallb
           (fun v =>
              negb (String.eqb (ToLower (Left v (len (Trim (Get f "outprefix")))))
                      (ToLower (Trim (Get f "outprefix")))))
           csvElements).

(** The formats of the errors [UnmarshalJsonToStruct] produces itself. *)
Definition jsonReaderFormats : list string :=
  ["InputStructPtr is Required"; "JsonPayload is Required"; "TagName is Required";
   "InputStructPtr Must Be Pointer"; "InputStructPtr Must Be Struct";
   "Unmarshal Json Failed: %s"; "Unmarshaled Json Map is Nil";
   "Unmarshaled Json Map Has No Elements";
   "%s Struct Field %s is Interface Without Actual Object Assignment"].

(** A record read by position and by prefix. *)
Definition parcel : Struct :=
  mkStruct "Parcel"
    [strField "Id" [("pos", "0"); ("json", "id")] "old";
     strField "Zone" [("pos", "1"); ("outprefix", "Z="); ("def", "north")] "east";
     strField "Memo" [("json", "memo"); ("def", "none")] "draft";
     mkField "seal" [("pos", "2"); ("json", "seal")] false (VString "wax")].

(** An error of [UnmarshalJsonToStruct]: handed back by a collaborator, or
    one of its own formats. *)
Definition isJsonReaderError (e : Error) : bool :=
  match e with
  | Errorf format _ => StringSliceContains jsonReaderFormats format
  | Foreign _ => true
  end.

(** *** Fill *)









(** *** The helpers of [helper-net.go] *)

(** The text holds a slash. *)
Definition hasSlash (s : string) : bool :=
  existsb (Ascii.eqb "/"%char) (list_ascii_of_string s).

(** A service that answers every request with the same status and body. *)
Definition answering (status : Z) (body : string) : NetEnv := {|
  FloatToString := Ref.formatFloat;
  FromNullString := fun s valid => if valid then s else "";
  FromNullBool := fun b valid => valid && b;
  FromNullFloat64 := fun q valid => if valid then q else 0%Q;
  FromNullInt := fun n valid => if valid then n else 0;
  FromNullInt64 := fun n valid => if valid then n else 0;
  FromNullTime := fun t valid => if valid then t else 0;
  TimeString := Ref.formatInt;
  ParseDateTime := fun s => fst (Ref.parseInt s);
  json_UnmarshalStrings := fun _ => inl [];
  POST := fun _ => (status, body, None)
|}.

(** The field carries the tag the two functions read, and is not excluded. *)
Definition netTagged (tagName excludeTagName : string) (f : Field) : bool :=
  (0 <? LenTrim (Get f tagName))%nat && negb (netExcluded f excludeTagName).

(** The kinds the switch of the two functions reads without [Interface()]. *)
Definition isBasicKind (o : Value) : bool :=
  match o with
  | VString _ | VBool _ | VInt _ _ | VFloat _ _ | VUint _ _ => true
  | _ => false
  end.

(** The inputs on which [StructToQueryParams] and [StructToJson] panic: with
    a tag name, an input that is not a pointer, or a struct with a tagged
    field that is not exported and not of a basic kind. *)
Definition netUnsafe (inp : Input) (tagName excludeTagName : string) : bool :=
  match inp with
  | InNil | InPtrOther _ => false
  | InNotPtr _ => negb (LenTrim tagName =? 0)%nat
  | InPtr s =>
      negb (LenTrim tagName =? 0)%nat
      && existsb (fun f => netTagged tagName excludeTagName f
                           && negb (CanSet f) && negb (isBasicKind (Val f)))
           (Fields s)
  end.

(** The piece a field puts into the output of [StructToQueryParams] and of
    [StructToJson]; [None] when the field is passed over. *)
Definition netQueryPiece (E : Env) (N : NetEnv) (tagName excludeTagName : string)
    (f : Field) : option string :=
  if netTagged tagName excludeTagName f
  then match netFieldText E N f with
       | Returns (Some buf) => Some (Get f tagName +:+ "=" +:+ PathEscape E buf)
       | _ => None
       end
  else None.

Definition netJsonPiece (E : Env) (N : NetEnv) (tagName excludeTagName : string)
    (f : Field) : option string :=
  if netTagged tagName excludeTagName f
  then match netFieldText E N f with
       | Returns (Some buf) =>
           Some (dquote +:+ Get f tagName +:+ dquote +:+ ":" +:+ dquote
                 +:+ JsonToEscaped E
                       (replaceChar "'"%char (backslash +:+ "'")
                          (replaceChar (ascii_of_nat 34) (backslash +:+ dquote) buf))
                 +:+ dquote)
       | _ => None
       end
  else None.

(** The text [StructToJson] returns for an element. *)
Definition netJsonText (E : Env) (N : NetEnv) (tagName excludeTagName : string)
    (v : Input) : string :=
  match StructToJson E N v tagName excludeTagName with
  | Returns (text, _) => text
  | Panics => ""
  end.

(** A record with an unexported field of struct kind under the tag. *)
Definition sealed : Struct :=
  mkStruct "Sealed"
    [strField "Id" [("q", "id")] "7";
     mkField "stamp" [("q", "stamp")] false (VTime 5)].

(** * Theorems *)

(** ** Boolean tests as propositions *)

Lemma negb_eqb_true (a b : string) : negb (String.eqb a b) = true <-> a <> b.
Proof.
  rewrite negb_true_iff. split.
  - intros H Heq. apply String.eqb_eq in Heq. congruence.
  - intros H. destruct (String.eqb a b) eqn:Heq; [|reflexivity].
    apply String.eqb_eq in Heq. contradiction.
Qed.

Lemma len_zero (s : string) : (len s =? 0)%nat = true <-> s = "".
Proof.
  destruct s; simpl; split; intros H; try reflexivity; discriminate.
Qed.

Lemma len_pos (s : string) : (0 <? len s)%nat = true <-> s <> "".
Proof.
  destruct s; simpl; split; intros H; try discriminate; try reflexivity.
  contradiction.
Qed.

Ltac to_prop :=
  repeat first
    [ rewrite andb_true_iff | rewrite orb_true_iff | rewrite negb_eqb_true
    | rewrite len_zero | rewrite len_pos | rewrite negb_true_iff
    | rewrite Z.eqb_neq | rewrite Z.eqb_eq | rewrite Z.ltb_lt
    | rewrite Nat.ltb_lt | rewrite Nat.eqb_eq | rewrite Nat.eqb_neq ].

(** ** Structural mutators *)

Section Mutators.

Variable E : Env.

Lemma isFieldSet_deviates (f : Field) :
  holdsNullBool f = false -> (isFieldSet E f = true <-> deviates E f).
Proof.
  unfold holdsNullBool, isFieldSet, deviates, IsZero.
  destruct (Val f) as [ | | | | | ?[]| | ?[[]|] | | | | | | | | | ];
    simpl; intros Hnb; try discriminate; to_prop;
    try tauto; try (split; intros; congruence).
  - split; intros [H1 H2]; (split; [lia | assumption]).
  - destruct items; simpl; split; intros; (congruence || lia).
  - split; [discriminate | contradiction].
  - destruct k; simpl; split; discriminate.
Qed.

Lemma IsStructFieldSet_loop_exists (fs : list Field) :
  IsStructFieldSet_loop E fs = true
  <-> exists f, f ∈ fs /\ CanSet f = true /\ isFieldSet E f = true.
Proof.
  induction fs as [|f fs IH]; simpl.
  - split; [discriminate|]. intros (f & Hin & _). inversion Hin.
  - destruct (CanSet f && isFieldSet E f) eqn:Hf.
    + apply andb_true_iff in Hf as [Hc Hs]. split; [|reflexivity].
      intros _. exists f. split; [left|auto].
    + rewrite IH. split.
      * intros (g & Hin & Hg). exists g. split; [right; assumption|assumption].
      * intros (g & Hin & Hc & Hs). apply elem_of_cons in Hin as [->|Hin].
        -- rewrite Hc, Hs in Hf. discriminate.
        -- exists g. auto.
Qed.

End Mutators.

(** C7 (as amended).  [SetStructFieldDefaultValues] returns [true] exactly
    when its input is a pointer to a struct, whether or not any field
    declares a default and whether or not any default was applied. *)
Theorem SetStructFieldDefaultValues_flag (E : Env) (inp : Input) :
  fst (SetStructFieldDefaultValues E inp)
  = match inp with InPtr _ => true | _ => false end.
Proof. destruct inp; reflexivity. Qed.

(** C7, counterexample: a record none of whose fields declares a default
    still gets [true]. *)
Lemma SetStructFieldDefaultValues_flag_counterexample :
  let s := mkStruct "Person" [strField "Name" [("json", "name")] "Ann"] in
  declaresDefault s = false
  /\ fst (SetStructFieldDefaultValues go_env (InPtr s)) = true.
Proof. split; reflexivity. Qed.

(** C8 (as amended).  For a record without [sql.NullBool] fields,
    [IsStructFieldSet] answers [true] exactly when some settable field
    deviates in the sense of [deviates]: strings, numbers, the other nullable
    wrappers and times must be non-zero (non-blank, valid) and differ from the
    declared default compared as text; booleans, pointers, slices and
    interfaces only need to be non-zero, whatever the default. *)
Theorem IsStructFieldSet_iff_deviates (E : Env) (s : Struct) :
  Forall (fun f => holdsNullBool f = false) (Fields s) ->
  IsStructFieldSet E (InPtr s) = true
  <-> exists f, f ∈ Fields s /\ CanSet f = true /\ deviates E f.
Proof.
  intros Hnb. simpl. rewrite IsStructFieldSet_loop_exists.
  rewrite Forall_forall in Hnb.
  split; intros (f & Hin & Hc & Hs); exists f; (split; [assumption|]);
    (split; [assumption|]); apply (isFieldSet_deviates E f); auto.
Qed.

(** A record whose integer field holds its declared default is not set. *)
Lemma IsStructFieldSet_iff_deviates_witness :
  let s := mkStruct "Person"
             [intField "Age" [("def", "18")] 18; strField "Name" [] ""] in
  IsStructFieldSet go_env (InPtr s) = true
  <-> exists f, f ∈ Fields s /\ CanSet f = true /\ deviates go_env f.
Proof.
  apply (IsStructFieldSet_iff_deviates go_env). repeat constructor.
Defined.

(** C8, counterexample: a [bool] field holding [true], the value of its
    declared default, is reported as set. *)
Lemma IsStructFieldSet_bool_default_counterexample :
  let f := boolField "Active" [("def", "true")] true in
  Val f = VBool (fst (ParseBool go_env (Get f "def")))
  /\ IsStructFieldSet go_env (InPtr (mkStruct "Flags" [f])) = true.
Proof. split; reflexivity. Qed.

(** ** UnmarshalJsonToStruct: decode failures *)

(** C10.  When the payload does not decode into a non-empty map (the decoder
    fails, or yields a nil map, or the empty object), the call returns an error
    and the record is exactly the one passed in: nothing was cleared and no
    default was applied. *)
Theorem UnmarshalJsonToStruct_decode_failure (E : Env) (inp : Input)
    (jsonPayload tagName excludeTagName : string) :
  match json_Unmarshal E jsonPayload with
  | JsonMap jsonMap => size jsonMap = 0%nat
  | _ => True
  end ->
  exists e,
    UnmarshalJsonToStruct E inp jsonPayload tagName excludeTagName = (Some e, inp).
Proof.
  intros Hdec. unfold UnmarshalJsonToStruct.
  destruct inp; try (eexists; reflexivity);
    destruct (LenTrim jsonPayload =? 0)%nat; try (eexists; reflexivity);
    destruct (LenTrim tagName =? 0)%nat; try (eexists; reflexivity).
  destruct (json_Unmarshal E jsonPayload) as [msg| |jsonMap];
    try (eexists; reflexivity).
  rewrite Hdec. simpl. eexists; reflexivity.
Qed.

(** The empty object and a truncated payload both leave [person] as it is. *)
Lemma UnmarshalJsonToStruct_decode_failure_witness :
  (exists e, UnmarshalJsonToStruct go_env (InPtr person) "{}" "json" ""
             = (Some e, InPtr person))
  /\ (exists e, UnmarshalJsonToStruct go_env (InPtr person) "{" "json" ""
                = (Some e, InPtr person)).
Proof.
  split.
  - apply (UnmarshalJsonToStruct_decode_failure go_env). reflexivity.
  - apply (UnmarshalJsonToStruct_decode_failure go_env). exact I.
Defined.

(** ** Blank output of the marshalers *)

Lemma neverEmits_output {S} (step : string * S -> Field -> string * S)
    (fs : list Field) (st : string * S) :
  neverEmits step fs st -> fst (fold_left step fs st) = fst st.
Proof.
  revert st. induction fs as [|f fs IH]; intros st H; simpl in *.
  - reflexivity.
  - destruct H as [H1 H2]. rewrite (IH _ H2). exact H1.
Qed.

Lemma csvJoin_markers (csvDelimiter : string) (n : nat) :
  csvJoin csvDelimiter (replicate n "{?}") = "".
Proof.
  unfold csvJoin. induction n as [|n IH]; simpl; [reflexivity|exact IH].
Qed.

Lemma neverWrites_loop (E : Env) (s : Struct) (csvLen : Z) (fs : list Field)
    (csvList : list string) (uniqueMap : gmap string string) :
  neverWrites E s csvLen fs uniqueMap ->
  csvMarshalLoop E s csvLen fs csvList uniqueMap = inl csvList.
Proof.
  revert uniqueMap. induction fs as [|f fs IH]; intros um H; simpl in *.
  - reflexivity.
  - destruct (csvMarshalField E s csvLen um f); try contradiction.
    apply IH, H.
Qed.

(** C1 (as amended).  When every field is skipped, so that no field produces
    output, [MarshalStructToQueryParams] and [MarshalStructToJson] return the
    "Yielded Blank Output" error with an empty string - these two never
    succeed with an empty string - whereas [MarshalStructToCSV] returns the
    empty string with no error. *)
Theorem marshal_blank_output (E : Env) (s : Struct)
    (tagName excludeTagName csvDelimiter : string) :
  LenTrim tagName <> 0%nat ->
  (neverEmits (queryParamsField E s tagName excludeTagName) (Fields s) ("", ∅) ->
   MarshalStructToQueryParams E (InPtr s) tagName excludeTagName
   = ("", Some (Errorf "MarshalStructToQueryParams Yielded Blank Output" [])))
  /\ (neverEmits (jsonField E s tagName excludeTagName) (Fields s) ("", ∅) ->
      MarshalStructToJson E (InPtr s) tagName excludeTagName
      = ("", Some (Errorf "MarshalStructToJson Yielded Blank Output" [])))
  /\ (forall text,
        MarshalStructToQueryParams E (InPtr s) tagName excludeTagName = (text, None)
        \/ MarshalStructToJson E (InPtr s) tagName excludeTagName = (text, None) ->
        text <> "")
  /\ (neverWrites E s (Z.of_nat (length (Fields s))) (Fields s) ∅ ->
      MarshalStructToCSV E (InPtr s) csvDelimiter = ("", None)).
Proof.
  intros Htag. apply Nat.eqb_neq in Htag.
  split; [|split; [|split]]; intros H.
  3: { rename H into text. intros [H|H].
       - unfold MarshalStructToQueryParams in H. rewrite Htag in H.
         destruct (fold_left _ _ _) as [output um].
         destruct (LenTrim output =? 0)%nat eqn:Hout; [discriminate|].
         injection H as ->. intros ->. discriminate.
       - unfold MarshalStructToJson in H. rewrite Htag in H.
         destruct (fold_left _ _ _) as [output um].
         destruct (LenTrim output =? 0)%nat eqn:Hout; [discriminate|].
         injection H as <-. discriminate. }
  - unfold MarshalStructToQueryParams. rewrite Htag.
    apply neverEmits_output in H.
    destruct (fold_left _ _ _) as [output um]. simpl in H. subst output.
    reflexivity.
  - unfold MarshalStructToJson. rewrite Htag.
    apply neverEmits_output in H.
    destruct (fold_left _ _ _) as [output um]. simpl in H. subst output.
    reflexivity.
  - unfold MarshalStructToCSV.
    destruct (negb _ && _); [reflexivity|].
    rewrite length_replicate.
    rewrite (neverWrites_loop _ _ _ _ _ _ H), csvJoin_markers. reflexivity.
Qed.

(** A record whose only field is a blank string under [skipblank]. *)
Lemma marshal_blank_output_witness :
  MarshalStructToQueryParams go_env (InPtr note) "q" ""
  = ("", Some (Errorf "MarshalStructToQueryParams Yielded Blank Output" []))
  /\ MarshalStructToJson go_env (InPtr note) "q" ""
     = ("", Some (Errorf "MarshalStructToJson Yielded Blank Output" []))
  /\ MarshalStructToCSV go_env (InPtr note) "," = ("", None).
Proof.
  destruct (marshal_blank_output go_env note "q" "" ",") as (H1 & H2 & _ & H3).
  - vm_compute. discriminate.
  - split; [|split].
    + apply H1. vm_compute. auto.
    + apply H2. vm_compute. auto.
    + apply H3. vm_compute. exact I.
Defined.

(** C1, counterexample: every field of the record is skipped, and
    [MarshalStructToCSV] succeeds with the empty string. *)
Lemma MarshalStructToCSV_blank_counterexample :
  neverWrites go_env note 1 (Fields note) ∅
  /\ MarshalStructToCSV go_env (InPtr note) "," = ("", None).
Proof. split; vm_compute; [exact I | reflexivity]. Qed.

(** ** Unique groups: the first producer wins *)

Lemma sameGroup_sym (g f : Field) : sameGroup g f = sameGroup f g.
Proof.
  unfold sameGroup. destruct (groupOf g), (groupOf f); try reflexivity.
  apply String.eqb_sym.
Qed.

Lemma blocked_empty (f : Field) : blocked ∅ f = false.
Proof. unfold blocked. destruct (groupOf f); [rewrite lookup_empty|]; reflexivity. Qed.

Lemma blocked_claimMap (um : gmap string string) (f x : Field) :
  blocked (claimMap um f) x = blocked um x || sameGroup f x.
Proof.
  unfold blocked, claimMap, sameGroup.
  destruct (groupOf f) as [k|], (groupOf x) as [k'|]; simpl;
    rewrite ?orb_false_r; try reflexivity.
  destruct (String.eqb k k') eqn:Hk.
  - apply String.eqb_eq in Hk. subst k'. rewrite lookup_insert_eq.
    simpl. rewrite orb_true_r. reflexivity.
  - assert (k <> k') by (intros ->; rewrite String.eqb_refl in Hk; discriminate).
    rewrite lookup_insert_ne by assumption. rewrite orb_false_r. reflexivity.
Qed.

Lemma blocked_sameGroup (um : gmap string string) (f x : Field) :
  sameGroup f x = true -> blocked um x = blocked um f.
Proof.
  unfold blocked, sameGroup.
  destruct (groupOf f) as [k|], (groupOf x) as [k'|]; try discriminate.
  intros H. apply String.eqb_eq in H. subst. reflexivity.
Qed.

Lemma claimUniqueId_spec (f : Field) (um : gmap string string) :
  claimUniqueId f um = if blocked um f then None else Some (claimMap um f).
Proof.
  unfold claimUniqueId, blocked, claimMap, groupOf.
  destruct (0 <? len (Trim (Get f "uniqueid")))%nat; [|reflexivity].
  destruct (um !! _); reflexivity.
Qed.

Lemma releaseUniqueId_claimMap (f : Field) (um : gmap string string) :
  blocked um f = false -> releaseUniqueId f (claimMap um f) = um.
Proof.
  unfold releaseUniqueId, blocked, claimMap, groupOf.
  destruct (0 <? len (Trim (Get f "uniqueid")))%nat; [|reflexivity].
  intros H. rewrite lookup_insert_eq. apply delete_insert_id.
  destruct (um !! _); [discriminate|reflexivity].
Qed.

(** The text part of the "unknown enum" block does not depend on the claims
    of other groups, and the claim of the field is given up exactly when the
    field is passed over. *)
Lemma unknownEnum_claimMap (f : Field) (oldVal : Value) (buf defVal : string)
    (um : gmap string string) :
  blocked um f = false ->
  unknownEnum f oldVal buf defVal (claimMap um f)
  = (fst (unknownEnum f oldVal buf defVal (claimMap ∅ f)),
     if isSome (fst (unknownEnum f oldVal buf defVal (claimMap ∅ f)))
     then claimMap um f else um).
Proof.
  unfold unknownEnum, blocked, claimMap, groupOf.
  destruct (match oldVal with VInt W0 n => _ | _ => false end); [|reflexivity].
  destruct (0 <? len defVal)%nat; [reflexivity|].
  destruct (0 <? len (Trim (Get f "uniqueid")))%nat; [|reflexivity].
  intros H. rewrite !lookup_insert_eq. simpl. f_equal.
  apply delete_insert_id. destruct (um !! _); [discriminate|reflexivity].
Qed.

Lemma qp_piece_nonempty (k x : string) :
  String.eqb ("" +:+ k +:+ "=" +:+ x) "" = false.
Proof. destruct k; reflexivity. Qed.

(** One turn of the query-string loop, read off the field alone. *)
Lemma queryParamsField_spec (E : Env) (s : Struct) (tagName excludeTagName : string)
    (out : string) (um : gmap string string) (f : Field) :
  queryParamsField E s tagName excludeTagName (out, um) f
  = match pieceVerdict (qpPiece E s tagName excludeTagName f) with
    | Emits p =>
        if blocked um f then (out, um)
        else (appendPiece "&" out p, claimMap um f)
    | _ => (out, um)
    end.
Proof.
  unfold pieceVerdict, qpPiece, queryParamsField.
  destruct (negb (String.eqb (outputKey f tagName) "-")); [|reflexivity].
  destruct (excludedBy f excludeTagName); [reflexivity|].
  rewrite !claimUniqueId_spec, blocked_empty.
  destruct (render E _ _) as [[buf skip] err].
  destruct (isSome err || skip).
  { simpl. destruct (blocked um f) eqn:Hb; [reflexivity|].
    rewrite releaseUniqueId_claimMap by assumption. reflexivity. }
  rewrite (unknownEnum_claimMap f _ _ _ ∅) by apply blocked_empty.
  destruct (blocked um f) eqn:Hb.
  { destruct (fst (unknownEnum _ _ _ _ _)); simpl; [|reflexivity].
    rewrite qp_piece_nonempty. reflexivity. }
  rewrite (unknownEnum_claimMap f _ _ _ um) by assumption.
  destruct (fst (unknownEnum _ _ _ _ _)); simpl; [|reflexivity].
  rewrite qp_piece_nonempty. unfold appendPiece. reflexivity.
Qed.

(** One turn of the JSON loop, read off the field alone. *)
Lemma jsonField_spec (E : Env) (s : Struct) (tagName excludeTagName : string)
    (out : string) (um : gmap string string) (f : Field) :
  jsonField E s tagName excludeTagName (out, um) f
  = match pieceVerdict (jsonPiece E s tagName excludeTagName f) with
    | Emits p =>
        if blocked um f then (out, um)
        else (appendPiece ", " out p, claimMap um f)
    | _ => (out, um)
    end.
Proof.
  unfold pieceVerdict, jsonPiece, jsonField.
  destruct (negb (String.eqb (outputKey f tagName) "-")); [|reflexivity].
  destruct (excludedBy f excludeTagName); [reflexivity|].
  rewrite !claimUniqueId_spec, blocked_empty.
  destruct (render E _ _) as [[buf skip] err].
  destruct (isSome err || skip).
  { simpl. destruct (blocked um f) eqn:Hb; [reflexivity|].
    rewrite releaseUniqueId_claimMap by assumption. reflexivity. }
  rewrite (unknownEnum_claimMap f _ _ _ ∅) by apply blocked_empty.
  destruct (blocked um f) eqn:Hb.
  { destruct (fst (unknownEnum _ _ _ _ _)); simpl; reflexivity. }
  rewrite (unknownEnum_claimMap f _ _ _ um) by assumption.
  destruct (fst (unknownEnum _ _ _ _ _)); simpl; [|reflexivity].
  unfold appendPiece. reflexivity.
Qed.

(** One turn of the CSV loop, read off the field alone. *)
Lemma csvMarshalField_spec (E : Env) (s : Struct) (csvLen : Z)
    (um : gmap string string) (f : Field) :
  csvMarshalField E s csvLen um f
  = match csvVerdict E s csvLen f with
    | Skips => CsvSkip um
    | Emits (tagPos, v) =>
        if blocked um f then CsvSkip um else CsvWrite tagPos v (claimMap um f)
    | Aborts (p, e) => if blocked um f then CsvSkip um else CsvReturn p e
    end.
Proof.
  unfold csvVerdict, csvMarshalField.
  destruct (CanSet f); [|reflexivity].
  destruct (ParseInt32 E _) as [tagPos ok].
  destruct (negb ok || (tagPos <? 0) || (csvLen - 1 <? tagPos)); [reflexivity|].
  rewrite !claimUniqueId_spec, blocked_empty.
  destruct (parseSize E f) as [[sizeMin sizeMax] tagModulo].
  destruct (parseRange E f) as [rangeMin rangeMax].
  destruct (applyGetter E s f _) as [o hasGetter].
  destruct (render E _ _) as [[fv skip] e].
  destruct e as [e|].
  { destruct (blocked um f); reflexivity. }
  destruct skip.
  { destruct (blocked um f) eqn:Hb; [reflexivity|].
    rewrite releaseUniqueId_claimMap by assumption. reflexivity. }
  rewrite (unknownEnum_claimMap f _ _ _ ∅) by apply blocked_empty.
  destruct (blocked um f) eqn:Hb.
  { destruct (fst (unknownEnum _ _ _ _ _)); simpl; [|reflexivity].
    repeat match goal with
           | |- context [match ?x with _ => _ end] =>
               lazymatch x with
               | context [match _ with _ => _ end] => fail
               | _ => destruct x
               end
           end; reflexivity. }
  rewrite (unknownEnum_claimMap f _ _ _ um) by assumption.
  destruct (fst (unknownEnum _ _ _ _ _)); simpl; [|reflexivity].
  repeat match goal with
         | |- context [match ?x with _ => _ end] =>
             lazymatch x with
             | context [match _ with _ => _ end] => fail
             | _ => destruct x
             end
         end; reflexivity.
Qed.

Section Walk.

Context {A P R : Type}.
Variable put : A -> P -> A.
Variable verdict : Field -> Verdict P R.
Variable turn : A -> gmap string string -> Field -> (A * gmap string string) + R.

Hypothesis turn_spec : forall acc um f,
  turn acc um f
  = match verdict f with
    | Skips => inl (acc, um)
    | Emits p => if blocked um f then inl (acc, um) else inl (put acc p, claimMap um f)
    | Aborts r => if blocked um f then inl (acc, um) else inr r
    end.

Lemma tracks_snoc_idle (before : list Field) (um : gmap string string) (f : Field) :
  tracks verdict before um ->
  emits (verdict f) = false \/ blocked um f = true ->
  tracks verdict (before ++ [f]) um.
Proof.
  intros Ht Hf x. rewrite existsb_app, <- Ht. simpl. rewrite orb_false_r.
  destruct Hf as [Hf|Hf].
  - rewrite Hf, andb_false_r, orb_false_r. reflexivity.
  - destruct (sameGroup f x) eqn:Hs; simpl; [|rewrite orb_false_r; reflexivity].
    rewrite (blocked_sameGroup um f x Hs), Hf. reflexivity.
Qed.

Lemma tracks_snoc_claim (before : list Field) (um : gmap string string) (f : Field) :
  tracks verdict before um ->
  emits (verdict f) = true ->
  tracks verdict (before ++ [f]) (claimMap um f).
Proof.
  intros Ht Hf x. rewrite existsb_app, <- Ht, blocked_claimMap. simpl.
  rewrite Hf, andb_true_r, orb_false_r. reflexivity.
Qed.

Lemma walk_firstProducers (fs before : list Field) (acc : A)
    (um : gmap string string) :
  tracks verdict before um ->
  walk turn fs acc um
  = match firstProducers verdict before fs with
    | inl ps => inl (fold_left put (snd <$> ps) acc)
    | inr r => inr r
    end.
Proof.
  revert before acc um. induction fs as [|f fs IH]; intros before acc um Ht; simpl.
  - reflexivity.
  - rewrite turn_spec, <- (Ht f).
    destruct (blocked um f) eqn:Hb.
    + assert (Ht' : tracks verdict (before ++ [f]) um)
        by (apply tracks_snoc_idle; auto).
      destruct (verdict f); apply IH, Ht'.
    + destruct (verdict f) as [|p|r] eqn:Hv.
      * apply IH, tracks_snoc_idle; [assumption|]. left. rewrite Hv. reflexivity.
      * rewrite (IH (before ++ [f]) (put acc p) (claimMap um f)).
        -- destruct (firstProducers verdict (before ++ [f]) fs); reflexivity.
        -- apply tracks_snoc_claim; [assumption|]. rewrite Hv. reflexivity.
      * reflexivity.
Qed.

(** Entries of the result never share a group with an earlier producer, nor
    with each other. *)
Lemma firstProducers_apart (fs before : list Field) (ps : list (Field * P)) :
  firstProducers verdict before fs = inl ps ->
  (forall g q h, (g, q) ∈ ps -> h ∈ before -> emits (verdict h) = true ->
                 sameGroup h g = false)
  /\ (forall i j g q h r, ps !! i = Some (g, q) -> ps !! j = Some (h, r) ->
                          i <> j -> sameGroup g h = false).
Proof.
  revert before ps. induction fs as [|f fs IH]; intros before ps; simpl.
  - intros [= <-]. split.
    + intros g q h Hin. inversion Hin.
    + intros i j g q h r Hi. rewrite lookup_nil in Hi. discriminate.
  - assert (Hweaken : forall ps',
        firstProducers verdict (before ++ [f]) fs = inl ps' ->
        (forall g q h, (g, q) ∈ ps' -> h ∈ before -> emits (verdict h) = true ->
                       sameGroup h g = false)
        /\ (forall i j g q h r, ps' !! i = Some (g, q) -> ps' !! j = Some (h, r) ->
                                i <> j -> sameGroup g h = false)).
    { intros ps' Hps'. destruct (IH _ _ Hps') as [Ha Hb]. split; [|exact Hb].
      intros g q h Hin Hh. apply (Ha g q h Hin). apply elem_of_app. left. exact Hh. }
    destruct (existsb _ before) eqn:Hblk; [apply Hweaken|].
    destruct (verdict f) as [|p|r] eqn:Hv; [apply Hweaken| |discriminate].
    destruct (firstProducers verdict (before ++ [f]) fs) as [ps'|] eqn:Hps';
      [|discriminate].
    intros [= <-]. destruct (IH _ _ Hps') as [Ha Hb].
    assert (Hf : forall g q, (g, q) ∈ ps' -> sameGroup f g = false).
    { intros g q Hin. apply (Ha g q f Hin).
      - apply elem_of_app. right. apply list_elem_of_singleton. reflexivity.
      - rewrite Hv. reflexivity. }
    split.
    + intros g q h Hin Hh Hem. apply elem_of_cons in Hin as [[= -> ->]|Hin].
      * destruct (sameGroup h f) eqn:Hs; [|reflexivity].
        assert (existsb (fun g => sameGroup g f && emits (verdict g)) before = true).
        { apply existsb_exists. exists h. split.
          - apply list_elem_of_In. exact Hh.
          - rewrite Hs, Hem. reflexivity. }
        congruence.
      * apply (Ha g q h Hin); [|exact Hem]. apply elem_of_app. left. exact Hh.
    + intros i j g q h r Hi Hj Hij.
      destruct i as [|i], j as [|j]; simpl in Hi, Hj.
      * contradiction.
      * injection Hi as -> ->. apply (Hf h r).
        apply list_elem_of_lookup. exists j. exact Hj.
      * injection Hj as -> ->. rewrite sameGroup_sym. apply (Hf g q).
        apply list_elem_of_lookup. exists i. exact Hi.
      * apply (Hb i j g q h r Hi Hj). congruence.
Qed.

End Walk.

Lemma tracks_nil {P R} (verdict : Field -> Verdict P R) : tracks verdict [] ∅.
Proof. intros x. apply blocked_empty. Qed.

Lemma fold_left_walk {A} (step : A * gmap string string -> Field -> A * gmap string string)
    (fs : list Field) (acc : A) (um : gmap string string) :
  walk (R := Empty_set) (fun acc um f => inl (step (acc, um) f)) fs acc um
  = inl (fst (fold_left step fs (acc, um))).
Proof.
  revert acc um. induction fs as [|f fs IH]; intros acc um; simpl.
  - reflexivity.
  - destruct (step (acc, um) f) as [acc' um']. apply IH.
Qed.

Lemma csvMarshalLoop_walk (E : Env) (s : Struct) (csvLen : Z) (fs : list Field)
    (csvList : list string) (um : gmap string string) :
  csvMarshalLoop E s csvLen fs csvList um
  = walk (fun csvList um f =>
            match csvMarshalField E s csvLen um f with
            | CsvSkip um' => inl (csvList, um')
            | CsvWrite tagPos v um' => inl (writeSlot csvList (tagPos, v), um')
            | CsvReturn p e => inr (p, e)
            end) fs csvList um.
Proof.
  revert csvList um. induction fs as [|f fs IH]; intros csvList um; simpl.
  - reflexivity.
  - destruct (csvMarshalField E s csvLen um f); try apply IH. reflexivity.
Qed.

(** The output of a text marshal loop whose turn follows the field verdicts. *)
Lemma text_loop_firstProducers
    (step : string * gmap string string -> Field -> string * gmap string string)
    (piece : Field -> string) (sep : string) (fs : list Field) :
  (forall out um f,
     step (out, um) f
     = match pieceVerdict (piece f) with
       | Emits p =>
           if blocked um f then (out, um)
           else (appendPiece sep out p, claimMap um f)
       | _ => (out, um)
       end) ->
  exists ps,
    firstProducers (fun f => pieceVerdict (piece f)) [] fs = inl ps
    /\ fst (fold_left step fs ("", ∅)) = joinPieces sep (snd <$> ps).
Proof.
  intros Hstep.
  pose proof (walk_firstProducers (appendPiece sep)
                (fun f => pieceVerdict (piece f))
                (fun out um f => inl (step (out, um) f))) as Hw.
  specialize (Hw ltac:(intros out um f; cbv beta; rewrite Hstep;
                       destruct (pieceVerdict (piece f)) as [|p|[]];
                       [reflexivity|destruct (blocked um f); reflexivity])).
  specialize (Hw fs [] "" ∅ (tracks_nil _)).
  rewrite fold_left_walk in Hw.
  destruct (firstProducers _ [] fs) as [ps|[]].
  exists ps. split; [reflexivity|]. injection Hw as Hw. exact Hw.
Qed.

(** C4.  In the three marshalers, the fields that reach the output are the
    first producers of their unique groups: a field puts its piece exactly
    when it produces one and no earlier field of its group did (a field that
    is skipped, or fails to render in the two text marshalers, gives its claim
    back); hence no two fields of one group appear.  In [MarshalStructToCSV] a
    field that fails while its group is free makes the whole call return the
    error. *)
Theorem unique_group_first_producer (E : Env) (s : Struct)
    (tagName excludeTagName csvDelimiter : string) :
  LenTrim tagName <> 0%nat ->
  (exists ps,
     firstProducers (fun f => pieceVerdict (qpPiece E s tagName excludeTagName f))
       [] (Fields s) = inl ps
     /\ MarshalStructToQueryParams E (InPtr s) tagName excludeTagName
        = let output := joinPieces "&" (snd <$> ps) in
          if (LenTrim output =? 0)%nat
          then ("", Some (Errorf "MarshalStructToQueryParams Yielded Blank Output" []))
          else (output, None))
  /\ (exists ps,
        firstProducers (fun f => pieceVerdict (jsonPiece E s tagName excludeTagName f))
          [] (Fields s) = inl ps
        /\ MarshalStructToJson E (InPtr s) tagName excludeTagName
           = let output := joinPieces ", " (snd <$> ps) in
             if (LenTrim output =? 0)%nat
             then ("", Some (Errorf "MarshalStructToJson Yielded Blank Output" []))
             else ("{" +:+ output +:+ "}", None))
  /\ MarshalStructToCSV E (InPtr s) csvDelimiter
     = (if negb (IsStructFieldSet E (InPtr s))
           && (0 <? StructNonDefaultRequiredFieldsCount (InPtr s))
        then ("", None)
        else
          match firstProducers (csvVerdict E s (Z.of_nat (length (Fields s))))
                  [] (Fields s) with
          | inl ps =>
              (csvJoin csvDelimiter
                 (fold_left writeSlot (snd <$> ps)
                    (replicate (length (Fields s)) "{?}")), None)
          | inr r => r
          end)
  /\ (forall P R (verdict : Field -> Verdict P R) ps i j f p g q,
        firstProducers verdict [] (Fields s) = inl ps ->
        ps !! i = Some (f, p) -> ps !! j = Some (g, q) -> i <> j ->
        sameGroup f g = false).
Proof.
  intros Htag. apply Nat.eqb_neq in Htag.
  split; [|split; [|split]].
  - destruct (text_loop_firstProducers
                (queryParamsField E s tagName excludeTagName)
                (qpPiece E s tagName excludeTagName) "&" (Fields s))
      as (ps & Hps & Hout).
    { intros. apply queryParamsField_spec. }
    exists ps. split; [exact Hps|].
    unfold MarshalStructToQueryParams. rewrite Htag.
    destruct (fold_left _ _ _) as [output um]. simpl in Hout. subst output.
    reflexivity.
  - destruct (text_loop_firstProducers
                (jsonField E s tagName excludeTagName)
                (jsonPiece E s tagName excludeTagName) ", " (Fields s))
      as (ps & Hps & Hout).
    { intros. apply jsonField_spec. }
    exists ps. split; [exact Hps|].
    unfold MarshalStructToJson. rewrite Htag.
    destruct (fold_left _ _ _) as [output um]. simpl in Hout. subst output.
    reflexivity.
  - unfold MarshalStructToCSV.
    destruct (negb _ && _); [reflexivity|].
    rewrite length_replicate, csvMarshalLoop_walk.
    rewrite (walk_firstProducers writeSlot
               (csvVerdict E s (Z.of_nat (length (Fields s))))) with (before := []).
    + destruct (firstProducers _ [] (Fields s)) as [ps|[p e]]; reflexivity.
    + intros acc um f. rewrite csvMarshalField_spec.
      destruct (csvVerdict _ _ _ f) as [|[tagPos v]|[p e]];
        [reflexivity|destruct (blocked um f); reflexivity..].
    + apply tracks_nil.
  - intros P R verdict ps i j f p g q Hps Hi Hj Hij.
    destruct (firstProducers_apart verdict _ _ _ Hps) as [_ Hb].
    exact (Hb i j f p g q Hi Hj Hij).
Qed.

(** Of three phone numbers in one group, the blank first one is skipped, the
    second is written, the third is passed over. *)
Lemma unique_group_first_producer_witness :
  MarshalStructToQueryParams go_env (InPtr contact) "q" "" = ("mobile=555", None)
  /\ MarshalStructToCSV go_env (InPtr contact) "," = ("555", None).
Proof.
  destruct (unique_group_first_producer go_env contact "q" "" ",")
    as ((ps & Hps & Hqp) & _ & Hcsv & _).
  - vm_compute. discriminate.
  - split.
    + rewrite Hqp. vm_compute in Hps. injection Hps as <-. vm_compute. reflexivity.
    + rewrite Hcsv. vm_compute. reflexivity.
Defined.

(** ** The field loops of the readers *)

Ltac break_match :=
  repeat match goal with
         | |- context [match ?x with _ => _ end] =>
             lazymatch x with
             | context [match _ with _ => _ end] => fail
             | _ => destruct x eqn:?
             end
         end.

Lemma setField_agreeExcept (s : Struct) (i : nat) (f : Field) (v : Value) :
  agreeExcept i s (setField s i f v).
Proof.
  intros j Hj. unfold setField. simpl. apply list_lookup_insert_ne. congruence.
Qed.

Lemma agreeExcept_refl (i : nat) (s : Struct) : agreeExcept i s s.
Proof. intros j _. reflexivity. Qed.

Lemma agreeExcept_trans (i : nat) (s s' s'' : Struct) :
  agreeExcept i s s' -> agreeExcept i s' s'' -> agreeExcept i s s''.
Proof. intros H1 H2 j Hj. rewrite (H2 j Hj). apply (H1 j Hj). Qed.

Lemma setterOnReference_agreeExcept (E : Env) (s : Struct) (i : nat) (f : Field)
    (o : Value) (isBase : bool) (tagSetter value : string) (s' : Struct) :
  setterOnReference E s i f o isBase tagSetter value = inl s' ->
  agreeExcept i s s'.
Proof.
  unfold setterOnReference. intros H.
  repeat match type of H with
         | context [match ?x with _ => _ end] =>
             lazymatch x with
             | context [match _ with _ => _ end] => fail
             | _ => destruct x eqn:?
             end
         end;
    try discriminate; injection H as <-;
    repeat first
      [ apply agreeExcept_refl
      | apply setField_agreeExcept
      | eapply agreeExcept_trans; [apply setField_agreeExcept|] ].
Qed.

Lemma setterOnReference_error (E : Env) (s : Struct) (i : nat) (f : Field)
    (o : Value) (isBase : bool) (tagSetter value : string) (e : Error) :
  setterOnReference E s i f o isBase tagSetter value = inr e ->
  e = Errorf "%s Struct Field %s is Interface Without Actual Object Assignment"
        [AStr (TypeName s); AStr (typeString o)].
Proof.
  unfold setterOnReference. intros H.
  repeat match type of H with
         | context [match ?x with _ => _ end] =>
             lazymatch x with
             | context [match _ with _ => _ end] => fail
             | _ => destruct x eqn:?
             end
         end;
    congruence.
Qed.

Lemma csvReadSize_error (E : Env) (f : Field) (tagType : string) (sizeMax tagModulo : Z)
    (csvValue : string) (e : Error) :
  csvReadSize f tagType sizeMax tagModulo csvValue = inr e ->
  e = Errorf "Struct Field %s Expects Value In Blocks of %d Characters"
        [AStr (Name f); AInt tagModulo].
Proof.
  unfold csvReadSize. intros H.
  repeat match type of H with
         | context [if ?x then _ else _] => destruct x
         end; congruence.
Qed.

Lemma compareValidation_error (E : Env) (f : Field) (valComp valData text tagReq : string)
    (e : Error) (single : bool) :
  compareValidation E f valComp valData text tagReq = Some (e, single) ->
  isValidationError e = true
  /\ (single = false ->
      (length (Split valData "||") <=? 1)%nat && (length (Split valData "&&") <=? 1)%nat
      = false).
Proof.
  unfold compareValidation. intros H.
  destruct (String.eqb valComp "==").
  { destruct (length (Split valData "||") <=? 1)%nat eqn:Hl;
      destruct (_ && _) in H; inversion H; subst; split;
        try reflexivity; try discriminate. }
  destruct (String.eqb valComp "!=").
  { destruct (length (Split valData "&&") <=? 1)%nat eqn:Hl;
      destruct (_ && _) in H; inversion H; subst; split;
        try reflexivity; try discriminate.
    intros _. apply andb_false_r. }
  repeat match type of H with
         | context [if String.eqb ?a ?b then _ else _] => destruct (String.eqb a b)
         end;
    try discriminate;
    destruct (ParseFloat64 E valData) as [valNum [|]]; try discriminate;
    destruct (_ && _) in H; inversion H; subst; split;
      try reflexivity; discriminate.
Qed.

Lemma validatorCall_error (E : Env) (s : Struct) (f : Field) (valData : string)
    (e : Error) :
  validatorCall E s f valData = Some e -> isValidationError e = true.
Proof.
  unfold validatorCall. intros H.
  repeat match type of H with
         | context [match ?x with _ => _ end] =>
             lazymatch x with
             | context [match _ with _ => _ end] => fail
             | _ => destruct x eqn:?
             end
         end; inversion H; subst; reflexivity.
Qed.

Lemma csvUnmarshalField_outcome (E : Env) (csvElements : list string)
    (m : gmap string string) (s : Struct) (i : nat) (f : Field) :
  csvTurnOutcome s i f (csvUnmarshalField E csvElements m s i f).
Proof.
  unfold csvUnmarshalField. cbv zeta.
  break_match; unfold csvTurnOutcome;
    repeat match goal with
           | H : csvReadSize _ _ _ _ _ = inr _ |- _ =>
               apply (csvReadSize_error E) in H; subst
           | H : compareValidation _ _ _ _ _ _ = Some _ |- _ =>
               apply compareValidation_error in H; destruct H
           | H : validatorCall _ _ _ _ = Some _ |- _ =>
               apply validatorCall_error in H
           | H : setterOnReference _ _ _ _ _ _ _ _ = inl _ |- _ =>
               apply setterOnReference_agreeExcept in H
           | H : setterOnReference _ _ _ _ _ _ _ _ = inr _ |- _ =>
               apply setterOnReference_error in H; subst
           end;
    try reflexivity; try assumption;
    try apply agreeExcept_refl; try apply setField_agreeExcept.
  all: try (left; eexists; split; [reflexivity|]; apply setField_agreeExcept).
  all: try (right; left; eexists _, _; split; [reflexivity|]; split; reflexivity).
  all: try (right; right; split; [assumption|]; left; eexists; reflexivity).
  all: try (right; right; split; [assumption|]; right; split; [|reflexivity];
    unfold singleValued;
    match goal with H : false = false -> _ |- _ => apply H; reflexivity end).
Qed.

Lemma jsonUnmarshalField_outcome (E : Env) (jsonMap : gmap string string)
    (tagName excludeTagName : string) (s : Struct) (i : nat) (f : Field) :
  jsonTurnOutcome s i (jsonUnmarshalField E jsonMap tagName excludeTagName tt s i f).
Proof.
  unfold jsonUnmarshalField. cbv zeta.
  break_match; unfold jsonTurnOutcome;
    repeat match goal with
           | H : setterOnReference _ _ _ _ _ _ _ _ = inl _ |- _ =>
               apply setterOnReference_agreeExcept in H
           end;
    try assumption; try apply agreeExcept_refl; try apply setField_agreeExcept.
Qed.

Lemma validation_not_reader (format : string) :
  StringSliceContains readerFormats format = true ->
  StringSliceContains validationFormats format = false.
Proof.
  unfold StringSliceContains, readerFormats. simpl. intros H.
  repeat (apply orb_true_iff in H as [H|H]); try discriminate;
    apply String.eqb_eq in H; subst; reflexivity.
Qed.


(** A validation error that leaves the field loop of the CSV reader comes
    with a cleared record, as long as the fields still to visit compare
    against single values. *)
Lemma csv_loop_validation (E : Env) (csvElements : list string) (n i : nat)
    (m : gmap string string) (s s' : Struct) (e : Error) :
  (forall j f, (i <= j)%nat -> Fields s !! j = Some f -> singleValued f = true) ->
  fieldLoop (csvUnmarshalField E csvElements) n i m s = (Some e, s') ->
  isValidationError e = true ->
  exists s'', s' = clearFields s''.
Proof.
  revert i m s. induction n as [|n IH]; intros i m s Hsingle Hloop Hval; simpl in Hloop.
  - discriminate.
  - destruct (Fields s !! i) as [f|] eqn:Hf; [|discriminate].
    pose proof (csvUnmarshalField_outcome E csvElements m s i f) as Hout.
    destruct (csvUnmarshalField E csvElements m s i f) as [m1 s1|[e1|] s1];
      simpl in Hout.
    + apply (IH (S i) m1 s1); [|assumption..].
      intros j g Hj Hg. apply (Hsingle j g); [lia|].
      rewrite <- Hg. symmetry. apply Hout. lia.
    + injection Hloop as -> ->.
      destruct Hout as [(msg & -> & _)|[(format & args & -> & Hfmt & _)|(_ & [Hc|[Hs _]])]].
      * discriminate.
      * change (StringSliceContains validationFormats format = true) in Hval.
        rewrite (validation_not_reader _ Hfmt) in Hval. discriminate.
      * exact Hc.
      * rewrite (Hsingle i f) in Hs; [discriminate|lia|assumption].
    + discriminate.
Qed.


(** A field whose ordinal position lies beyond the tokens makes the loop
    return without an error and without touching the struct. *)
Lemma csvUnmarshalField_beyond (E : Env) (csvElements : list string)
    (m : gmap string string) (s : Struct) (i : nat) (field : Field) (p : Z) :
  CanSet field = true ->
  ParseInt32 E (Get field "pos") = (p, true) ->
  0 <= p ->
  Get field "pos" <> "-" ->
  LenTrim (Trim (Get field "outprefix")) = 0%nat ->
  Z.of_nat (length csvElements) <= p ->
  csvUnmarshalField E csvElements m s i field = Return None s.
Proof.
  intros Hset Hpos Hp Hdash Hpre Hlen. unfold csvUnmarshalField.
  rewrite Hset, Hpos. simpl.
  destruct (p <? 0) eqn:Hneg; [apply Z.ltb_lt in Hneg; lia|].
  destruct (parseSize E field) as [[sizeMin sizeMax] tagModulo].
  apply negb_eqb_true in Hdash. rewrite Hdash, Hpre. simpl.
  destruct (Z.of_nat (length csvElements) - 1 <? p) eqn:Hlt; [reflexivity|].
  apply Z.ltb_ge in Hlt. lia.
Qed.

Lemma csv_loop_truncation (E : Env) (csvElements : list string) (field : Field)
    (p : Z) (k n i : nat) (m : gmap string string) (s : Struct) :
  CanSet field = true ->
  ParseInt32 E (Get field "pos") = (p, true) ->
  0 <= p ->
  Get field "pos" <> "-" ->
  LenTrim (Trim (Get field "outprefix")) = 0%nat ->
  Z.of_nat (length csvElements) <= p ->
  Fields s !! (i + k)%nat = Some field ->
  fst (fieldLoop (csvUnmarshalField E csvElements) k i m s) = None ->
  exists s',
    fieldLoop (csvUnmarshalField E csvElements) (k + S n) i m s = (None, s')
    /\ agreeFrom (i + k) s s'.
Proof.
  intros Hset Hpos Hp Hdash Hpre Hlen.
  revert i m s. induction k as [|k IH]; intros i m s Hfield Hloop.
  - rewrite Nat.add_0_r in Hfield. simpl. rewrite Hfield.
    rewrite (csvUnmarshalField_beyond E csvElements m s i field p) by assumption.
    exists s. split; [reflexivity|]. intros j _. reflexivity.
  - simpl in Hloop |- *.
    destruct (Fields s !! i) as [f|] eqn:Hf.
    2: { exists s. split; [reflexivity|]. intros j _. reflexivity. }
    pose proof (csvUnmarshalField_outcome E csvElements m s i f) as Hout.
    destruct (csvUnmarshalField E csvElements m s i f) as [m1 s1|[e1|] s1];
      simpl in Hout, Hloop.
    + destruct (IH (S i) m1 s1) as (s' & Hs' & Hagree).
      * rewrite <- Hfield. replace (S i + k)%nat with (i + S k)%nat by lia.
        apply Hout. lia.
      * exact Hloop.
      * exists s'. split; [exact Hs'|].
        intros j Hj. rewrite (Hagree j) by lia. apply Hout. lia.
    + discriminate.
    + subst s1. exists s. split; [reflexivity|]. intros j _. reflexivity.
Qed.

Lemma post_default_tag (E : Env) (s : Struct) (j : nat) (f : Field) :
  Fields (applyDefaults E (clearFields s)) !! j = Some f ->
  exists f0, Fields s !! j = Some f0 /\ Tag f = Tag f0 /\ CanSet f = CanSet f0
             /\ Name f = Name f0.
Proof.
  unfold applyDefaults, clearFields. simpl. rewrite !list_lookup_fmap.
  destruct (Fields s !! j) as [f0|]; simpl; [|discriminate].
  intros [= <-]. exists f0. split; [reflexivity|].
  unfold defaultField, clearField.
  destruct (CanSet f0) eqn:Hc; simpl; rewrite ?Hc; simpl;
    repeat match goal with |- context [if ?x then _ else _] => destruct x end;
    simpl; auto.
Qed.

(** ** UnmarshalCSVToStruct: ordinal truncation *)

(** C6 (as amended).  In ordinal mode, when the walk reaches a field whose
    position lies beyond the tokens of the payload - that is, when no earlier
    field has made the call fail - the call returns no error, and that field
    and every field declared after it keep their post-default values (the
    values after clearing and applying the declared defaults). *)
Theorem csv_ordinal_truncation (E : Env) (s : Struct)
    (csvPayload csvDelimiter : string)
    (customDelimiterParserFunc : option (string -> list string))
    (k : nat) (field : Field) (p : Z) :
  let csvElements := splitPayload csvPayload csvDelimiter customDelimiterParserFunc in
  let s0 := applyDefaults E (clearFields s) in
  LenTrim csvPayload <> 0%nat ->
  (len csvDelimiter =? 0)%nat && negb (isSome customDelimiterParserFunc) = false ->
  csvElements <> [] ->
  Fields s0 !! k = Some field ->
  CanSet field = true ->
  ParseInt32 E (Get field "pos") = (p, true) ->
  0 <= p ->
  Get field "pos" <> "-" ->
  LenTrim (Trim (Get field "outprefix")) = 0%nat ->
  Z.of_nat (length csvElements) <= p ->
  fst (fieldLoop (csvUnmarshalField E csvElements) k 0 ∅ s0) = None ->
  exists s',
    UnmarshalCSVToStruct E (InPtr s) csvPayload csvDelimiter customDelimiterParserFunc
    = (None, InPtr s')
    /\ agreeFrom k s0 s'.
Proof.
  intros csvElements s0 Hpayload Hdelim Hne Hfield Hset Hpos Hp Hdash Hpre Hlen Hloop.
  unfold UnmarshalCSVToStruct. apply Nat.eqb_neq in Hpayload.
  rewrite Hpayload, Hdelim. fold csvElements.
  destruct (length csvElements =? 0)%nat eqn:Hz.
  { apply Nat.eqb_eq in Hz. destruct csvElements; [contradiction|discriminate]. }
  fold s0.
  assert (Hk : (k < length (Fields s0))%nat) by (eapply lookup_lt_Some; eassumption).
  replace (length (Fields s0)) with (k + S (length (Fields s0) - S k))%nat by lia.
  destruct (csv_loop_truncation E csvElements field p k
              (length (Fields s0) - S k) 0 ∅ s0) as (s' & Hs' & Hagree);
    try assumption.
  rewrite Hs'. exists s'. split; [reflexivity|exact Hagree].
Qed.

(** A one-token payload for a record with three positions: the second and
    third fields keep their post-default values. *)
Lemma csv_ordinal_truncation_witness :
  exists s',
    UnmarshalCSVToStruct go_env (InPtr row) "xy12z" "," None = (None, InPtr s')
    /\ agreeFrom 1 (applyDefaults go_env (clearFields row)) s'.
Proof.
  apply (csv_ordinal_truncation go_env row "xy12z" "," None 1
           (intField "B" [("pos", "1"); ("type", "n"); ("range", "1..5"); ("def", "3")] 3)
           1);
    try reflexivity; try discriminate; vm_compute; congruence.
Defined.

(** C6, counterexample: the payload has one token for two positions, and
    the call fails on the validation of the first field. *)
Lemma csv_ordinal_truncation_counterexample :
  (length (splitPayload "y" "," None) < length (Fields guarded))%nat
  /\ fst (UnmarshalCSVToStruct go_env (InPtr guarded) "y" "," None)
     = Some (Errorf "%s Validation Failed: Expected To Match '%s', But Received '%s'"
               [AStr "Kind"; AStr "x"; AStr "y"]).
Proof. split; vm_compute; [lia|reflexivity]. Qed.

(** ** The readers: reset on failure *)

(** C2 (as amended).  [UnmarshalCSVToStruct] clears the record before it
    returns the error of a failed [validate] rule, for records whose rules
    compare against single values or call a validator.  The other errors are
    returned without a reset: a turn of [UnmarshalJsonToStruct] that fails
    leaves every other field as the walk set it, and so does a turn of
    [UnmarshalCSVToStruct] that fails on the conversion of the text. *)
Theorem unmarshal_error_reset (E : Env) :
  (forall s csvPayload csvDelimiter customDelimiterParserFunc e inp',
     UnmarshalCSVToStruct E (InPtr s) csvPayload csvDelimiter customDelimiterParserFunc
     = (Some e, inp') ->
     isValidationError e = true ->
     Forall (fun f => singleValued f = true) (Fields s) ->
     exists s'', inp' = InPtr (clearFields s''))
  /\ (forall jsonMap tagName excludeTagName s i f,
        jsonTurnOutcome s i
          (jsonUnmarshalField E jsonMap tagName excludeTagName tt s i f))
  /\ (forall csvElements m s i f msg s',
        csvUnmarshalField E csvElements m s i f = Return (Some (Foreign msg)) s' ->
        agreeExcept i s s').
Proof.
  split; [|split].
  - intros s csvPayload csvDelimiter custom e inp' Hcall Hval Hsingle.
    unfold UnmarshalCSVToStruct in Hcall.
    destruct (LenTrim csvPayload =? 0)%nat;
      [injection Hcall as <- <-; discriminate|].
    destruct (_ && _); [injection Hcall as <- <-; discriminate|].
    destruct (length _ =? 0)%nat; [injection Hcall as <- <-; discriminate|].
    destruct (fieldLoop _ _ _ _ _) as [e' s'] eqn:Hloop.
    injection Hcall as -> <-.
    assert (Hpost : forall j f, (0 <= j)%nat ->
              Fields (applyDefaults E (clearFields s)) !! j = Some f ->
              singleValued f = true).
    { intros j f _ Hf. apply post_default_tag in Hf as (f0 & Hf0 & Htag & _).
      rewrite Forall_forall in Hsingle.
      assert (Hs0 : singleValued f0 = true).
      { apply Hsingle. apply list_elem_of_lookup. exists j. exact Hf0. }
      unfold singleValued, Get in *. rewrite Htag. exact Hs0. }
    destruct (csv_loop_validation E _ _ _ _ _ _ _ Hpost Hloop Hval) as (s'' & ->).
    exists s''. reflexivity.
  - intros. apply jsonUnmarshalField_outcome.
  - intros csvElements m s i f msg s' Hturn.
    pose proof (csvUnmarshalField_outcome E csvElements m s i f) as Hout.
    rewrite Hturn in Hout. simpl in Hout.
    destruct Hout as [(msg' & _ & Hagree)|[(format & args & Habs & _)|(Habs & _)]].
    + exact Hagree.
    + discriminate.
    + discriminate.
Qed.

(** The validation of the first field fails and the record comes back
    cleared. *)
Lemma unmarshal_error_reset_witness :
  exists s'',
    snd (UnmarshalCSVToStruct go_env (InPtr guarded) "y,note" "," None)
    = InPtr (clearFields s'').
Proof.
  destruct (unmarshal_error_reset go_env) as (Hreset & _).
  destruct (UnmarshalCSVToStruct go_env (InPtr guarded) "y,note" "," None)
    as [e inp'] eqn:Hcall.
  assert (He : e = Some (Errorf "%s Validation Failed: Expected To Match '%s', But Received '%s'"
                           [AStr "Kind"; AStr "x"; AStr "y"])).
  { vm_compute in Hcall. congruence. }
  subst e. simpl.
  apply (Hreset guarded "y,note" "," None _ inp' Hcall); [reflexivity|].
  repeat constructor.
Defined.

(** C2, counterexample: the second field cannot take a text; both readers
    return the conversion error with the first field populated.  The modulo
    error of the CSV reader behaves alike. *)
Lemma unmarshal_error_reset_counterexample :
  UnmarshalJsonToStruct go_env (InPtr tagged)
    (jsonObjectOf [("a", "x"); ("b", "y")]) "json" ""
  = (Some (Foreign "map[string]string Unhandled"),
     InPtr (mkStruct "Tagged"
              [strField "A" [("pos", "0"); ("json", "a")] "x";
               mkField "B" [("pos", "1"); ("json", "b")] true
                 (VOpaque OMap "map[string]string" None)]))
  /\ UnmarshalCSVToStruct go_env (InPtr tagged) "x,y" "," None
     = (Some (Foreign "map[string]string Unhandled"),
        InPtr (mkStruct "Tagged"
                 [strField "A" [("pos", "0"); ("json", "a")] "x";
                  mkField "B" [("pos", "1"); ("json", "b")] true
                    (VOpaque OMap "map[string]string" None)]))
  /\ UnmarshalCSVToStruct go_env (InPtr blocks) "hello,abc" "," None
     = (Some (Errorf "Struct Field %s Expects Value In Blocks of %d Characters"
                [AStr "B"; AInt 2]),
        InPtr (mkStruct "Blocks"
                 [strField "A" [("pos", "0")] "hello";
                  strField "B" [("pos", "1"); ("type", "a"); ("size", "..4+%2")] ""])).
Proof. repeat split; vm_compute; reflexivity. Qed.

(** ** Size and range rules of the CSV functions *)



Lemma applyGetter_none (E : Env) (s : Struct) (field : Field) (t : TagOptions) :
  Trim (Get field "getter") = "" -> applyGetter E s field t = (Val field, false).
Proof. unfold applyGetter. intros ->. reflexivity. Qed.






(** ** Bool literal override *)

Lemma tagTypeOf_blank (field : Field) : Get field "type" = "" -> tagTypeOf field = "".
Proof. unfold tagTypeOf. intros ->. reflexivity. Qed.

Lemma tagReqOf_blank (field : Field) : Get field "req" = "" -> tagReqOf field = "".
Proof. unfold tagReqOf. intros ->. reflexivity. Qed.

(** C9.  For a [bool] field declaring [booltrue:"Y"] and [boolfalse:"N"]:
    when the renderer writes [true] as the literal "Y", each of the three
    marshalers puts the text "Y" for the field; and when "true" parses to
    [true], a turn of either reader on the text "Y" stores [true], because the
    text is first normalised to "true". *)
Theorem bool_literal_override (E : Env) (s : Struct)
    (tagName excludeTagName : string) (field : Field) :
  DeclaresYN E tagName excludeTagName field ->
  RendersYN E ->
  ParsesTrue E ->
  (* marshal: the value [true] *)
  (Val field = VBool true ->
   qpPiece E s tagName excludeTagName field
   = outputKey field tagName +:+ "=" +:+ PathEscape E "Y"
   /\ jsonPiece E s tagName excludeTagName field
      = dquote +:+ outputKey field tagName +:+ dquote +:+ ":" +:+ dquote
          +:+ JsonToEscaped E "Y" +:+ dquote
   /\ forall csvLen tagPos,
        ParseInt32 E (Get field "pos") = (tagPos, true) ->
        0 <= tagPos < csvLen ->
        csvVerdict E s csvLen field = Emits (tagPos, "Y"))
  (* unmarshal: the text "Y" *)
  /\ (forall b, Val field = VBool b ->
      (forall csvElements m i tagPos,
         ParseInt32 E (Get field "pos") = (tagPos, true) ->
         Get field "pos" <> "-" ->
         0 <= tagPos ->
         csvElements !! Z.to_nat tagPos = Some "Y" ->
         csvUnmarshalField E csvElements m s i field
         = Next m (setField s i field (VBool true)))
      /\ (forall jsonMap i raw,
            jsonMap !! outputKey field tagName = Some raw ->
            JsonFromEscaped E raw = "Y" ->
            jsonUnmarshalField E jsonMap tagName excludeTagName tt s i field
            = Next tt (setField s i field (VBool true)))).
Proof.
  intros [Hset Htrue Hfalse Hget Hsetter Hprefix Hdef Htype Hreq Hval Hkey Hnamed
            Hincl (Ht7 & Hf7 & Hp7) (Ht6 & Hf6)] Hrender Hparse.
  apply negb_eqb_true in Hnamed.
  split.
  - intros Hv. split; [|split].
    + unfold qpPiece, queryParamsField.
      rewrite Hnamed, Hincl, claimUniqueId_spec, blocked_empty.
      rewrite applyGetter_none by assumption. unfold render. simpl.
      rewrite Hv, Ht7, Hf7, Hrender, Hdef, Hp7. simpl.
      rewrite ?andb_false_r. reflexivity.
    + unfold jsonPiece, jsonField.
      rewrite Hnamed, Hincl, claimUniqueId_spec, blocked_empty.
      rewrite applyGetter_none by assumption. unfold render. simpl.
      unfold jsonFieldValue.
      rewrite Hv, Ht6, Hf6, Hrender, Hdef, Hprefix. simpl. reflexivity.
    + intros csvLen tagPos Hpos [Hlo Hhi]. unfold csvVerdict, csvMarshalField.
      rewrite Hset, Hpos. simpl.
      destruct (tagPos <? 0) eqn:Hneg; [apply Z.ltb_lt in Hneg; lia|].
      destruct (csvLen - 1 <? tagPos) eqn:Hbig; [apply Z.ltb_lt in Hbig; lia|].
      simpl. rewrite claimUniqueId_spec, blocked_empty.
      destruct (parseSize E field) as [[sizeMin sizeMax] tagModulo].
      destruct (parseRange E field) as [rangeMin rangeMax].
      rewrite applyGetter_none by assumption. unfold render.
      rewrite Hv, Ht7, Hf7, Hrender, Hdef.
      rewrite (tagTypeOf_blank field Htype), (tagReqOf_blank field Hreq), Hval, Hp7.
      simpl. rewrite ?Hf7. simpl. rewrite ?andb_false_r. reflexivity.
  - intros b Hv. split.
    + intros csvElements m i tagPos Hpos Hdash Hlo Htok. unfold csvUnmarshalField.
      rewrite Hset, Hpos. simpl.
      destruct (tagPos <? 0) eqn:Hneg; [apply Z.ltb_lt in Hneg; lia|].
      destruct (parseSize E field) as [[sizeMin sizeMax] tagModulo].
      apply negb_eqb_true in Hdash. rewrite Hdash, Hprefix. simpl.
      assert (Hin : (Z.to_nat tagPos < length csvElements)%nat)
        by (eapply lookup_lt_Some; eassumption).
      destruct (Z.of_nat (length csvElements) - 1 <? tagPos) eqn:Hbig;
        [apply Z.ltb_lt in Hbig; lia|].
      rewrite Htok. unfold csvBoolLiteral. rewrite Htrue, Hsetter. simpl.
      rewrite Hv. simpl.
      rewrite (tagTypeOf_blank field Htype), Hval. simpl.
      rewrite Hparse. reflexivity.
    + intros jsonMap i raw Hraw Hunesc. unfold jsonUnmarshalField.
      rewrite Hset, Hkey.
      assert (Hdash : String.eqb (Get field tagName) "-" = false).
      { unfold outputKey in Hnamed.
        destruct (LenTrim (Get field tagName) =? 0)%nat eqn:Hblank.
        - apply Nat.eqb_eq in Hblank. unfold LenTrim in Hblank. rewrite Hkey in Hblank.
          destruct (Get field tagName); [reflexivity|discriminate].
        - apply negb_true_iff in Hnamed. exact Hnamed. }
      rewrite Hdash, Hincl. unfold outputKey in Hraw. rewrite Hraw, Hunesc, Hsetter.
      simpl. rewrite Hv. unfold jsonBoolLiteral. rewrite Htrue, Hfalse, Hprefix.
      simpl. rewrite Hparse. reflexivity.
Qed.

(** The record [flag] in the reference environment: the field marshals to
    "Y", and "Y" unmarshals to [true]. *)
Lemma bool_literal_override_witness :
  jsonPiece go_env flag "json" ""
    (boolField "Active"
       [("json", "active"); ("pos", "0"); ("booltrue", "Y"); ("boolfalse", "N")] true)
  = quoted "active" +:+ ":" +:+ quoted "Y"
  /\ MarshalStructToJson go_env (InPtr flag) "json" ""
     = (jsonObjectOf [("active", "Y")], None)
  /\ MarshalStructToCSV go_env (InPtr flag) "," = ("Y", None)
  /\ UnmarshalCSVToStruct go_env (InPtr (clearFields flag)) "Y" "," None
     = (None, InPtr flag)
  /\ UnmarshalJsonToStruct go_env (InPtr (clearFields flag))
       (jsonObjectOf [("active", "Y")]) "json" ""
     = (None, InPtr flag).
Proof.
  destruct (bool_literal_override go_env flag "json" ""
              (boolField "Active"
                 [("json", "active"); ("pos", "0"); ("booltrue", "Y"); ("boolfalse", "N")]
                 true)) as [Hm _].
  - constructor; try reflexivity; try discriminate; repeat split; reflexivity.
  - intros [] [] tf []; reflexivity.
  - intros b tf. reflexivity.
  - split; [|repeat split; vm_compute; reflexivity].
    destruct (Hm eq_refl) as (_ & Hjson & _). rewrite Hjson. reflexivity.
Defined.

(** ** JSON round trip *)

Lemma trim_right_empty (s : string) : trim_right s = "" <-> hasText s = false.
Proof.
  induction s as [|c s IH]; simpl.
  - split; reflexivity.
  - unfold hasText in *. simpl.
    destruct (trim_right s) eqn:Hr.
    + destruct (is_space c); simpl.
      * split; intros _; [apply IH|]; reflexivity.
      * split; discriminate.
    + split; [discriminate|]. intros H. apply orb_false_iff in H as [_ H].
      apply IH in H. discriminate.
Qed.

Lemma trim_left_hasText (s : string) : hasText (trim_left s) = hasText s.
Proof.
  induction s as [|c s IH]; simpl; [reflexivity|].
  unfold hasText in *. simpl.
  destruct (is_space c) eqn:Hc; simpl; rewrite ?Hc; simpl; [exact IH|reflexivity].
Qed.

Lemma LenTrim_hasText (s : string) : (LenTrim s =? 0)%nat = negb (hasText s).
Proof.
  unfold LenTrim, Trim, TrimSpace.
  destruct (hasText s) eqn:Hs; simpl.
  - apply Nat.eqb_neq. intros H.
    assert (Ht : trim_right (trim_left s) = "")
      by (destruct (trim_right (trim_left s)); [reflexivity|discriminate]).
    apply trim_right_empty in Ht. rewrite trim_left_hasText in Ht. congruence.
  - apply Nat.eqb_eq.
    rewrite <- trim_left_hasText in Hs. apply trim_right_empty in Hs.
    rewrite Hs. reflexivity.
Qed.

Lemma hasText_app (a b : string) : hasText (a +:+ b) = hasText a || hasText b.
Proof.
  unfold hasText. induction a as [|c a IH]; simpl; [reflexivity|].
  change (String.append a b) with (a +:+ b). rewrite IH, orb_assoc. reflexivity.
Qed.

Lemma hasText_pairText (kv : string * string) : hasText (pairText kv) = true.
Proof. reflexivity. Qed.

Lemma hasText_joinPieces (sep : string) (pieces : list string) (out : string) :
  Forall (fun p => hasText p = true) pieces ->
  hasText out = true \/ pieces <> [] ->
  hasText (fold_left (appendPiece sep) pieces out) = true.
Proof.
  revert out. induction pieces as [|p pieces IH]; intros out Hall Hne; simpl.
  - destruct Hne as [H|H]; [exact H|contradiction].
  - inversion Hall as [|? ? Hp Hrest]; subst. apply IH; [exact Hrest|].
    left. unfold appendPiece. rewrite hasText_app, Hp. apply orb_true_r.
Qed.

(** The piece of a field is the text of its emitted pair. *)
Lemma jsonPiece_pairText (E : Env) (s : Struct) (tagName excludeTagName : string)
    (f : Field) :
  jsonPiece E s tagName excludeTagName f
  = match jsonEmitted E s tagName excludeTagName f with
    | Some kv => pairText kv
    | None => ""
    end.
Proof.
  unfold jsonEmitted.
  destruct (String.eqb (jsonPiece E s tagName excludeTagName f) "") eqn:Hp.
  { apply String.eqb_eq in Hp. exact Hp. }
  revert Hp. unfold jsonPiece, jsonField.
  destruct (negb (String.eqb (outputKey f tagName) "-")); [|discriminate].
  destruct (excludedBy f excludeTagName); [discriminate|].
  rewrite claimUniqueId_spec, blocked_empty.
  destruct (render E _ _) as [[buf skip] err].
  destruct (isSome err || skip); [discriminate|].
  destruct (unknownEnum f (Val f) buf (Get f "def") (claimMap ∅ f)) as [[buf'|] um];
    [|discriminate].
  intros _. reflexivity.
Qed.

Lemma firstProducers_emits {P R} (verdict : Field -> Verdict P R)
    (fs before : list Field) (ps : list (Field * P)) :
  firstProducers verdict before fs = inl ps ->
  Forall (fun fp => verdict (fst fp) = Emits (snd fp)) ps.
Proof.
  revert before ps. induction fs as [|f fs IH]; intros before ps; simpl.
  - intros [= <-]. constructor.
  - destruct (existsb _ before); [apply IH|].
    destruct (verdict f) as [|p|r] eqn:Hv; [apply IH| |discriminate].
    destruct (firstProducers verdict (before ++ [f]) fs) as [ps'|] eqn:Hps';
      [|discriminate].
    intros [= <-]. constructor; [exact Hv|]. apply (IH _ _ Hps').
Qed.



Lemma withVal_Val (f : Field) : withVal f (Val f) = f.
Proof. destruct f; reflexivity. Qed.


Lemma post_default_field (E : Env) (f : Field) :
  defaultField E (clearField f)
  = withVal f (Val (defaultField E (clearField f))).
Proof.
  destruct f as [name tag [|] v]; unfold defaultField, clearField; simpl;
    [|reflexivity].
  destruct (len _ =? 0)%nat; reflexivity.
Qed.





(** *** From the collaborators to the fields *)











(** *** The fields that are written *)




(** *** The map of the pairs *)





(** *** Keys *)



(** *** The fields are restored *)











(** * Further properties of the translated functions *)

(** ** Clearing, defaults and the "set" test *)

Lemma clearValue_idempotent (o : Value) : clearValue (clearValue o) = clearValue o.
Proof. destruct o as [ | | | | | | |ty [[]|]| | | | | | | | | ]; reflexivity. Qed.

Lemma clearField_idempotent (f : Field) : clearField (clearField f) = clearField f.
Proof.
  unfold clearField. destruct (CanSet f) eqn:Hc; simpl; rewrite Hc; [|reflexivity].
  unfold withVal. simpl. rewrite clearValue_idempotent. reflexivity.
Qed.

Lemma clearField_not_set (E : Env) (f : Field) :
  CanSet (clearField f) && isFieldSet E (clearField f) = false.
Proof.
  unfold clearField. destruct (CanSet f) eqn:Hc; simpl; rewrite Hc; [|reflexivity].
  unfold isFieldSet. simpl.
  destruct (Val f) as [ | | | | | | |ty [[]|]| | | | | | | | |[]]; reflexivity.
Qed.

Lemma clearFields_shape (s : Struct) : sameShape s (clearFields s).
Proof.
  unfold sameShape, clearFields. simpl. rewrite <- list_fmap_compose.
  apply list_fmap_ext. intros i f _. simpl. unfold clearField.
  destruct (CanSet f) eqn:Hc; simpl; rewrite ?Hc; reflexivity.
Qed.

Lemma applyDefaults_shape (E : Env) (s : Struct) : sameShape s (applyDefaults E s).
Proof.
  unfold sameShape, applyDefaults. simpl. rewrite <- list_fmap_compose.
  apply list_fmap_ext. intros i f _. simpl. unfold defaultField.
  destruct (CanSet f) eqn:Hc; simpl; rewrite ?Hc; [|reflexivity].
  destruct (len _ =? 0)%nat; simpl; rewrite ?Hc; reflexivity.
Qed.

Lemma sameShape_refl (s : Struct) : sameShape s s.
Proof. reflexivity. Qed.

Lemma sameShape_trans (s s' s'' : Struct) :
  sameShape s s' -> sameShape s' s'' -> sameShape s s''.
Proof. unfold sameShape. intros H1 H2. rewrite H2. exact H1. Qed.

(** The count of required fields without a default reads the names, tags and
    settable flags only. *)
Lemma count_step_shape (fs fs' : list Field) :
  (fun f => (Name f, Tag f, CanSet f)) <$> fs'
  = (fun f => (Name f, Tag f, CanSet f)) <$> fs ->
  StructNonDefaultRequiredFieldsCount (InPtr (mkStruct "" fs'))
  = StructNonDefaultRequiredFieldsCount (InPtr (mkStruct "" fs)).
Proof.
  unfold StructNonDefaultRequiredFieldsCount. simpl. generalize 0.
  revert fs'. induction fs as [|f fs IH]; intros [|f' fs'] c0 H;
    try discriminate; [reflexivity|].
  simpl in H. injection H as Hn Ht Hc Hrest. simpl.
  unfold Get. rewrite Ht, Hc. apply IH. exact Hrest.
Qed.

Lemma count_sameShape (s s' : Struct) :
  sameShape s s' ->
  StructNonDefaultRequiredFieldsCount (InPtr s')
  = StructNonDefaultRequiredFieldsCount (InPtr s).
Proof.
  intros H. destruct s as [ty fs], s' as [ty' fs'].
  exact (count_step_shape fs fs' H).
Qed.

Lemma count_bounds_from (fs : list Field) (c : Z) :
  let step := fun count f =>
    if CanSet f
    then
      if (len (Get f "def") =? 0)%nat && String.eqb (ToLower (Get f "req")) "true"
      then count + 1 else count
    else count in
  c <= fold_left step fs c <= c + Z.of_nat (length fs).
Proof.
  cbv zeta. revert c. induction fs as [|f fs IH]; intros c; simpl; [lia|].
  match goal with |- context [fold_left ?g fs ?c'] => specialize (IH c') end.
  destruct (CanSet f); [|lia].
  destruct (_ && _); lia.
Qed.

(** X1.  [StructClearFields] is idempotent: clearing a cleared record changes
    nothing, whatever the input is. *)
Theorem StructClearFields_idempotent (inp : Input) :
  StructClearFields (StructClearFields inp) = StructClearFields inp.
Proof.
  destruct inp as [ | | |s]; try reflexivity.
  simpl. f_equal. unfold clearFields. simpl. f_equal.
  rewrite <- list_fmap_compose. apply list_fmap_ext.
  intros i f _. apply clearField_idempotent.
Qed.

Lemma clearFields_not_set (E : Env) (fs : list Field) :
  IsStructFieldSet_loop E (clearField <$> fs) = false.
Proof.
  induction fs as [|f fs IH]; [reflexivity|].
  simpl. rewrite clearField_not_set. exact IH.
Qed.

(** X2.  After [StructClearFields] no field counts as set: [IsStructFieldSet]
    answers [false] on every cleared input, whatever the defaults the fields
    declare and whatever the formatters do. *)
Theorem IsStructFieldSet_after_clear (E : Env) (inp : Input) :
  IsStructFieldSet E (StructClearFields inp) = false.
Proof.
  destruct inp as [ | | |s]; try reflexivity.
  apply clearFields_not_set.
Qed.

Lemma setIntDefault_cases (E : Env) (w : IntW) (n : Z) (tagDef : string) :
  setIntDefault E w n tagDef = VInt w n
  \/ exists m, m <> 0 /\ setIntDefault E w n tagDef = VInt w m.
Proof.
  unfold setIntDefault. destruct (ParseInt64 E tagDef) as [i64 ok].
  destruct (ok && negb (i64 =? 0)) eqn:H; [|left; reflexivity].
  destruct (negb (OverflowInt w i64)); [|left; reflexivity].
  right. exists i64. split; [|reflexivity].
  apply andb_true_iff in H as [_ H]. apply negb_true_iff, Z.eqb_neq in H. exact H.
Qed.

(** The value [SetStructFieldDefaultValues] stores is the one the field held,
    or one the next pass leaves alone. *)
Lemma defaultValue_settles (E : Env) (f : Field) :
  defaultValue E f = Val f
  \/ defaultValue E (withVal f (defaultValue E f)) = defaultValue E f.
Proof.
  assert (Hint : forall w n d,
            Val f = VInt w n ->
            setIntDefault E w n d = Val f
            \/ defaultValue E (withVal f (setIntDefault E w n d))
               = setIntDefault E w n d).
  { intros w n d Hv. destruct (setIntDefault_cases E w n d) as [->|(m & Hm & ->)].
    - left. symmetry. exact Hv.
    - right. unfold defaultValue. simpl.
      apply Z.eqb_neq in Hm. rewrite Hm. reflexivity. }
  remember (defaultValue E f) as x eqn:Hx.
  unfold defaultValue in Hx.
  destruct (Val f) as [s|b|w n|w n|w q|e t|e items|ty dyn|s valid|b valid|q valid
                |n valid|n valid|t valid|t|msg|k ty data] eqn:Hv;
    simpl in Hx; try (left; exact Hx).
  - destruct (LenTrim s =? 0)%nat; [|left; exact Hx].
    right. subst x. unfold defaultValue. simpl.
    destruct (LenTrim (Get f "def") =? 0)%nat; reflexivity.
  - destruct (n =? 0); [|left; exact Hx].
    destruct (LenTrim (Trim (Get f "setter")) =? 0)%nat;
      [subst x; apply Hint; reflexivity|].
    destruct (ReflectCall E _ _ _) as [res notFound].
    destruct (negb notFound); [|left; exact Hx].
    destruct res as [|r [|r' res]]; [subst x; apply Hint; reflexivity| |].
    + destruct (ReflectValueToString E r _ _ _ _ _ _) as [[val skip] err].
      destruct err; [left; exact Hx|].
      destruct (negb skip); [subst x; apply Hint; reflexivity|left; exact Hx].
    + destruct (DerefError E _); [subst x; apply Hint; reflexivity|].
      destruct (ReflectValueToString E r _ _ _ _ _ _) as [[val skip] err].
      destruct err; [left; exact Hx|].
      destruct (negb skip); [subst x; apply Hint; reflexivity|left; exact Hx].
  - destruct (n =? 0); [|left; exact Hx].
    destruct (negb (StrToUint64 E _ =? 0)) eqn:Hu; [|left; exact Hx].
    destruct (negb (OverflowUint w _)); [|left; exact Hx].
    right. subst x. unfold defaultValue. simpl.
    apply negb_true_iff in Hu. rewrite Hu. reflexivity.
  - destruct (Qeq_bool q 0); [|left; exact Hx].
    destruct (ParseFloat64 E _) as [f64 ok].
    destruct (ok && negb (Qeq_bool f64 0)) eqn:Hf; [|left; exact Hx].
    destruct (negb (OverflowFloat w f64)); [|left; exact Hx].
    right. subst x. unfold defaultValue. simpl.
    apply andb_true_iff in Hf as [_ Hf]. apply negb_true_iff in Hf.
    rewrite Hf. reflexivity.
  - destruct dyn as [d|]; [|left; exact Hx].
    destruct d; try (left; exact Hx);
      try (destruct valid; simpl in Hx; [left; exact Hx|]).
    + right. subst x. reflexivity.
    + right. subst x. reflexivity.
    + destruct (ParseFloat64 E _) as [f64 ok].
      destruct (ok && negb (Qeq_bool f64 0)); [right|left]; subst x; reflexivity.
    + destruct (ParseInt32 E _) as [i32 ok].
      destruct (ok && negb (i32 =? 0)); [right|left]; subst x; reflexivity.
    + destruct (ParseInt64 E _) as [i64 ok].
      destruct (ok && negb (i64 =? 0)); [right|left]; subst x; reflexivity.
    + destruct (negb (IsZero _)); [right|left]; subst x; reflexivity.
    + destruct (IsZero t); [|left; exact Hx].
      destruct (negb (IsZero (ParseDateTimeCustom E _ _))) eqn:Hp; [|left; exact Hx].
      right. subst x. unfold defaultValue. simpl.
      apply negb_true_iff in Hp.
      change (tagTimeFormatOf E (withVal f ?v)) with (tagTimeFormatOf E f).
      rewrite Hp. reflexivity.
  - destruct valid; simpl in Hx; [left; exact Hx|]. right. subst x. reflexivity.
  - destruct valid; simpl in Hx; [left; exact Hx|]. right. subst x. reflexivity.
  - destruct valid; simpl in Hx; [left; exact Hx|].
    destruct (ParseFloat64 E _) as [f64 ok].
    destruct (ok && negb (Qeq_bool f64 0)); [right|left]; subst x; reflexivity.
  - destruct valid; simpl in Hx; [left; exact Hx|].
    destruct (ParseInt32 E _) as [i32 ok].
    destruct (ok && negb (i32 =? 0)); [right|left]; subst x; reflexivity.
  - destruct valid; simpl in Hx; [left; exact Hx|].
    destruct (ParseInt64 E _) as [i64 ok].
    destruct (ok && negb (i64 =? 0)); [right|left]; subst x; reflexivity.
  - destruct valid; simpl in Hx; [left; exact Hx|].
    destruct (negb (IsZero _)); [right|left]; subst x; reflexivity.
  - destruct (IsZero t); [|left; exact Hx].
    destruct (negb (IsZero (ParseDateTimeCustom E _ _))) eqn:Hp; [|left; exact Hx].
    right. subst x. unfold defaultValue. simpl.
    apply negb_true_iff in Hp.
    change (tagTimeFormatOf E (withVal f ?v)) with (tagTimeFormatOf E f).
    rewrite Hp. reflexivity.
Qed.

Lemma defaultField_idempotent (E : Env) (f : Field) :
  defaultField E (defaultField E f) = defaultField E f.
Proof.
  unfold defaultField. destruct (CanSet f) eqn:Hc; rewrite ?Hc; [|reflexivity].
  destruct (len (Get f "def") =? 0)%nat eqn:Hd; rewrite ?Hc, ?Hd; [reflexivity|].
  simpl. rewrite Hc. change (Get (withVal f (defaultValue E f)) "def") with (Get f "def").
  rewrite Hd. unfold withVal at 1. simpl.
  destruct (defaultValue_settles E f) as [H|H].
  - rewrite H at 1. rewrite withVal_Val. reflexivity.
  - unfold withVal in *. simpl in *. rewrite H. reflexivity.
Qed.

(** A field that counts as set is not given its default. *)
Lemma defaultValue_set (E : Env) (f : Field) :
  isFieldSet E f = true -> defaultValue E f = Val f.
Proof.
  unfold isFieldSet, defaultValue.
  destruct (Val f) as [s|b|w n|w n|w q|e t|e items|ty [d|]|s valid|b valid|q valid
                      |n valid|n valid|t valid|t|msg|k ty data]; simpl;
    intros H; try reflexivity; try discriminate.
  - apply andb_true_iff in H as [H _]. apply Nat.ltb_lt in H.
    destruct (LenTrim s =? 0)%nat eqn:Hs; [|reflexivity].
    apply Nat.eqb_eq in Hs. lia.
  - apply andb_true_iff in H as [H _]. apply negb_true_iff in H. rewrite H.
    reflexivity.
  - apply andb_true_iff in H as [H _]. apply Z.ltb_lt in H.
    destruct (n =? 0) eqn:Hn; [|reflexivity]. apply Z.eqb_eq in Hn. lia.
  - apply andb_true_iff in H as [H _]. apply negb_true_iff in H. rewrite H.
    reflexivity.
  - destruct d; try reflexivity;
      apply andb_true_iff in H as [H _]; rewrite ?H; try reflexivity.
    apply negb_true_iff in H. rewrite H. reflexivity.
  - apply andb_true_iff in H as [-> _]. reflexivity.
  - apply andb_true_iff in H as [-> _]. reflexivity.
  - apply andb_true_iff in H as [-> _]. reflexivity.
  - apply andb_true_iff in H as [-> _]. reflexivity.
  - apply andb_true_iff in H as [-> _]. reflexivity.
  - apply andb_true_iff in H as [-> _]. reflexivity.
  - apply andb_true_iff in H as [H _]. apply negb_true_iff in H. rewrite H.
    reflexivity.
Qed.

(** X3.  [SetStructFieldDefaultValues] is idempotent: a second pass over the
    record changes nothing, for every field kind, with or without a setter,
    and whatever the parsers make of the [def] tags. *)
Theorem SetStructFieldDefaultValues_idempotent (E : Env) (inp : Input) :
  snd (SetStructFieldDefaultValues E (snd (SetStructFieldDefaultValues E inp)))
  = snd (SetStructFieldDefaultValues E inp).
Proof.
  destruct inp as [ | | |s]; try reflexivity.
  simpl. f_equal. unfold applyDefaults. simpl. f_equal.
  rewrite <- list_fmap_compose. apply list_fmap_ext.
  intros i f _. apply defaultField_idempotent.
Qed.

(** X4.  [SetStructFieldDefaultValues] never overwrites a field that counts
    as set: a field on which the test of [IsStructFieldSet] succeeds comes
    out of the pass exactly as it went in. *)
Theorem SetStructFieldDefaultValues_keeps_set (E : Env) (s s' : Struct)
    (i : nat) (f : Field) :
  Fields s !! i = Some f ->
  isFieldSet E f = true ->
  snd (SetStructFieldDefaultValues E (InPtr s)) = InPtr s' ->
  Fields s' !! i = Some f.
Proof.
  intros Hf Hset [= <-]. unfold applyDefaults. simpl.
  rewrite list_lookup_fmap, Hf. simpl. f_equal.
  unfold defaultField. destruct (CanSet f); [|reflexivity].
  destruct (len _ =? 0)%nat; [reflexivity|].
  rewrite (defaultValue_set E f Hset). apply withVal_Val.
Qed.

Lemma SetStructFieldDefaultValues_keeps_set_witness :
  Fields (applyDefaults go_env person) !! 1%nat
  = Some (intField "Age" [("json", "age"); ("def", "18")] 41).
Proof.
  apply (SetStructFieldDefaultValues_keeps_set go_env person
           (applyDefaults go_env person) 1
           (intField "Age" [("json", "age"); ("def", "18")] 41));
    reflexivity.
Defined.

(** X5.  [StructNonDefaultRequiredFieldsCount] lies between 0 and the number
    of fields, and it reads declarations only: [StructClearFields] and
    [SetStructFieldDefaultValues] leave it as it is. *)
Theorem StructNonDefaultRequiredFieldsCount_declared (E : Env) (inp : Input) :
  0 <= StructNonDefaultRequiredFieldsCount inp
       <= match inp with InPtr s => Z.of_nat (length (Fields s)) | _ => 0 end
  /\ StructNonDefaultRequiredFieldsCount (StructClearFields inp)
     = StructNonDefaultRequiredFieldsCount inp
  /\ StructNonDefaultRequiredFieldsCount (snd (SetStructFieldDefaultValues E inp))
     = StructNonDefaultRequiredFieldsCount inp.
Proof.
  destruct inp as [ | | |s]; try (simpl; repeat split; lia).
  split; [|split].
  - unfold StructNonDefaultRequiredFieldsCount.
    pose proof (count_bounds_from (Fields s) 0) as H. cbv zeta in H. lia.
  - apply count_sameShape, clearFields_shape.
  - apply count_sameShape, applyDefaults_shape.
Qed.

(** X6.  A cleared record that declares a required field without a default
    marshals to the empty CSV text with no error: [MarshalStructToCSV]
    returns before it looks at any field, so the "is a Required Field" error
    is not raised. *)
Theorem MarshalStructToCSV_cleared_required (E : Env) (inp : Input)
    (csvDelimiter : string) :
  0 < StructNonDefaultRequiredFieldsCount inp ->
  MarshalStructToCSV E (StructClearFields inp) csvDelimiter = ("", None).
Proof.
  intros Hreq. destruct inp as [ | | |s]; try (simpl in Hreq; lia).
  change (StructClearFields (InPtr s)) with (InPtr (clearFields s)).
  unfold MarshalStructToCSV, IsStructFieldSet.
  change (Fields (clearFields s)) with (clearField <$> Fields s) at 1.
  rewrite clearFields_not_set.
  rewrite (count_sameShape s (clearFields s) (clearFields_shape s)).
  apply Z.ltb_lt in Hreq. rewrite Hreq. reflexivity.
Qed.

Lemma MarshalStructToCSV_cleared_required_witness :
  MarshalStructToCSV go_env (StructClearFields (InPtr badge)) "," = ("", None).
Proof.
  apply (MarshalStructToCSV_cleared_required go_env (InPtr badge) ",").
  reflexivity.
Defined.

(** ** Errors of the marshalers *)

(** A turn of the CSV marshal loop that returns does so with an error and no
    text. *)
Lemma csvMarshalField_return (E : Env) (s : Struct) (csvLen : Z)
    (um : gmap string string) (f : Field) (p : string) (e : option Error) :
  csvMarshalField E s csvLen um f = CsvReturn p e -> p = "" /\ e <> None.
Proof.
  unfold csvMarshalField. cbv zeta.
  break_match; intros H; try discriminate;
    injection H as <- <-; (split; [reflexivity|discriminate]).
Qed.

Lemma csvMarshalLoop_return (E : Env) (s : Struct) (csvLen : Z) (fs : list Field)
    (csvList : list string) (um : gmap string string) (p : string)
    (e : option Error) :
  csvMarshalLoop E s csvLen fs csvList um = inr (p, e) -> p = "" /\ e <> None.
Proof.
  revert csvList um. induction fs as [|f fs IH]; intros csvList um; simpl.
  - discriminate.
  - destruct (csvMarshalField E s csvLen um f) as [um'|tagPos v um'|p' e'] eqn:Hf.
    + apply IH.
    + apply IH.
    + intros [= -> ->]. apply (csvMarshalField_return _ _ _ _ _ _ _ Hf).
Qed.

(** X7.  A marshal call that fails hands back no text: whenever
    [MarshalStructToQueryParams], [MarshalStructToJson] or
    [MarshalStructToCSV] returns an error, the returned string is empty,
    even when earlier fields had already been rendered. *)
Theorem marshal_error_no_text (E : Env) (inp : Input)
    (tagName excludeTagName csvDelimiter text : string) (e : Error) :
  MarshalStructToQueryParams E inp tagName excludeTagName = (text, Some e)
  \/ MarshalStructToJson E inp tagName excludeTagName = (text, Some e)
  \/ MarshalStructToCSV E inp csvDelimiter = (text, Some e) ->
  text = "".
Proof.
  intros [H|[H|H]].
  - unfold MarshalStructToQueryParams in H.
    destruct inp; try (injection H as <- _; reflexivity);
      destruct (LenTrim tagName =? 0)%nat; try (injection H as <- _; reflexivity).
    destruct (fold_left _ _ _) as [output um].
    destruct (LenTrim output =? 0)%nat; [|discriminate].
    injection H as <- _. reflexivity.
  - unfold MarshalStructToJson in H.
    destruct inp; try (injection H as <- _; reflexivity);
      destruct (LenTrim tagName =? 0)%nat; try (injection H as <- _; reflexivity).
    destruct (fold_left _ _ _) as [output um].
    destruct (LenTrim output =? 0)%nat; [|discriminate].
    injection H as <- _. reflexivity.
  - unfold MarshalStructToCSV in H.
    destruct inp; try (injection H as <- _; reflexivity).
    destruct (negb _ && _); [discriminate|].
    destruct (csvMarshalLoop _ _ _ _ _ _) as [csvList|[p e']] eqn:Hloop;
      [discriminate|].
    injection H as -> ->. apply (csvMarshalLoop_return _ _ _ _ _ _ _ _ Hloop).
Qed.

(** The second field of [ranged] is out of range: the text of the first
    one, already stored in its slot, is not handed back. *)
Lemma marshal_error_no_text_witness :
  fst (MarshalStructToCSV go_env (InPtr ranged) ",") = "".
Proof.
  apply (marshal_error_no_text go_env (InPtr ranged) "" "" ","
           (fst (MarshalStructToCSV go_env (InPtr ranged) ","))
           (Errorf "%s Range Maximum is %d" [AStr "Level"; AInt 5])).
  right. right. vm_compute. reflexivity.
Defined.

(** ** The separators of the text marshalers *)

Lemma append_assoc (a b c : string) : (a +:+ b) +:+ c = a +:+ b +:+ c.
Proof.
  induction a as [|x a IH]; [reflexivity|].
  change (String x ((a +:+ b) +:+ c) = String x (a +:+ b +:+ c)).
  f_equal. exact IH.
Qed.

(** Pieces that hold text are joined with exactly one separator between
    neighbours. *)
Lemma joinPieces_from (sep out : string) (pieces : list string) :
  hasText out = true ->
  Forall (fun p => hasText p = true) pieces ->
  fold_left (appendPiece sep) pieces out = String.concat sep (out :: pieces).
Proof.
  revert out. induction pieces as [|p pieces IH]; intros out Hout Hall.
  - reflexivity.
  - inversion Hall as [|? ? Hp Hrest]; subst.
    cbn [fold_left]. rewrite IH; [|idtac|exact Hrest].
    + unfold appendPiece.
      assert (Hlen : (0 <? LenTrim out)%nat = true).
      { pose proof (LenTrim_hasText out) as H. rewrite Hout in H. simpl in H.
        apply Nat.eqb_neq in H. apply Nat.ltb_lt. lia. }
      rewrite Hlen. destruct pieces as [|q pieces]; simpl.
      * apply append_assoc.
      * change ((((out +:+ sep) +:+ p) +:+ sep +:+ String.concat sep (q :: pieces))
                = out +:+ sep +:+ p +:+ sep +:+ String.concat sep (q :: pieces)).
        rewrite !append_assoc. reflexivity.
    + unfold appendPiece. rewrite hasText_app, Hp. apply orb_true_r.
Qed.

Lemma joinPieces_concat (sep : string) (pieces : list string) :
  Forall (fun p => hasText p = true) pieces ->
  joinPieces sep pieces = String.concat sep pieces.
Proof.
  intros Hall. unfold joinPieces. destruct pieces as [|p pieces]; [reflexivity|].
  inversion Hall as [|? ? Hp Hrest]; subst. cbn [fold_left].
  change (appendPiece sep "" p) with ("" +:+ p).
  change ("" +:+ p) with p. apply joinPieces_from; assumption.
Qed.

(** A field of the query-string marshaler puts nothing, or a piece that
    holds text: the piece ends in [key=value]. *)
Lemma qpPiece_hasText (E : Env) (s : Struct) (tagName excludeTagName : string)
    (f : Field) :
  qpPiece E s tagName excludeTagName f = ""
  \/ hasText (qpPiece E s tagName excludeTagName f) = true.
Proof.
  unfold qpPiece, queryParamsField.
  destruct (negb (String.eqb (outputKey f tagName) "-")); [|left; reflexivity].
  destruct (excludedBy f excludeTagName); [left; reflexivity|].
  destruct (claimUniqueId f ∅) as [um|]; [|left; reflexivity].
  destruct (render E _ _) as [[buf skip] err].
  destruct (isSome err || skip); [left; reflexivity|].
  destruct (unknownEnum f (Val f) buf (Get f "def") um) as [[buf'|] um'];
    [|left; reflexivity].
  right. simpl. rewrite !hasText_app.
  change (hasText "=") with true. repeat (rewrite ?orb_true_r; simpl). reflexivity.
Qed.

Lemma jsonPiece_hasText (E : Env) (s : Struct) (tagName excludeTagName : string)
    (f : Field) :
  jsonPiece E s tagName excludeTagName f = ""
  \/ hasText (jsonPiece E s tagName excludeTagName f) = true.
Proof.
  rewrite jsonPiece_pairText.
  destruct (jsonEmitted E s tagName excludeTagName f) as [kv|];
    [right; apply hasText_pairText|left; reflexivity].
Qed.

Lemma producers_hasText (piece : Field -> string) (fs before : list Field)
    (ps : list (Field * string)) :
  (forall f, piece f = "" \/ hasText (piece f) = true) ->
  firstProducers (fun f => pieceVerdict (piece f)) before fs = inl ps ->
  Forall (fun p => hasText p = true) (snd <$> ps).
Proof.
  intros Hpiece Hps. apply firstProducers_emits in Hps.
  induction Hps as [|[f p] ps Hfp _ IH]; simpl; constructor; [|exact IH].
  simpl in Hfp. unfold pieceVerdict in Hfp.
  destruct (String.eqb (piece f) "") eqn:Hne; [discriminate|].
  injection Hfp as <-. destruct (Hpiece f) as [H|H]; [|exact H].
  rewrite H in Hne. discriminate.
Qed.

Lemma joined_blank (sep : string) (pieces : list string) :
  Forall (fun p => hasText p = true) pieces ->
  (LenTrim (joinPieces sep pieces) =? 0)%nat
  = match pieces with [] => true | _ => false end.
Proof.
  intros Hall. rewrite LenTrim_hasText. destruct pieces as [|p pieces];
    [reflexivity|].
  unfold joinPieces. rewrite hasText_joinPieces; [reflexivity|exact Hall|].
  right. discriminate.
Qed.

(** X8.  The two text marshalers write their separator exactly between
    neighbouring pieces: the query string is the pieces of the first
    producers joined by "&", the JSON text is their pieces joined by ", "
    between braces - no leading, trailing or doubled separator - and the
    "Yielded Blank Output" error is returned exactly when no field puts a
    piece. *)
Theorem text_marshalers_join (E : Env) (s : Struct)
    (tagName excludeTagName : string) :
  LenTrim tagName <> 0%nat ->
  (exists ps,
     firstProducers (fun f => pieceVerdict (qpPiece E s tagName excludeTagName f))
       [] (Fields s) = inl ps
     /\ MarshalStructToQueryParams E (InPtr s) tagName excludeTagName
        = match ps with
          | [] => ("", Some (Errorf "MarshalStructToQueryParams Yielded Blank Output" []))
          | _ => (String.concat "&" (snd <$> ps), None)
          end)
  /\ (exists ps,
        firstProducers (fun f => pieceVerdict (jsonPiece E s tagName excludeTagName f))
          [] (Fields s) = inl ps
        /\ MarshalStructToJson E (InPtr s) tagName excludeTagName
           = match ps with
             | [] => ("", Some (Errorf "MarshalStructToJson Yielded Blank Output" []))
             | _ => ("{" +:+ String.concat ", " (snd <$> ps) +:+ "}", None)
             end).
Proof.
  intros Htag. apply Nat.eqb_neq in Htag. split.
  - destruct (text_loop_firstProducers
                (queryParamsField E s tagName excludeTagName)
                (qpPiece E s tagName excludeTagName) "&" (Fields s))
      as (ps & Hps & Hout).
    { intros. apply queryParamsField_spec. }
    exists ps. split; [exact Hps|].
    unfold MarshalStructToQueryParams. rewrite Htag.
    destruct (fold_left _ _ _) as [output um]. simpl in Hout. subst output.
    pose proof (producers_hasText _ _ _ _ (qpPiece_hasText E s tagName excludeTagName)
                  Hps) as Hall.
    rewrite (joined_blank _ _ Hall), (joinPieces_concat _ _ Hall).
    destruct ps; reflexivity.
  - destruct (text_loop_firstProducers
                (jsonField E s tagName excludeTagName)
                (jsonPiece E s tagName excludeTagName) ", " (Fields s))
      as (ps & Hps & Hout).
    { intros. apply jsonField_spec. }
    exists ps. split; [exact Hps|].
    unfold MarshalStructToJson. rewrite Htag.
    destruct (fold_left _ _ _) as [output um]. simpl in Hout. subst output.
    pose proof (producers_hasText _ _ _ _ (jsonPiece_hasText E s tagName excludeTagName)
                  Hps) as Hall.
    rewrite (joined_blank _ _ Hall), (joinPieces_concat _ _ Hall).
    destruct ps; reflexivity.
Qed.

Lemma text_marshalers_join_witness :
  MarshalStructToQueryParams go_env (InPtr person) "json" "" = ("name=Ann&age=41", None).
Proof.
  destruct (text_marshalers_join go_env person "json" "") as ((ps & Hps & Hqp) & _).
  - vm_compute. discriminate.
  - rewrite Hqp. vm_compute in Hps. injection Hps as <-. vm_compute. reflexivity.
Defined.

(** ** The readers: what stays as it was *)

(** X9.  [UnmarshalCSVToStruct] checks its arguments before it touches the
    record: with anything but a pointer to a struct, a blank payload, neither
    a delimiter nor a parser, or a payload that splits into no token, the
    call returns an error and the input exactly as it was passed in. *)
Theorem UnmarshalCSVToStruct_entry_failure (E : Env) (inp : Input)
    (csvPayload csvDelimiter : string)
    (customDelimiterParserFunc : option (string -> list string)) :
  (forall s, inp <> InPtr s)
  \/ LenTrim csvPayload = 0%nat
  \/ (csvDelimiter = "" /\ customDelimiterParserFunc = None)
  \/ splitPayload csvPayload csvDelimiter customDelimiterParserFunc = [] ->
  exists e,
    UnmarshalCSVToStruct E inp csvPayload csvDelimiter customDelimiterParserFunc
    = (Some e, inp).
Proof.
  intros H. unfold UnmarshalCSVToStruct.
  destruct inp as [ | | |s]; try (eexists; reflexivity);
    destruct (LenTrim csvPayload =? 0)%nat eqn:Hp; try (eexists; reflexivity);
    destruct (_ && _) eqn:Hd; try (eexists; reflexivity).
  destruct H as [H|[H|[[-> ->]|H]]].
  - exfalso. apply (H s). reflexivity.
  - apply Nat.eqb_neq in Hp. contradiction.
  - discriminate.
  - rewrite H. eexists; reflexivity.
Qed.

Lemma UnmarshalCSVToStruct_entry_failure_witness :
  (exists e, UnmarshalCSVToStruct go_env (InPtr person) "   " "," None
             = (Some e, InPtr person))
  /\ (exists e, UnmarshalCSVToStruct go_env (InPtr person) "a,b" ""
                  (Some (fun _ => []))
                = (Some e, InPtr person)).
Proof.
  split.
  - apply (UnmarshalCSVToStruct_entry_failure go_env). right. left. reflexivity.
  - apply (UnmarshalCSVToStruct_entry_failure go_env). right. right. right.
    reflexivity.
Defined.

(** A field loop leaves field [j] alone when the turns on the other fields
    only write their own field and the turn on field [j] writes nothing. *)
Lemma fieldLoop_untouched {A} (step : A -> Struct -> nat -> Field -> Outcome A)
    (ok : option Error -> Prop) (j : nat) (g : Field) :
  (forall a s i f, i <> j ->
     match step a s i f with
     | Next _ s' => agreeExcept i s s'
     | Return e s' => ok e -> agreeExcept i s s'
     end) ->
  (forall a s,
     match step a s j g with
     | Next _ s' => s' = s
     | Return e s' => ok e -> s' = s
     end) ->
  forall n i a s e s',
    fieldLoop step n i a s = (e, s') -> ok e ->
    Fields s !! j = Some g -> Fields s' !! j = Some g.
Proof.
  intros Hother Hself. induction n as [|n IH]; intros i a s e s' Hloop Hok Hg;
    simpl in Hloop.
  - injection Hloop as <- <-. exact Hg.
  - destruct (Fields s !! i) as [f|] eqn:Hf; [|injection Hloop as <- <-; exact Hg].
    destruct (Nat.eq_dec i j) as [->|Hne].
    + assert (f = g) by congruence. subst f.
      specialize (Hself a s).
      destruct (step a s j g) as [a1 s1|e1 s1].
      * subst s1. apply (IH _ _ _ _ _ Hloop Hok Hg).
      * injection Hloop as -> ->. rewrite (Hself Hok). exact Hg.
    + specialize (Hother a s i f Hne).
      destruct (step a s i f) as [a1 s1|e1 s1].
      * apply (IH _ _ _ _ _ Hloop Hok). rewrite <- Hg. apply Hother. congruence.
      * injection Hloop as -> ->. rewrite <- Hg. apply (Hother Hok). congruence.
Qed.

Lemma post_default_get (E : Env) (f : Field) (k : string) :
  Get (defaultField E (clearField f)) k = Get f k.
Proof. rewrite post_default_field. reflexivity. Qed.

Lemma post_default_name (E : Env) (f : Field) :
  Name (defaultField E (clearField f)) = Name f.
Proof. rewrite post_default_field. reflexivity. Qed.

Lemma post_default_canset (E : Env) (f : Field) :
  CanSet (defaultField E (clearField f)) = CanSet f.
Proof. rewrite post_default_field. reflexivity. Qed.

(** The turn of the JSON reader on a field it does not find. *)
Lemma jsonUnmarshalField_absent (E : Env) (jsonMap : gmap string string)
    (tagName excludeTagName : string) (s : Struct) (i : nat) (f : Field) :
  CanSet f = false \/ readerLookup tagName excludeTagName jsonMap f = None ->
  jsonUnmarshalField E jsonMap tagName excludeTagName tt s i
    (defaultField E (clearField f)) = Next tt s.
Proof.
  intros H. unfold jsonUnmarshalField.
  rewrite post_default_canset, !post_default_get, post_default_name.
  unfold excludedBy. rewrite post_default_get.
  destruct (CanSet f); [|reflexivity].
  destruct H as [H|H]; [discriminate|].
  unfold readerLookup, readerKey, excludedBy in H.
  destruct (String.eqb (Trim (Get f tagName)) "-"); [reflexivity|].
  destruct (_ && _); [reflexivity|].
  rewrite H. reflexivity.
Qed.

(** X10.  [UnmarshalJsonToStruct] leaves a field it does not find at its
    post-default value.  Once the call is past its entry checks - a struct
    pointer, a payload and a tag name that are not blank, a payload that
    decodes into a map with at least one key - it returns a record in which
    every field that is not settable, is named "-", is excluded, or whose key
    is missing from the decoded map holds the value it has after clearing and
    applying the defaults, whether the call succeeds or fails on another
    field. *)
Theorem UnmarshalJsonToStruct_absent_key (E : Env) (s : Struct)
    (jsonPayload tagName excludeTagName : string)
    (jsonMap : gmap string string) (j : nat) (f : Field) :
  LenTrim jsonPayload <> 0%nat ->
  LenTrim tagName <> 0%nat ->
  json_Unmarshal E jsonPayload = JsonMap jsonMap ->
  size jsonMap <> 0%nat ->
  Fields s !! j = Some f ->
  CanSet f = false \/ readerLookup tagName excludeTagName jsonMap f = None ->
  exists e s',
    UnmarshalJsonToStruct E (InPtr s) jsonPayload tagName excludeTagName
    = (e, InPtr s')
    /\ Fields s' !! j = Some (defaultField E (clearField f)).
Proof.
  intros Hpayload Htag Hdec Hsize Hf Habsent. unfold UnmarshalJsonToStruct.
  apply Nat.eqb_neq in Hpayload, Htag, Hsize.
  rewrite Hpayload, Htag, Hdec, Hsize.
  destruct (fieldLoop _ _ _ _ _) as [e1 s1] eqn:Hloop.
  exists e1, s1. split; [reflexivity|].
  eapply (fieldLoop_untouched
            (jsonUnmarshalField E jsonMap tagName excludeTagName)
            (fun _ => True) j (defaultField E (clearField f)));
    [| |exact Hloop|exact I|].
  - intros [] cur i g _.
    pose proof (jsonUnmarshalField_outcome E jsonMap tagName excludeTagName cur i g)
      as Hout.
    destruct (jsonUnmarshalField _ _ _ _ _ _ _ _) as [[] s2|[e2|] s2];
      simpl in Hout; [exact Hout|intros _; exact Hout|contradiction].
  - intros [] cur. rewrite jsonUnmarshalField_absent by exact Habsent. reflexivity.
  - unfold applyDefaults, clearFields. simpl.
    rewrite !list_lookup_fmap, Hf. reflexivity.
Qed.

(** The payload names [Id] only: [Memo] comes back holding its default. *)
Lemma UnmarshalJsonToStruct_absent_key_witness :
  exists e s',
    UnmarshalJsonToStruct go_env (InPtr parcel)
      (jsonObjectOf [("id", "7")]) "json" "" = (e, InPtr s')
    /\ Fields s' !! 2%nat
       = Some (defaultField go_env
                 (clearField (strField "Memo" [("json", "memo"); ("def", "none")] "draft"))).
Proof.
  apply (UnmarshalJsonToStruct_absent_key go_env parcel
           (jsonObjectOf [("id", "7")]) "json" ""
           {["id" := dquote +:+ "7" +:+ dquote]} 2
           (strField "Memo" [("json", "memo"); ("def", "none")] "draft")).
  - vm_compute. discriminate.
  - vm_compute. discriminate.
  - vm_compute. reflexivity.
  - vm_compute. discriminate.
  - reflexivity.
  - right. vm_compute. reflexivity.
Defined.

Lemma prefixScan_none (E : Env) (f : Field) (outPrefix : string) (tagPos : Z)
    (csvElements : list string) (m : gmap string string) :
  forallb (fun v => negb (String.eqb (ToLower (Left v (len outPrefix)))
                            (ToLower outPrefix))) csvElements = true ->
  prefixScan E f outPrefix tagPos csvElements m = None.
Proof.
  induction csvElements as [|v rest IH]; simpl; [reflexivity|].
  intros H. apply andb_true_iff in H as [Hv Hrest].
  apply negb_true_iff in Hv. rewrite Hv. apply IH, Hrest.
Qed.

(** The turn of the CSV reader on a field it does not address. *)
Lemma csvUnmarshalField_unaddressed (E : Env) (csvElements : list string)
    (m : gmap string string) (s : Struct) (i : nat) (g : Field) :
  csvUnaddressed E csvElements g = true ->
  csvUnmarshalField E csvElements m s i g = Next m s.
Proof.
  unfold csvUnaddressed, csvUnmarshalField.
  destruct (CanSet g); simpl; [|reflexivity].
  destruct (ParseInt32 E (Get g "pos")) as [tagPos ok].
  destruct (if negb ok then _ else _); [reflexivity|]. simpl.
  intros H. apply andb_true_iff in H as [H Hscan].
  apply andb_true_iff in H as [Hdash Hpre].
  apply negb_true_iff in Hpre.
  destruct (parseSize E g) as [[sizeMin sizeMax] tagModulo].
  rewrite Hdash, Hpre, (prefixScan_none _ _ _ _ _ _ Hscan). reflexivity.
Qed.

Lemma csvUnaddressed_post_default (E : Env) (csvElements : list string) (f : Field) :
  csvUnaddressed E csvElements (defaultField E (clearField f))
  = csvUnaddressed E csvElements f.
Proof.
  unfold csvUnaddressed. rewrite post_default_canset, !post_default_get.
  reflexivity.
Qed.

(** X11.  When [UnmarshalCSVToStruct] succeeds, a field it does not address -
    one that is not settable, has no usable [pos] tag, or reads by a prefix
    that no token carries - holds its post-default value: the value after
    clearing and applying the defaults. *)
Theorem UnmarshalCSVToStruct_unaddressed (E : Env) (s s' : Struct)
    (csvPayload csvDelimiter : string)
    (customDelimiterParserFunc : option (string -> list string))
    (j : nat) (f : Field) :
  UnmarshalCSVToStruct E (InPtr s) csvPayload csvDelimiter customDelimiterParserFunc
  = (None, InPtr s') ->
  Fields s !! j = Some f ->
  csvUnaddressed E (splitPayload csvPayload csvDelimiter customDelimiterParserFunc) f
  = true ->
  Fields s' !! j = Some (defaultField E (clearField f)).
Proof.
  intros Hcall Hf Hun. unfold UnmarshalCSVToStruct in Hcall.
  destruct (LenTrim csvPayload =? 0)%nat; [discriminate|].
  destruct (_ && _); [discriminate|].
  destruct (length _ =? 0)%nat; [discriminate|].
  destruct (fieldLoop _ _ _ _ _) as [e1 s1] eqn:Hloop.
  injection Hcall as -> ->.
  eapply (fieldLoop_untouched
            (csvUnmarshalField E
               (splitPayload csvPayload csvDelimiter customDelimiterParserFunc))
            (fun e => e = None) j (defaultField E (clearField f)));
    [| |exact Hloop|reflexivity|].
  - intros m cur i g _.
    pose proof (csvUnmarshalField_outcome E
                  (splitPayload csvPayload csvDelimiter customDelimiterParserFunc)
                  m cur i g) as Hout.
    destruct (csvUnmarshalField _ _ _ _ _ _) as [m2 s2|[e2|] s2];
      simpl in Hout; [exact Hout|discriminate|].
    intros _. subst s2. apply agreeExcept_refl.
  - intros m cur. rewrite csvUnmarshalField_unaddressed; [reflexivity|].
    rewrite csvUnaddressed_post_default. exact Hun.
  - unfold applyDefaults, clearFields. simpl.
    rewrite !list_lookup_fmap, Hf. reflexivity.
Qed.

(** No token carries the prefix of [Zone], which comes back holding its
    default. *)
Lemma UnmarshalCSVToStruct_unaddressed_witness :
  exists s',
    UnmarshalCSVToStruct go_env (InPtr parcel) "7,Q=1" "," None = (None, InPtr s')
    /\ Fields s' !! 1%nat
       = Some (strField "Zone" [("pos", "1"); ("outprefix", "Z="); ("def", "north")]
                 "north").
Proof.
  eexists. split; [vm_compute; reflexivity|].
  eapply (UnmarshalCSVToStruct_unaddressed go_env parcel _ "7,Q=1" "," None 1
            (strField "Zone" [("pos", "1"); ("outprefix", "Z="); ("def", "north")]
               "east")).
  - vm_compute. reflexivity.
  - reflexivity.
  - vm_compute. reflexivity.
Defined.

(** *** The frame of the record *)

Lemma sameFrame_refl (s : Struct) : sameFrame s s.
Proof. repeat split. intros j f Hf _. exact Hf. Qed.

Lemma sameFrame_trans (s s' s'' : Struct) :
  sameFrame s s' -> sameFrame s' s'' -> sameFrame s s''.
Proof.
  intros (Ht & Hs & Hu) (Ht' & Hs' & Hu'). split; [congruence|].
  split; [exact (sameShape_trans _ _ _ Hs Hs')|].
  intros j f Hf Hc. apply Hu'; [apply Hu|]; assumption.
Qed.

Lemma clearFields_frame (s : Struct) : sameFrame s (clearFields s).
Proof.
  split; [reflexivity|]. split; [apply clearFields_shape|].
  intros j f Hf Hc. unfold clearFields. simpl.
  rewrite list_lookup_fmap, Hf. simpl. unfold clearField. rewrite Hc. reflexivity.
Qed.

Lemma applyDefaults_frame (E : Env) (s : Struct) : sameFrame s (applyDefaults E s).
Proof.
  split; [reflexivity|]. split; [apply applyDefaults_shape|].
  intros j f Hf Hc. unfold applyDefaults. simpl.
  rewrite list_lookup_fmap, Hf. simpl. unfold defaultField. rewrite Hc. reflexivity.
Qed.

(** A write through the value of a settable field keeps the frame. *)
Lemma setField_keeps (s0 s : Struct) (i : nat) (field : Field) (v : Value) :
  sameFrame s0 s ->
  Fields s0 !! i = Some field ->
  CanSet field = true ->
  sameFrame s0 (setField s i field v).
Proof.
  intros (Ht & Hs & Hu) Hf Hc. split; [exact Ht|]. split.
  - unfold sameShape, setField in *. simpl.
    rewrite list_fmap_insert, Hs. simpl.
    apply list_insert_id. rewrite list_lookup_fmap, Hf. reflexivity.
  - intros j f Hj Hcf. unfold setField. simpl.
    destruct (Nat.eq_dec i j) as [->|Hne]; [congruence|].
    rewrite list_lookup_insert_ne by exact Hne. apply Hu; assumption.
Qed.

Lemma clearFields_keeps (s0 s : Struct) :
  sameFrame s0 s -> sameFrame s0 (clearFields s).
Proof. intros H. exact (sameFrame_trans _ _ _ H (clearFields_frame s)). Qed.

Lemma setterOnReference_keeps (E : Env) (s : Struct) (i : nat) (f : Field)
    (o : Value) (isBase : bool) (tagSetter value : string) (s' : Struct) :
  Fields s !! i = Some f ->
  CanSet f = true ->
  setterOnReference E s i f o isBase tagSetter value = inl s' ->
  sameFrame s s'.
Proof.
  intros Hf Hc. unfold setterOnReference. intros H.
  repeat match type of H with
         | context [match ?x with _ => _ end] =>
             lazymatch x with
             | context [match _ with _ => _ end] => fail
             | _ => destruct x eqn:?
             end
         end;
    try discriminate; injection H as <-;
    repeat first [ apply sameFrame_refl
                 | apply setField_keeps; [|exact Hf|exact Hc] ].
Qed.

Ltac keep_frame Hf Hc :=
  repeat first
    [ apply sameFrame_refl
    | apply clearFields_keeps
    | apply setField_keeps; [|exact Hf|exact Hc]
    | match goal with
      | H : setterOnReference _ _ _ _ _ _ _ _ = inl _ |- _ =>
          exact (setterOnReference_keeps _ _ _ _ _ _ _ _ _ Hf Hc H)
      end ].

Lemma csvUnmarshalField_keeps (E : Env) (csvElements : list string)
    (m : gmap string string) (s : Struct) (i : nat) (f : Field) :
  Fields s !! i = Some f ->
  match csvUnmarshalField E csvElements m s i f with
  | Next _ s' | Return _ s' => sameFrame s s'
  end.
Proof.
  intros Hf. unfold csvUnmarshalField. cbv zeta.
  destruct (CanSet f) eqn:Hc; [|apply sameFrame_refl].
  break_match; keep_frame Hf Hc.
Qed.

Lemma jsonUnmarshalField_keeps (E : Env) (jsonMap : gmap string string)
    (tagName excludeTagName : string) (s : Struct) (i : nat) (f : Field) :
  Fields s !! i = Some f ->
  match jsonUnmarshalField E jsonMap tagName excludeTagName tt s i f with
  | Next _ s' | Return _ s' => sameFrame s s'
  end.
Proof.
  intros Hf. unfold jsonUnmarshalField. cbv zeta.
  destruct (CanSet f) eqn:Hc; [|apply sameFrame_refl].
  break_match; keep_frame Hf Hc.
Qed.

Lemma fieldLoop_keeps {A} (step : A -> Struct -> nat -> Field -> Outcome A) :
  (forall a s i f,
     Fields s !! i = Some f ->
     match step a s i f with
     | Next _ s' | Return _ s' => sameFrame s s'
     end) ->
  forall n i a s e s', fieldLoop step n i a s = (e, s') -> sameFrame s s'.
Proof.
  intros Hstep. induction n as [|n IH]; intros i a s e s' Hloop; simpl in Hloop.
  - injection Hloop as <- <-. apply sameFrame_refl.
  - destruct (Fields s !! i) as [f|] eqn:Hf;
      [|injection Hloop as <- <-; apply sameFrame_refl].
    specialize (Hstep a s i f Hf).
    destruct (step a s i f) as [a1 s1|e1 s1].
    + exact (sameFrame_trans _ _ _ Hstep (IH _ _ _ _ _ Hloop)).
    + injection Hloop as <- <-. exact Hstep.
Qed.

(** X12.  The two readers keep the frame of the record on every return,
    with or without an error: the type, the number of fields, their names,
    tags and settable flags are as before, and every field that is not
    settable is exactly as it was passed in. *)
Theorem readers_keep_frame (E : Env) (s s' : Struct)
    (payload csvDelimiter tagName excludeTagName : string)
    (customDelimiterParserFunc : option (string -> list string))
    (e : option Error) :
  UnmarshalCSVToStruct E (InPtr s) payload csvDelimiter customDelimiterParserFunc
  = (e, InPtr s')
  \/ UnmarshalJsonToStruct E (InPtr s) payload tagName excludeTagName
     = (e, InPtr s') ->
  sameFrame s s'.
Proof.
  assert (Hstart : sameFrame s (applyDefaults E (clearFields s))).
  { exact (sameFrame_trans _ _ _ (clearFields_frame s) (applyDefaults_frame E _)). }
  intros [Hcall|Hcall].
  - unfold UnmarshalCSVToStruct in Hcall.
    destruct (LenTrim payload =? 0)%nat;
      [injection Hcall as _ <-; apply sameFrame_refl|].
    destruct (_ && _); [injection Hcall as _ <-; apply sameFrame_refl|].
    destruct (length _ =? 0)%nat; [injection Hcall as _ <-; apply sameFrame_refl|].
    destruct (fieldLoop _ _ _ _ _) as [e1 s1] eqn:Hloop.
    injection Hcall as _ <-.
    apply (sameFrame_trans _ _ _ Hstart).
    apply (fieldLoop_keeps _ (csvUnmarshalField_keeps E _) _ _ _ _ _ _ Hloop).
  - unfold UnmarshalJsonToStruct in Hcall.
    destruct (LenTrim payload =? 0)%nat;
      [injection Hcall as _ <-; apply sameFrame_refl|].
    destruct (LenTrim tagName =? 0)%nat;
      [injection Hcall as _ <-; apply sameFrame_refl|].
    destruct (json_Unmarshal E payload) as [msg| |jsonMap];
      try (injection Hcall as _ <-; apply sameFrame_refl).
    destruct (size jsonMap =? 0)%nat;
      [injection Hcall as _ <-; apply sameFrame_refl|].
    destruct (fieldLoop _ _ _ _ _) as [e1 s1] eqn:Hloop.
    injection Hcall as _ <-.
    apply (sameFrame_trans _ _ _ Hstart).
    refine (fieldLoop_keeps _ _ _ _ _ _ _ _ Hloop).
    intros [] cur i f. apply jsonUnmarshalField_keeps.
Qed.

(** The unsettable [seal] of [parcel] is addressed by position 2 and keeps
    its value. *)
Lemma readers_keep_frame_witness :
  exists e s',
    UnmarshalCSVToStruct go_env (InPtr parcel) "7,Z=2,lead" "," None = (e, InPtr s')
    /\ sameFrame parcel s'.
Proof.
  eexists _, _. split; [vm_compute; reflexivity|].
  eapply (readers_keep_frame go_env parcel _ "7,Z=2,lead" "," "" "" None).
  left. vm_compute. reflexivity.
Defined.

(** *** Errors of the JSON reader *)

Lemma json_loop_errors (E : Env) (jsonMap : gmap string string)
    (tagName excludeTagName : string) (n i : nat) (s s' : Struct) (e : Error) :
  fieldLoop (jsonUnmarshalField E jsonMap tagName excludeTagName) n i tt s
  = (Some e, s') ->
  isJsonReaderError e = true.
Proof.
  revert i s. induction n as [|n IH]; intros i s Hloop; simpl in Hloop.
  - discriminate.
  - destruct (Fields s !! i) as [f|]; [|discriminate].
    destruct (jsonUnmarshalField E jsonMap tagName excludeTagName tt s i f)
      as [[] s1|e1 s1] eqn:Hturn.
    + apply (IH _ _ Hloop).
    + injection Hloop as -> ->. revert Hturn.
      unfold jsonUnmarshalField. cbv zeta.
      break_match; intros Hturn; try discriminate;
        injection Hturn as <- _; try reflexivity.
      all: match goal with
           | H : setterOnReference _ _ _ _ _ _ _ _ = inr _ |- _ =>
               apply setterOnReference_error in H; subst
           end; reflexivity.
Qed.

(** X13.  [UnmarshalJsonToStruct] applies none of the size, range or
    [validate] rules: every error it returns is one of its entry and decode
    errors, the error of an interface field without an object, or an error
    handed back by a collaborator. *)
Theorem UnmarshalJsonToStruct_errors (E : Env) (inp inp' : Input)
    (jsonPayload tagName excludeTagName : string) (e : Error) :
  UnmarshalJsonToStruct E inp jsonPayload tagName excludeTagName = (Some e, inp') ->
  isJsonReaderError e = true
  /\ isValidationError e = false
  /\ forall args,
       e <> Errorf "Struct Field %s Expects Value In Blocks of %d Characters" args.
Proof.
  intros Hcall.
  assert (He : isJsonReaderError e = true).
  { unfold UnmarshalJsonToStruct in Hcall.
    destruct inp as [|v|v|s]; try (injection Hcall as <- _; reflexivity);
      (destruct (LenTrim jsonPayload =? 0)%nat;
         [injection Hcall as <- _; reflexivity|]);
      (destruct (LenTrim tagName =? 0)%nat;
         [injection Hcall as <- _; reflexivity|]);
      try (injection Hcall as <- _; reflexivity).
    destruct (json_Unmarshal E jsonPayload) as [msg| |jsonMap];
      try (injection Hcall as <- _; reflexivity).
    destruct (size jsonMap =? 0)%nat; [injection Hcall as <- _; reflexivity|].
    destruct (fieldLoop _ _ _ _ _) as [e1 s1] eqn:Hloop.
    injection Hcall as -> _.
    apply (json_loop_errors _ _ _ _ _ _ _ _ _ Hloop). }
  split; [exact He|]. split.
  - destruct e as [format args|msg]; [|reflexivity].
    simpl in He |- *. unfold StringSliceContains, jsonReaderFormats in He.
    simpl in He.
    repeat (apply orb_true_iff in He as [He|He]); try discriminate;
      apply String.eqb_eq in He; subst; reflexivity.
  - intros args ->. vm_compute in He. discriminate.
Qed.

Lemma UnmarshalJsonToStruct_errors_witness :
  isJsonReaderError (Errorf "Unmarshaled Json Map Has No Elements" []) = true.
Proof.
  apply (UnmarshalJsonToStruct_errors go_env (InPtr person) (InPtr person)
           "{}" "json" "" (Errorf "Unmarshaled Json Map Has No Elements" [])).
  vm_compute. reflexivity.
Defined.

(** ** MarshalSliceStructToJson *)

(** The text of a successful [MarshalStructToJson] is never blank. *)
Lemma MarshalStructToJson_text (E : Env) (v : Input)
    (tagName excludeTagName text : string) :
  MarshalStructToJson E v tagName excludeTagName = (text, None) ->
  hasText text = true.
Proof.
  unfold MarshalStructToJson. intros H.
  destruct v; try discriminate;
    destruct (LenTrim tagName =? 0)%nat; try discriminate.
  destruct (fold_left _ _ _) as [output um].
  destruct (LenTrim output =? 0)%nat; [discriminate|].
  injection H as <-. reflexivity.
Qed.

Lemma marshalSliceLoop_inl (E : Env) (items : list Input)
    (tagName excludeTagName out out' : string) :
  marshalSliceLoop E items tagName excludeTagName out = inl out' ->
  Forall (fun v => snd (MarshalStructToJson E v tagName excludeTagName) = None) items
  /\ out' = fold_left (appendPiece ", ")
              ((fun v => fst (MarshalStructToJson E v tagName excludeTagName)) <$> items)
              out.
Proof.
  revert out. induction items as [|v items IH]; intros out; simpl.
  - intros [= <-]. split; [constructor|reflexivity].
  - destruct (MarshalStructToJson E v tagName excludeTagName) as [s [e|]] eqn:Hv;
      [discriminate|].
    intros H. apply IH in H as [Hall ->]. split; [|reflexivity].
    constructor; [rewrite Hv; reflexivity|exact Hall].
Qed.

Lemma marshalSliceLoop_inr (E : Env) (items : list Input)
    (tagName excludeTagName out : string) (e : Error) :
  marshalSliceLoop E items tagName excludeTagName out = inr e ->
  exists before v after,
    items = before ++ v :: after
    /\ Forall (fun v => snd (MarshalStructToJson E v tagName excludeTagName) = None)
         before
    /\ snd (MarshalStructToJson E v tagName excludeTagName) = Some e.
Proof.
  revert out. induction items as [|v items IH]; intros out; simpl.
  - discriminate.
  - destruct (MarshalStructToJson E v tagName excludeTagName) as [s [e'|]] eqn:Hv.
    + intros [= ->]. exists [], v, items. split; [reflexivity|].
      split; [constructor|rewrite Hv; reflexivity].
    + intros H. apply IH in H as (before & w & after & -> & Hall & Hw).
      exists (v :: before), w, after. split; [reflexivity|].
      split; [constructor; [rewrite Hv; reflexivity|exact Hall]|exact Hw].
Qed.

Lemma marshalSliceLoop_all (E : Env) (items : list Input)
    (tagName excludeTagName out : string) :
  Forall (fun v => snd (MarshalStructToJson E v tagName excludeTagName) = None) items ->
  marshalSliceLoop E items tagName excludeTagName out
  = inl (fold_left (appendPiece ", ")
           ((fun v => fst (MarshalStructToJson E v tagName excludeTagName)) <$> items)
           out).
Proof.
  intros Hall. revert out. induction Hall as [|v items Hv _ IH]; intros out; simpl.
  - reflexivity.
  - destruct (MarshalStructToJson E v tagName excludeTagName) as [s [e|]];
      [discriminate|]. apply IH.
Qed.

Lemma element_texts (E : Env) (items : list Input) (tagName excludeTagName : string) :
  Forall (fun v => snd (MarshalStructToJson E v tagName excludeTagName) = None) items ->
  Forall (fun p => hasText p = true)
    ((fun v => fst (MarshalStructToJson E v tagName excludeTagName)) <$> items).
Proof.
  intros Hall. apply Forall_fmap. eapply Forall_impl; [exact Hall|].
  intros v Hv. simpl.
  destruct (MarshalStructToJson E v tagName excludeTagName) as [s e] eqn:H.
  cbv beta in Hv. rewrite H in Hv. simpl in Hv. subst e. apply (MarshalStructToJson_text _ _ _ _ _ H).
Qed.

Lemma joined_pos (sep : string) (pieces : list string) :
  Forall (fun p => hasText p = true) pieces ->
  pieces <> [] ->
  (0 <? LenTrim (joinPieces sep pieces))%nat = true.
Proof.
  intros Hall Hne. pose proof (joined_blank sep pieces Hall) as H.
  destruct pieces; [contradiction|].
  apply Nat.eqb_neq in H. apply Nat.ltb_lt. lia.
Qed.

(** X14.  [MarshalSliceStructToJson] composes [MarshalStructToJson]: when
    the slice is not empty and every element marshals, the result is the
    texts of the elements, in order, joined by ", " between brackets - one
    separator between neighbours, none before the first or after the last. *)
Theorem MarshalSliceStructToJson_array (E : Env) (items : list Input)
    (tagName excludeTagName : string) :
  items <> [] ->
  Forall (fun v => snd (MarshalStructToJson E v tagName excludeTagName) = None) items ->
  MarshalSliceStructToJson E items tagName excludeTagName
  = ("[" +:+ String.concat ", "
               ((fun v => fst (MarshalStructToJson E v tagName excludeTagName)) <$> items)
         +:+ "]", None).
Proof.
  intros Hne Hall. unfold MarshalSliceStructToJson.
  assert (Hlen : (length items =? 0)%nat = false)
    by (destruct items; [contradiction|reflexivity]).
  rewrite Hlen, (marshalSliceLoop_all _ _ _ _ _ Hall).
  pose proof (element_texts _ _ _ _ Hall) as Htexts.
  change (fold_left (appendPiece ", ") ?l "") with (joinPieces ", " l).
  rewrite (joined_pos ", " _ Htexts), (joinPieces_concat _ _ Htexts);
    [reflexivity|].
  intros Hnil. apply fmap_nil_inv in Hnil. contradiction.
Qed.

Lemma MarshalSliceStructToJson_array_witness :
  MarshalSliceStructToJson go_env [InPtr flag; InPtr phones] "json" ""
  = ("[" +:+ jsonObjectOf [("active", "Y")] +:+ ", "
         +:+ jsonObjectOf [("home", "111")] +:+ "]", None).
Proof.
  rewrite (MarshalSliceStructToJson_array go_env [InPtr flag; InPtr phones] "json" "").
  - vm_compute. reflexivity.
  - discriminate.
  - repeat constructor.
Defined.

(** X15.  [MarshalSliceStructToJson] fails in two ways only, both with an
    empty text: on an empty slice, and on the first element that
    [MarshalStructToJson] rejects, whose error it wraps; the elements before
    it are dropped.  Its "Yielded Blank String" error is never returned. *)
Theorem MarshalSliceStructToJson_failure (E : Env) (items : list Input)
    (tagName excludeTagName text : string) (err : SliceError) :
  MarshalSliceStructToJson E items tagName excludeTagName = (text, Some err) ->
  text = ""
  /\ ((items = [] /\ err = Fixed "Input Slice Struct Pointer Nil")
      \/ exists before v after e,
           items = before ++ v :: after
           /\ Forall (fun v => snd (MarshalStructToJson E v tagName excludeTagName)
                               = None) before
           /\ snd (MarshalStructToJson E v tagName excludeTagName) = Some e
           /\ err = Wrapped "MarshalSliceStructToJson Failed: %s" e).
Proof.
  unfold MarshalSliceStructToJson. intros H.
  destruct items as [|v items].
  { injection H as <- <-. split; [reflexivity|]. left. split; reflexivity. }
  change (length (v :: items) =? 0)%nat with false in H. cbv iota in H.
  destruct (marshalSliceLoop E (v :: items) tagName excludeTagName "")
    as [out|e] eqn:Hloop.
  - apply marshalSliceLoop_inl in Hloop as [Hall ->].
    pose proof (element_texts _ _ _ _ Hall) as Htexts.
    change (fold_left (appendPiece ", ") ?l "") with (joinPieces ", " l) in H.
    rewrite (joined_pos ", " _ Htexts) in H by discriminate. discriminate.
  - injection H as <- <-. split; [reflexivity|]. right.
    apply marshalSliceLoop_inr in Hloop as (before & w & after & Hitems & Hall & Hw).
    exists before, w, after, e. repeat split; assumption.
Qed.

(** The second element is not a pointer: the text of the first is dropped. *)
Lemma MarshalSliceStructToJson_failure_witness :
  fst (MarshalSliceStructToJson go_env [InPtr flag; InNotPtr (VString "x")] "json" "")
  = "".
Proof.
  apply (MarshalSliceStructToJson_failure go_env
           [InPtr flag; InNotPtr (VString "x")] "json" ""
           (fst (MarshalSliceStructToJson go_env
                   [InPtr flag; InNotPtr (VString "x")] "json" ""))
           (Wrapped "MarshalSliceStructToJson Failed: %s"
              (Errorf "MarshalStructToJson Expects inputStructPtr To Be a Pointer" []))).
  vm_compute. reflexivity.
Defined.

(** ** Fill *)

Section FillProperties.

Variable Assign : Value -> Value -> option Value.
Variable Embedded : string -> bool.
Variable Promoted : Struct -> Field -> Run Struct.












End FillProperties.





(** ** ParseHostFromURL *)

Lemma lower_ascii_idempotent (c : ascii) : lower_ascii (lower_ascii c) = lower_ascii c.
Proof.
  destruct c as [[] [] [] [] [] [] [] []]; reflexivity.
Qed.

Lemma ToLower_idempotent (s : string) : ToLower (ToLower s) = ToLower s.
Proof.
  induction s as [|c s IH]; simpl; [reflexivity|].
  rewrite lower_ascii_idempotent, IH. reflexivity.
Qed.

Lemma ToLower_cons (c : ascii) (s : string) :
  ToLower (String c s) = String c s -> lower_ascii c = c /\ ToLower s = s.
Proof. simpl. intros [= Hc Hs]. split; assumption. Qed.

(** Taking occurrences out of a lower-case text leaves it lower-case. *)
Lemma replace_from_lower (old : string) (skip : nat) (s : string) :
  ToLower s = s ->
  ToLower (replace_from old "" skip s) = replace_from old "" skip s.
Proof.
  revert skip. induction s as [|c s IH]; intros skip Hs; [reflexivity|].
  apply ToLower_cons in Hs as [Hc Hs]. cbn [replace_from].
  destruct skip as [|k]; [|apply IH, Hs].
  destruct (String.prefix old (String c s)).
  - change ("" +:+ ?x) with x. apply IH, Hs.
  - cbn [ToLower]. rewrite Hc, IH by exact Hs. reflexivity.
Qed.

Lemma hasSlash_cons (c : ascii) (s : string) :
  hasSlash (String c s) = Ascii.eqb "/" c || hasSlash s.
Proof. reflexivity. Qed.

Lemma prefix_hasSlash (old s : string) :
  hasSlash old = true -> String.prefix old s = true -> hasSlash s = true.
Proof.
  revert s. induction old as [|a old IH]; intros s Hold Hpre; [discriminate|].
  destruct s as [|b s]; [discriminate|].
  cbn [String.prefix] in Hpre. destruct (ascii_dec a b) as [<-|]; [|discriminate].
  rewrite hasSlash_cons in *.
  destruct (Ascii.eqb "/" a); [reflexivity|]. apply IH; assumption.
Qed.

(** A text without a slash holds no occurrence of a text with one. *)
Lemma replace_from_no_slash (old new s : string) :
  hasSlash old = true -> hasSlash s = false -> replace_from old new 0 s = s.
Proof.
  intros Hold. induction s as [|c s IH]; intros Hs; [reflexivity|].
  cbn [replace_from]. destruct (String.prefix old (String c s)) eqn:Hpre.
  - rewrite (prefix_hasSlash _ _ Hold Hpre) in Hs. discriminate.
  - f_equal. apply IH. rewrite hasSlash_cons in Hs.
    apply orb_false_iff in Hs as [_ Hs]. exact Hs.
Qed.

(** The first part of a text split at the slashes. *)
Lemma split_slash_head (cur s : string) :
  exists p rest,
    split_from "/" 0 cur s = p :: rest
    /\ exists a b, p = cur +:+ a /\ s = a +:+ b /\ hasSlash a = false.
Proof.
  revert cur. induction s as [|c s IH]; intros cur.
  - exists cur, []. split; [reflexivity|]. exists "", "".
    split; [|split; reflexivity].
    clear. induction cur as [|x cur IH]; [reflexivity|].
    change (String x cur = String x (cur +:+ "")). f_equal. exact IH.
  - cbn [split_from String.prefix]. destruct (ascii_dec "/" c) as [<-|Hne].
    + exists cur, (split_from "/" 0 "" s).
      split; [destruct s; reflexivity|].
      exists "", (String "/" s). split; [|split; reflexivity].
      clear. induction cur as [|x cur IH]; [reflexivity|].
      change (String x cur = String x (cur +:+ "")). f_equal. exact IH.
    + destruct (IH (cur +:+ String c "")) as (p & rest & Hsplit & a & b & -> & -> & Ha).
      exists ((cur +:+ String c "") +:+ a), rest. split; [exact Hsplit|].
      exists (String c a), b. split; [|split].
      * rewrite append_assoc. reflexivity.
      * reflexivity.
      * rewrite hasSlash_cons, Ha.
        destruct (Ascii.eqb_spec "/"%char c); [contradiction|reflexivity].
Qed.

Lemma ToLower_app (a b : string) : ToLower (a +:+ b) = ToLower a +:+ ToLower b.
Proof.
  induction a as [|c a IH]; [reflexivity|].
  change (ToLower (String c (a +:+ b)) = String (lower_ascii c) (ToLower a +:+ ToLower b)).
  simpl. rewrite IH. reflexivity.
Qed.

Lemma app_inv_left (a b a' b' : string) :
  len a = len a' -> a +:+ b = a' +:+ b' -> a = a'.
Proof.
  revert a'. induction a as [|c a IH]; intros [|c' a'] Hlen H; try discriminate;
    [reflexivity|].
  change (String c (a +:+ b) = String c' (a' +:+ b')) in H.
  injection H as -> H. f_equal. apply IH; [|exact H]. simpl in Hlen. lia.
Qed.

Lemma ToLower_length (s : string) : len (ToLower s) = len s.
Proof. induction s as [|c s IH]; simpl; [reflexivity|]. rewrite IH. reflexivity. Qed.

Lemma split_no_slash (s : string) :
  hasSlash s = false -> split_from "/" 0 "" s = [s].
Proof.
  assert (H : forall cur, hasSlash s = false -> split_from "/" 0 cur s = [cur +:+ s]).
  { induction s as [|c s IH]; intros cur Hs.
    - simpl. f_equal. clear. induction cur as [|x cur IH]; [reflexivity|].
      change (String x cur = String x (cur +:+ "")). f_equal. exact IH.
    - rewrite hasSlash_cons in Hs. apply orb_false_iff in Hs as [Hc Hs].
      cbn [split_from String.prefix].
      destruct (ascii_dec "/" c) as [<-|Hne]; [discriminate|].
      rewrite IH by exact Hs. rewrite append_assoc. reflexivity. }
  intros Hs. apply (H "" Hs).
Qed.

(** X18.  [ParseHostFromURL] never panics, and the host it returns holds no
    slash, is in lower case, and is a fixed point: parsing the host again
    gives the host. *)
Theorem ParseHostFromURL_host (url : string) :
  exists host,
    ParseHostFromURL url = Returns host
    /\ hasSlash host = false
    /\ ToLower host = host
    /\ ParseHostFromURL host = Returns host.
Proof.
  unfold ParseHostFromURL at 1. cbv zeta.
  set (x := ReplaceAll (ReplaceAll (ToLower url) "https://" "") "http://" "").
  assert (Hx : ToLower x = x).
  { unfold x, ReplaceAll. simpl.
    apply replace_from_lower, replace_from_lower, ToLower_idempotent. }
  unfold Split.
  destruct (split_slash_head "" x) as (p & rest & Hsplit & a & b & Hp & Hab & Ha).
  change ("" +:+ a) with a in Hp. subst p.
  rewrite Hsplit. exists a.
  assert (Hlow : ToLower a = a).
  { rewrite Hab, ToLower_app in Hx.
    apply (app_inv_left _ _ _ _ (ToLower_length a) Hx). }
  split; [reflexivity|]. split; [exact Ha|]. split; [exact Hlow|].
  unfold ParseHostFromURL, ReplaceAll. cbv zeta. rewrite Hlow.
  rewrite (replace_from_no_slash "https://" "" a) by (reflexivity || exact Ha).
  rewrite (replace_from_no_slash "http://" "" a) by (reflexivity || exact Ha).
  unfold Split. rewrite split_no_slash by exact Ha. reflexivity.
Qed.

(** ** VerifyGoogleReCAPTCHAv2 *)

(** X19.  [VerifyGoogleReCAPTCHAv2] reports success exactly when it reports
    no error, and it reports success only if both arguments hold text and
    the service answered the request with status 200 and a JSON object whose
    [success] entry reads "true" (in any case). *)
Theorem VerifyGoogleReCAPTCHAv2_success (E : Env) (N : NetEnv)
    (response secret : string) :
  let '(success, _, _, err) := VerifyGoogleReCAPTCHAv2 E N response secret in
  (success = true <-> err = None)
  /\ (success = true ->
      LenTrim response <> 0%nat /\ LenTrim secret <> 0%nat
      /\ exists body m,
           POST N ("https://www.google.com/recaptcha/api/siteverify?secret="
                   +:+ PathEscape E secret +:+ "&response=" +:+ PathEscape E response)
           = (200, body, None)
           /\ json_Unmarshal E body = JsonMap m
           /\ ToLower (default "" (m !! "success")) = "true").
Proof.
  unfold VerifyGoogleReCAPTCHAv2.
  destruct (LenTrim response =? 0)%nat eqn:Hr;
    [split; [split|]; discriminate|].
  destruct (LenTrim secret =? 0)%nat eqn:Hs;
    [split; [split|]; discriminate|].
  apply Nat.eqb_neq in Hr, Hs.
  destruct (POST N _) as [[statusCode responseBody] [e|]] eqn:Hpost;
    [split; [split|]; discriminate|].
  destruct (statusCode =? 200) eqn:Hcode; simpl;
    [|split; [split|]; discriminate].
  apply Z.eqb_eq in Hcode. subst statusCode.
  destruct (json_Unmarshal E responseBody) as [msg| |m] eqn:Hdec;
    try (split; [split|]; discriminate).
  destruct (String.eqb (ToLower (default "" (m !! "success"))) "true") eqn:Hsucc; simpl.
  - split; [split; reflexivity|]. intros _. split; [exact Hr|]. split; [exact Hs|].
    exists responseBody, m. split; [reflexivity|]. split; [exact Hdec|].
    apply String.eqb_eq. exact Hsucc.
  - split; [|discriminate].
    destruct (json_UnmarshalStrings N _); split; discriminate.
Qed.

Example VerifyGoogleReCAPTCHAv2_examples :
  fst (fst (fst (VerifyGoogleReCAPTCHAv2 go_env
                   (answering 200 ("{" +:+ quoted "success" +:+ ":true}"))
                   "token" "key"))) = true
  /\ snd (VerifyGoogleReCAPTCHAv2 go_env
            (answering 200 ("{" +:+ quoted "success" +:+ ":false}")) "token" "key")
     = Some (Errorf "ReCAPTCHA Verify Errors: %s" [AStr ""])
  /\ snd (VerifyGoogleReCAPTCHAv2 go_env (answering 503 "") "token" "key")
     = Some (Errorf "ReCAPTCHA Service Failed: Status Code %d" [AInt 503]).
Proof. vm_compute. repeat split; reflexivity. Qed.

Example ParseHostFromURL_examples :
  ParseHostFromURL "HTTPS://Example.com/a/b" = Returns "example.com"
  /\ ParseHostFromURL "" = Returns "".
Proof. vm_compute. split; reflexivity. Qed.

(** ** StructToQueryParams, StructToJson, SliceStructToJson *)

Lemma netFieldText_panics (E : Env) (N : NetEnv) (f : Field) :
  netFieldText E N f = Panics <-> negb (CanSet f) && negb (isBasicKind (Val f)) = true.
Proof.
  unfold netFieldText.
  destruct (Val f) as [ | | | | | | |ty [[]|]| | | | | | | | | ]; simpl;
    destruct (CanSet f); simpl; split; intros H; try discriminate; reflexivity.
Qed.

Lemma queryLoop_panics (E : Env) (N : NetEnv) (fs : list Field)
    (tagName excludeTagName out : string) :
  structToQueryParamsLoop E N fs tagName excludeTagName out = Panics
  <-> existsb (fun f => netTagged tagName excludeTagName f
                        && negb (CanSet f) && negb (isBasicKind (Val f))) fs = true.
Proof.
  revert out. induction fs as [|f fs IH]; intros out; simpl.
  - split; discriminate.
  - unfold netTagged.
    destruct (0 <? LenTrim (Get f tagName))%nat; simpl; [|apply IH].
    destruct (netExcluded f excludeTagName); simpl; [apply IH|].
    pose proof (netFieldText_panics E N f) as Hp.
    destruct (netFieldText E N f) as [|[buf|]].
    + destruct Hp as [Hp _]. rewrite (Hp eq_refl). split; reflexivity.
    + destruct (negb (CanSet f) && negb (isBasicKind (Val f)));
        [destruct Hp as [_ Hp]; discriminate (Hp eq_refl)|apply IH].
    + destruct (negb (CanSet f) && negb (isBasicKind (Val f)));
        [destruct Hp as [_ Hp]; discriminate (Hp eq_refl)|apply IH].
Qed.

Lemma jsonLoop_panics (E : Env) (N : NetEnv) (fs : list Field)
    (tagName excludeTagName out : string) :
  structToJsonLoop E N fs tagName excludeTagName out = Panics
  <-> existsb (fun f => netTagged tagName excludeTagName f
                        && negb (CanSet f) && negb (isBasicKind (Val f))) fs = true.
Proof.
  revert out. induction fs as [|f fs IH]; intros out; simpl.
  - split; discriminate.
  - unfold netTagged.
    destruct (0 <? LenTrim (Get f tagName))%nat; simpl; [|apply IH].
    destruct (netExcluded f excludeTagName); simpl; [apply IH|].
    pose proof (netFieldText_panics E N f) as Hp.
    destruct (netFieldText E N f) as [|[buf|]].
    + destruct Hp as [Hp _]. rewrite (Hp eq_refl). split; reflexivity.
    + destruct (negb (CanSet f) && negb (isBasicKind (Val f)));
        [destruct Hp as [_ Hp]; discriminate (Hp eq_refl)|apply IH].
    + destruct (negb (CanSet f) && negb (isBasicKind (Val f)));
        [destruct Hp as [_ Hp]; discriminate (Hp eq_refl)|apply IH].
Qed.

(** X20.  [StructToQueryParams] and [StructToJson] panic on the same
    inputs: given a tag name, when the input is not a pointer, or when a
    field that carries the tag and is not excluded is unexported and not of
    a basic kind (string, bool, integer, float).  On every other input they
    return. *)
Theorem net_marshalers_panic (E : Env) (N : NetEnv) (inp : Input)
    (tagName excludeTagName : string) :
  (StructToQueryParams E N inp tagName excludeTagName = Panics
   <-> netUnsafe inp tagName excludeTagName = true)
  /\ (StructToJson E N inp tagName excludeTagName = Panics
      <-> netUnsafe inp tagName excludeTagName = true).
Proof.
  unfold StructToQueryParams, StructToJson, netUnsafe.
  destruct inp as [|v|v|s]; try (split; split; discriminate);
    destruct (LenTrim tagName =? 0)%nat; simpl;
    try (split; split; discriminate); try (split; split; reflexivity).
  split.
  - rewrite <- (queryLoop_panics E N (Fields s) tagName excludeTagName "").
    destruct (structToQueryParamsLoop _ _ _ _ _ _) as [|output];
      [split; reflexivity|].
    destruct (LenTrim output =? 0)%nat; split; discriminate.
  - rewrite <- (jsonLoop_panics E N (Fields s) tagName excludeTagName "").
    destruct (structToJsonLoop _ _ _ _ _ _) as [|output];
      [split; reflexivity|].
    destruct (LenTrim output =? 0)%nat; split; discriminate.
Qed.

Example net_marshalers_panic_example :
  StructToJson go_env (answering 200 "") (InPtr sealed) "q" "" = Panics
  /\ StructToJson go_env (answering 200 "") (InPtr sealed) "q" "x"
     = Panics
  /\ StructToQueryParams go_env (answering 200 "") (InPtr person) "json" ""
     = Returns ("name=Ann&age=41", None).
Proof. vm_compute. repeat split; reflexivity. Qed.

Lemma queryLoop_pieces (E : Env) (N : NetEnv) (fs : list Field)
    (tagName excludeTagName out : string) :
  structToQueryParamsLoop E N fs tagName excludeTagName out <> Panics ->
  structToQueryParamsLoop E N fs tagName excludeTagName out
  = Returns (fold_left (appendPiece "&")
               (omap (netQueryPiece E N tagName excludeTagName) fs) out).
Proof.
  revert out. induction fs as [|f fs IH]; intros out; simpl; [reflexivity|].
  unfold netQueryPiece, netTagged.
  destruct (0 <? LenTrim (Get f tagName))%nat; simpl; [|apply IH].
  destruct (netExcluded f excludeTagName); simpl; [apply IH|].
  destruct (netFieldText E N f) as [|[buf|]]; [contradiction|apply IH..].
Qed.

Lemma jsonLoop_pieces (E : Env) (N : NetEnv) (fs : list Field)
    (tagName excludeTagName out : string) :
  structToJsonLoop E N fs tagName excludeTagName out <> Panics ->
  structToJsonLoop E N fs tagName excludeTagName out
  = Returns (fold_left (appendPiece ", ")
               (omap (netJsonPiece E N tagName excludeTagName) fs) out).
Proof.
  revert out. induction fs as [|f fs IH]; intros out; simpl; [reflexivity|].
  unfold netJsonPiece, netTagged.
  destruct (0 <? LenTrim (Get f tagName))%nat; simpl; [|apply IH].
  destruct (netExcluded f excludeTagName); simpl; [apply IH|].
  destruct (netFieldText E N f) as [|[buf|]]; [contradiction|apply IH..].
Qed.

Lemma LenTrim_pos_hasText (s : string) :
  (0 <? LenTrim s)%nat = true -> hasText s = true.
Proof.
  intros H. pose proof (LenTrim_hasText s) as Hs.
  destruct (hasText s); [reflexivity|]. simpl in Hs.
  apply Nat.eqb_eq in Hs. rewrite Hs in H. discriminate.
Qed.

Lemma netQueryPieces_hasText (E : Env) (N : NetEnv) (tagName excludeTagName : string)
    (fs : list Field) :
  Forall (fun p => hasText p = true) (omap (netQueryPiece E N tagName excludeTagName) fs).
Proof.
  induction fs as [|f fs IH]; simpl; [constructor|].
  unfold netQueryPiece at 1, netTagged.
  destruct (0 <? LenTrim (Get f tagName))%nat eqn:Htag; simpl; [|exact IH].
  destruct (negb (netExcluded f excludeTagName)); simpl; [|exact IH].
  destruct (netFieldText E N f) as [|[buf|]]; simpl; try exact IH.
  constructor; [|exact IH].
  rewrite hasText_app, (LenTrim_pos_hasText _ Htag). reflexivity.
Qed.

Lemma netJsonPieces_hasText (E : Env) (N : NetEnv) (tagName excludeTagName : string)
    (fs : list Field) :
  Forall (fun p => hasText p = true) (omap (netJsonPiece E N tagName excludeTagName) fs).
Proof.
  induction fs as [|f fs IH]; simpl; [constructor|].
  unfold netJsonPiece at 1.
  destruct (netTagged tagName excludeTagName f); simpl; [|exact IH].
  destruct (netFieldText E N f) as [|[buf|]]; simpl; try exact IH.
  constructor; [reflexivity|exact IH].
Qed.

(** X21.  On a struct that does not make them panic, [StructToQueryParams]
    returns the pieces [tag=value] of the fields that carry the tag, are not
    excluded and are of a supported kind, joined by "&", and [StructToJson]
    returns their pieces joined by ", " between braces; each returns its
    "Yielded Blank Output" error exactly when there is no such field. *)
Theorem net_marshalers_join (E : Env) (N : NetEnv) (s : Struct)
    (tagName excludeTagName : string) :
  LenTrim tagName <> 0%nat ->
  netUnsafe (InPtr s) tagName excludeTagName = false ->
  StructToQueryParams E N (InPtr s) tagName excludeTagName
  = Returns
      match omap (netQueryPiece E N tagName excludeTagName) (Fields s) with
      | [] => ("", Some (Errorf "StructToQueryParameters Yielded Blank Output" []))
      | pieces => (String.concat "&" pieces, None)
      end
  /\ StructToJson E N (InPtr s) tagName excludeTagName
     = Returns
         match omap (netJsonPiece E N tagName excludeTagName) (Fields s) with
         | [] => ("", Some (Errorf "StructToJson Yielded Blank Output" []))
         | pieces => ("{" +:+ String.concat ", " pieces +:+ "}", None)
         end.
Proof.
  intros Htag Hsafe. apply Nat.eqb_neq in Htag.
  unfold netUnsafe in Hsafe. rewrite Htag in Hsafe. simpl in Hsafe.
  unfold StructToQueryParams, StructToJson. rewrite Htag. split.
  - rewrite queryLoop_pieces.
    2: { intros Hp. apply queryLoop_panics in Hp. congruence. }
    pose proof (netQueryPieces_hasText E N tagName excludeTagName (Fields s)) as Hall.
    change (fold_left (appendPiece "&") ?l "") with (joinPieces "&" l).
    rewrite (joined_blank _ _ Hall), (joinPieces_concat _ _ Hall).
    destruct (omap _ (Fields s)); reflexivity.
  - rewrite jsonLoop_pieces.
    2: { intros Hp. apply jsonLoop_panics in Hp. congruence. }
    pose proof (netJsonPieces_hasText E N tagName excludeTagName (Fields s)) as Hall.
    change (fold_left (appendPiece ", ") ?l "") with (joinPieces ", " l).
    rewrite (joined_blank _ _ Hall), (joinPieces_concat _ _ Hall).
    destruct (omap _ (Fields s)); reflexivity.
Qed.

Lemma net_marshalers_join_witness :
  StructToQueryParams go_env (answering 200 "") (InPtr person) "json" ""
  = Returns ("name=Ann&age=41", None).
Proof.
  destruct (net_marshalers_join go_env (answering 200 "") person "json" "")
    as [Hqp _].
  - vm_compute. discriminate.
  - reflexivity.
  - rewrite Hqp. vm_compute. reflexivity.
Defined.

Lemma StructToJson_text (E : Env) (N : NetEnv) (v : Input)
    (tagName excludeTagName text : string) :
  StructToJson E N v tagName excludeTagName = Returns (text, None) ->
  hasText text = true.
Proof.
  unfold StructToJson. intros H.
  destruct v; try discriminate;
    destruct (LenTrim tagName =? 0)%nat; try discriminate.
  destruct (structToJsonLoop _ _ _ _ _ _) as [|output]; [discriminate|].
  destruct (LenTrim output =? 0)%nat; [discriminate|].
  injection H as <-. reflexivity.
Qed.

Lemma sliceStructLoop_all (E : Env) (N : NetEnv) (items : list Input)
    (tagName excludeTagName out : string) :
  Forall (fun v => exists text,
            StructToJson E N v tagName excludeTagName = Returns (text, None)) items ->
  sliceStructLoop E N items tagName excludeTagName out
  = Returns (inl (fold_left (appendPiece ", ")
                    (netJsonText E N tagName excludeTagName <$> items) out)).
Proof.
  intros Hall. revert out. induction Hall as [|v items [text Hv] _ IH]; intros out; simpl.
  - reflexivity.
  - replace (netJsonText E N tagName excludeTagName v) with text
      by (unfold netJsonText; rewrite Hv; reflexivity).
    rewrite Hv. apply IH.
Qed.

(** X22.  [SliceStructToJson] composes [StructToJson]: when the slice is not
    empty and every element marshals without a panic or an error, the result
    is the texts of the elements, in order, joined by ", " between
    brackets. *)
Theorem SliceStructToJson_array (E : Env) (N : NetEnv) (items : list Input)
    (tagName excludeTagName : string) :
  items <> [] ->
  Forall (fun v => exists text,
            StructToJson E N v tagName excludeTagName = Returns (text, None)) items ->
  SliceStructToJson E N items tagName excludeTagName
  = Returns ("[" +:+ String.concat ", "
                       (netJsonText E N tagName excludeTagName <$> items)
                 +:+ "]", None).
Proof.
  intros Hne Hall. unfold SliceStructToJson.
  assert (Hlen : (length items =? 0)%nat = false)
    by (destruct items; [contradiction|reflexivity]).
  rewrite Hlen, (sliceStructLoop_all _ _ _ _ _ _ Hall).
  assert (Htexts : Forall (fun p => hasText p = true)
                     (netJsonText E N tagName excludeTagName <$> items)).
  { apply Forall_fmap. eapply Forall_impl; [exact Hall|].
    intros v [text Hv]. simpl. unfold netJsonText. rewrite Hv.
    apply (StructToJson_text _ _ _ _ _ _ Hv). }
  change (fold_left (appendPiece ", ") ?l "") with (joinPieces ", " l).
  rewrite (joined_pos ", " _ Htexts), (joinPieces_concat _ _ Htexts);
    [reflexivity|].
  intros Hnil. apply fmap_nil_inv in Hnil. contradiction.
Qed.

Lemma SliceStructToJson_array_witness :
  SliceStructToJson go_env (answering 200 "") [InPtr flag; InPtr phones] "json" ""
  = Returns ("[" +:+ jsonObjectOf [("active", "true")] +:+ ", "
                 +:+ jsonObjectOf [("home", "111"); ("mobile", "222")] +:+ "]", None).
Proof.
  rewrite (SliceStructToJson_array go_env (answering 200 "")
             [InPtr flag; InPtr phones] "json" "").
  - vm_compute. reflexivity.
  - discriminate.
  - repeat constructor; eexists; vm_compute; reflexivity.
Defined.
